(* ===== verification/_CoqProject ===== *)
-Q . S2P
Prelude.v
CppStd.v
StdMap.v
World.v
Spdlog.v
Logging.v
Network.v
Initialize.v
CacheMachine.v
Context.v
Kernel.v
Graph.v
GraphTests.v
