(* ===== verification/Prelude.v ===== *)
(** * A verification development of the BlazingSQL engine start-up code
    and of its execution-graph core

    The repository's sources under [src/] are two C++ files:

    - [src/engine/src/cython/initialize.cpp]: the process-level bootstrap
      of one engine node ("RAL").  [initialize] reads a
      [std::map<std::string,std::string>] of configuration options,
      initializes the device allocator (RMM), the pinned transport
      buffers, the host memory quota, the communication data and server,
      and six spdlog loggers with their CSV headers; [initialize_C] and
      [finalize_C] wrap [initialize]/[finalize] in a [try]/[catch] that
      turns a [std::exception] into an error code; [getFreeMemory]
      subtracts two [size_t] counters; [get_ip] asks the kernel for the
      IPv4 address of an interface; [log_level_str_to_enum] and
      [create_logger] configure spdlog.
    - [src/engine/tests/cache_machine/graph_processor_test.cpp]: the
      tests that build execution graphs (generator, filter, join,
      project, sort, sort-and-sample, partition, merge and printer
      kernels connected through cache machines) and execute them.

    The execution-graph core itself (kernels, cache machines, the graph
    scheduler, the query [Context]) is not under [src/]: it is modelled
    from the specification and marked so in the manifest.

    ** Layout (one file per component, in dependency order)

    - [Prelude] (this file): machine-width integers ([int], [size_t]
      wrap-around), C++ exceptions and process termination as the values
      [exn], a state-and-exception monad [M] with its notation in
      [cpp_scope], the tactics and the hint database [blazing].
    - [CppStd]: the C++ standard-library functions the sources call,
      modelled after the C++ standard: [std::to_string] on [int] and
      [size_t], [std::stoi], [std::stof] (decimal forms), and character
      classification.
    - [StdMap]: [std::map<std::string,std::string>] as a strictly sorted
      association list (key order = [std::string]'s [operator<]) with
      [find], [operator[]] and in-order iteration.
    - [World]: the process state the start-up code touches: directories
      and files, environment, network interfaces, the spdlog registry,
      standard output and the ordered trace of calls into external
      collaborators (allocator, transport, communication server).
    - [Logging]: spdlog as the code uses it: levels, sinks, patterns, the
      logger registry, [log_level_str_to_enum] and [create_logger].
    - [Network]: [get_ip] and [inet_ntoa].
    - [Initialize]: [initialize], [finalize], [initialize_C],
      [finalize_C] and [getFreeMemory], composed as the source composes
      them in the monad [M].

    - [CacheMachine] (specification, section 4.2): a cache as a record of
      settings, one queue per consumer and the [finished] flag; [push]
      (streaming with a bounded queue, concatenating, partitioned by the
      batch's tag), [pull] and [finish] as functions whose results
      include blocking ([PushBlocked], [PullWait]) and the end of the
      stream; [run] folds an interleaving of operations.
    - [Context] (sections 3, 4.4): [Address::TCP], [Node], the query
      [Context] with [getTotalNodes] and the partition index of a node.
    - [Kernel] (sections 4.3, 7): the kernel classes as a closed variant
      with their named ports; a task is [Created], [Running], [Done] or
      [Failed], and [kstep] is one atomic step of its processing loop
      (push a pending result, pull the input its phase names, or finish
      its outputs); a failure force-finishes the outputs.  The class
      [Evaluator] is the excluded compute collaborator: the meaning of
      the opaque plan strings and the source data.
    - [Graph] (sections 4.1, 5, 7, 9): the builder ([a >> b], [link],
      [g += e] as [connect], which refuses unknown ports and a second
      cache on an input or an output port), [validate] (Kahn's algorithm), and
      execution as the step relation [gstep] over the tasks, the caches
      and the captured failure; [execute] runs the interleaving that
      always steps the first task able to, with fuel.
    - [GraphTests]: the five tests of [graph_processor_test.cpp], line by
      line (context, kernels, cache settings, [+=] statements), and
      [test_evaluator], the meaning of their plan strings over sample
      data; the claims on the tests hold for every evaluator.

    ** Theorems (the manifest lists them as claims)

    Start-up code: functional behaviour of every branch of
    [log_level_str_to_enum] and of the configuration defaults; round trip
    [std::stoi] of [std::to_string]; bounds of the [int] to [size_t]
    conversions ([TRANSPORT_BUFFER_BYTE_SIZE] and
    [LOGGING_MAX_SIZE_PER_FILE] wrap when negative, and cannot exceed
    [INT_MAX] otherwise) and of [getFreeMemory] (wraps when usage exceeds
    the limit); error paths of [initialize_C] (which external
    initializations already happened when a late option fails to parse);
    [finalize_C] never returns; the log files land in the file-system
    root when the logging directory is missing; CSV headers are written
    only for new files and only when the logger level lets an [info]
    message through.

    Execution graph: a cache keeps its invariant (queue count, capacity,
    partition tags) under [push], [pull] and [finish]; under any
    interleaving a streaming or partitioned cache delivers each
    consumer's batches in push order with none lost or duplicated, a
    concatenating cache delivers one batch holding every accepted row, a
    partitioned cache never leaks across partitions, and after [finish]
    a consumer drains its queue and sees the end of the stream.  Every
    reachable state of a graph keeps the execution invariant (a settled
    task's outputs are finished, a captured failure finished every
    cache); [execute] reports a failure only with every task settled and
    every cache finished; and a valid graph whose caches are unbounded
    never deadlocks ([Graph.no_deadlock], by induction on the
    topological order [validate] computes).  A typing of the links (what
    rows each may carry) that every kernel respects holds of every cache,
    pending result and accumulated row in every reachable state
    ([Graph.reachable_rows]); a join whose key types disagree never
    leaves its build side ([Graph.reachable_joins_blocked]).  Both are
    proved once for all invariants by [Graph.reachable_invariant].  The
    test claims instantiate these on the tests' graphs, for every
    evaluator, default capacity and interleaving: no deadlock, the rows
    ComplexTest prints are those of its query plan, JoinTest with
    mismatched keys prints nothing and never completes, and the caches
    the tests configure are FIFO, concatenating or partition-local.
    Executable runs of the five tests ([GraphTests], section "Runs of
    the tests") check the model against the tests' expected behaviour.

    ** Bounds and fuel

    [execute] takes fuel: [GraphTests.test_fuel] (400 steps) is enough
    for every test graph, which the runs of the tests show by reaching
    [Completed] or [GraphFailed], never [OutOfFuel]; the claims do not
    depend on fuel (they hold of every reachable state, or of every
    fuel).  [std::to_string]
    takes [log2 n + 1] digit steps as fuel, at least the number of
    decimal digits of [n].  The
    default capacity of a streaming cache is a parameter of every graph
    claim.  The no-deadlock theorem assumes unbounded caches: its proof
    needs every push to succeed, and whether bounded caches can deadlock
    a graph whose ports each have one cache is left open.

    ** What is not modelled, and why

    Floating-point rounding of [std::stof] (values are kept as exact
    rationals), hexadecimal/infinite/NaN forms of [std::stof], the
    asynchronous thread pool of spdlog (messages are appended at once,
    which is what the [block] overflow policy guarantees up to timing),
    log-file rotation, timestamps, CUDA and socket system calls other
    than their observable result.  In the graph tests: the one-second
    sleeps and the printing of caught exceptions (pure I/O), and the
    content of the random generator and of the parquet files (not in the
    repository; [test_evaluator] supplies sample data).  Cross-node
    transport is not modelled: every test runs on a one-node context. *)

From Stdlib Require Import ZArith List String Bool Lia.
Import ListNotations.

Declare Scope cpp_scope.
Delimit Scope cpp_scope with cpp.

Create HintDb blazing.
Create Rewrite HintDb blazing_rw.

(** ** Machine-width integers *)

Local Open Scope Z_scope.

Definition INT_MIN : Z := - 2 ^ 31.
Definition INT_MAX : Z := 2 ^ 31 - 1.
Definition SIZE_MODULUS : Z := 2 ^ 64.

(** [INT_MIN <= z <= INT_MAX], as a boolean the models can evaluate. *)
Definition in_int_range (z : Z) : bool := (INT_MIN <=? z) && (z <=? INT_MAX).

(** A value of [std::size_t]. *)
Definition is_size_t (z : Z) : Prop := 0 <= z < SIZE_MODULUS.

(** The integral conversion of any integer to [std::size_t]: reduction
    modulo [2^64]. *)
Definition to_size_t (z : Z) : Z := z mod SIZE_MODULUS.

(** [a - b] on [std::size_t] operands. *)
Definition size_t_sub (a b : Z) : Z := to_size_t (a - b).

Lemma in_int_range_spec z : in_int_range z = true <-> INT_MIN <= z <= INT_MAX.
Proof.
  unfold in_int_range. rewrite andb_true_iff, !Z.leb_le. tauto.
Qed.

Lemma to_size_t_bound z : is_size_t (to_size_t z).
Proof. unfold is_size_t, to_size_t, SIZE_MODULUS. apply Z.mod_pos_bound. lia. Qed.

Lemma to_size_t_small z : 0 <= z < SIZE_MODULUS -> to_size_t z = z.
Proof. intros H. unfold to_size_t. apply Z.mod_small. exact H. Qed.

Lemma to_size_t_neg z : - SIZE_MODULUS <= z < 0 -> to_size_t z = z + SIZE_MODULUS.
Proof.
  intros H. unfold to_size_t.
  rewrite <- (Z.mod_small (z + SIZE_MODULUS) SIZE_MODULUS) by lia.
  replace (z + SIZE_MODULUS) with (z + 1 * SIZE_MODULUS) by lia.
  rewrite Z.mod_add by (unfold SIZE_MODULUS; lia). reflexivity.
Qed.

#[export] Hint Resolve to_size_t_bound : blazing.

(** ** Exceptions and process termination

    A C++ function either returns, throws an exception derived from
    [std::exception] (caught by [catch (std::exception &)]), aborts (a
    failed [assert]) or terminates the process ([exit]). *)

Inductive exc_kind : Type :=
| InvalidArgument      (** [std::invalid_argument] *)
| OutOfRange           (** [std::out_of_range] *)
| SpdlogEx.            (** [spdlog::spdlog_ex] *)

Inductive exn : Type :=
| CppException (k : exc_kind) (what : string)
| ProcessAbort
| ProcessExit (code : Z).

(** Does [catch (std::exception & e)] catch it? *)
Definition is_std_exception (e : exn) : bool :=
  match e with CppException _ _ => true | _ => false end.

Inductive outcome (A : Type) : Type :=
| Normal (a : A)
| Raised (e : exn).
Arguments Normal {A} a.
Arguments Raised {A} e.

(** Sequencing of pure computations that may throw. *)
Definition obind {A B} (o : outcome A) (k : A -> outcome B) : outcome B :=
  match o with Normal a => k a | Raised e => Raised e end.

(** ** The state-and-exception monad

    A statement sequence of C++ over a state [S]: the state changes made
    before an exception is thrown are kept, as in C++. *)

Definition M (S A : Type) : Type := S -> outcome A * S.

Section Monad.
Context {S : Type}.

Definition ret {A} (a : A) : M S A := fun s => (Normal a, s).

Definition bind {A B} (c : M S A) (k : A -> M S B) : M S B :=
  fun s => match c s with
           | (Normal a, s') => k a s'
           | (Raised e, s') => (Raised e, s')
           end.

Definition raise {A} (e : exn) : M S A := fun s => (Raised e, s).

Definition get : M S S := fun s => (Normal s, s).

Definition modify (f : S -> S) : M S unit := fun s => (Normal tt, f s).

(** Lift a pure computation that may throw. *)
Definition lift {A} (o : outcome A) : M S A := fun s => (o, s).

(** [try { c } catch (std::exception &) { h }]. *)
Definition try_catch {A} (c : M S A) (h : M S A) : M S A :=
  fun s => match c s with
           | (Raised e, s') => if is_std_exception e then h s' else (Raised e, s')
           | r => r
           end.

Lemma bind_ret {A B} (a : A) (k : A -> M S B) s : bind (ret a) k s = k a s.
Proof. reflexivity. Qed.

Lemma bind_raise {A B} e (k : A -> M S B) s : bind (raise e) k s = (Raised e, s).
Proof. reflexivity. Qed.

Lemma bind_normal {A B} (c : M S A) (k : A -> M S B) s a s' :
  c s = (Normal a, s') -> bind c k s = k a s'.
Proof. intros H. unfold bind. rewrite H. reflexivity. Qed.

Lemma bind_raised {A B} (c : M S A) (k : A -> M S B) s e s' :
  c s = (Raised e, s') -> bind c k s = (Raised e, s').
Proof. intros H. unfold bind. rewrite H. reflexivity. Qed.

Lemma bind_assoc {A B C} (c : M S A) (k : A -> M S B) (k' : B -> M S C) s :
  bind (bind c k) k' s = bind c (fun a => bind (k a) k') s.
Proof. unfold bind. destruct (c s) as [[a|e] s']; reflexivity. Qed.
End Monad.

Notation "x <- c ;; k" := (bind c (fun x => k))
  (at level 100, c at next level, k at level 200, right associativity) : cpp_scope.
Notation "c ;; k" := (bind c (fun _ => k))
  (at level 100, k at level 200, right associativity) : cpp_scope.

Notation "x <-? o ;; k" := (obind o (fun x => k))
  (at level 100, o at next level, k at level 200, right associativity) : cpp_scope.

#[export] Hint Rewrite @bind_ret @bind_raise @bind_assoc : blazing_rw.

(** ** Tactics *)

Ltac inv H := inversion H; subst; clear H.

(** Run a monadic program one bind at a time, using the equation of the
    first statement given as [H]. *)
Ltac step_with H :=
  first [ rewrite (bind_normal _ _ _ _ _ H) | rewrite (bind_raised _ _ _ _ _ H) ].

(** ** Generic list lemmas *)

Lemma In_app_last {A} (x : A) l : In x (l ++ [x]).
Proof. apply in_or_app. right. left. reflexivity. Qed.

#[export] Hint Resolve In_app_last : blazing.

(** ** Generic option lemmas *)

(** A step function returning [Some (x, y)] fixes both results without
    reducing them (unlike [injection], which simplifies the sides). *)
Lemma Some_pair_inj {A B} (a a' : A) (b b' : B) :
  Some (a, b) = Some (a', b') -> a' = a /\ b' = b.
Proof. now intros [= -> ->]. Qed.

(** Rewrite the results of a step [E : Some (x, y) = Some (x', y')]. *)
Ltac some_pair E := destruct (Some_pair_inj _ _ _ _ E) as [-> ->]; clear E.
