(* ===== verification/CppStd.v ===== *)
(** * The C++ standard-library conversions the start-up code calls

    [std::to_string] on [int] and [std::size_t] values, [std::stoi] and
    [std::stof], after the C++ standard ([strtol]/[strtof] in the C
    locale, which [en_US.UTF-8] agrees with on digits, signs and the
    decimal point).  [std::stoi] skips leading white space, reads an
    optional sign and the longest run of decimal digits, ignores what
    follows, throws [std::invalid_argument] when there is no digit and
    [std::out_of_range] when the value does not fit an [int].
    [std::stof] is modelled on its decimal forms only, with the value
    kept as an exact rational (no rounding to [float]). *)

From Stdlib Require Import ZArith List String Ascii Bool Lia QArith.
From S2P Require Import Prelude.
Import ListNotations.

Local Open Scope Z_scope.

(** ** Characters *)

(** [isspace] in the C locale: space, [\t], [\n], [\v], [\f], [\r]. *)
Definition is_space (c : ascii) : bool :=
  let n := nat_of_ascii c in
  (n =? 32)%nat || ((9 <=? n)%nat && (n <=? 13)%nat).

Definition digit_of_ascii (c : ascii) : option Z :=
  let n := nat_of_ascii c in
  if (48 <=? n)%nat && (n <=? 57)%nat then Some (Z.of_nat n - 48) else None.

Definition ascii_of_digit (d : Z) : ascii := ascii_of_nat (48 + Z.to_nat d).

Fixpoint skip_space (s : string) : string :=
  match s with
  | String c r => if is_space c then skip_space r else s
  | EmptyString => s
  end.

(** ** Printing: [std::to_string] *)

(** Decimal digits, least significant first; [fuel] bounds their number. *)
Fixpoint rev_digits (fuel : nat) (n : Z) : list Z :=
  match fuel with
  | O => []
  | S f => if n <? 10 then [n] else n mod 10 :: rev_digits f (n / 10)
  end.

(** The decimal digits of [n >= 0], most significant first. *)
Definition digits_of (n : Z) : list Z := rev (rev_digits (S (Z.to_nat (Z.log2 n))) n).

Definition string_of_digits (ds : list Z) : string :=
  fold_right (fun d s => String (ascii_of_digit d) s) EmptyString ds.

(** [std::to_string(int)] and [std::to_string(std::size_t)]. *)
Definition to_string (z : Z) : string :=
  if z <? 0 then String "-" (string_of_digits (digits_of (- z)))
  else string_of_digits (digits_of z).

(** ** Parsing: [std::stoi] *)

(** The longest prefix of decimal digits: the value accumulated into
    [acc], the number of digits read, and the rest of the input. *)
Fixpoint read_digits (s : string) (acc : Z) (n : nat) : Z * nat * string :=
  match s with
  | String c r =>
      match digit_of_ascii c with
      | Some d => read_digits r (acc * 10 + d) (S n)
      | None => (acc, n, s)
      end
  | EmptyString => (acc, n, s)
  end.

(** An optional sign: is it a minus, and the rest. *)
Definition read_sign (s : string) : bool * string :=
  match s with
  | String c r =>
      if Ascii.eqb c "-" then (true, r)
      else if Ascii.eqb c "+" then (false, r) else (false, s)
  | EmptyString => (false, s)
  end.

Definition stoi (s : string) : outcome Z :=
  let (neg, s1) := read_sign (skip_space s) in
  match read_digits s1 0 0 with
  | (_, O, _) => Raised (CppException InvalidArgument "stoi")
  | (v, _, _) =>
      let z := if neg then - v else v in
      if in_int_range z then Normal z else Raised (CppException OutOfRange "stoi")
  end.

(** ** Parsing: [std::stof] on decimal forms *)

Definition scale10 (mant exp : Z) : Q :=
  if 0 <=? exp then inject_Z (mant * 10 ^ exp) else Qmake mant (Z.to_pos (10 ^ (- exp))).

(** The exponent part [e<sign><digits>], consumed only when it is well
    formed: its value, or 0. *)
Definition read_exponent (s : string) : Z :=
  match s with
  | String c r =>
      if Ascii.eqb c "e" || Ascii.eqb c "E" then
        let (neg, r1) := read_sign r in
        match read_digits r1 0 0 with
        | (_, O, _) => 0
        | (e, _, _) => if neg then - e else e
        end
      else 0
  | EmptyString => 0
  end.

Definition stof (s : string) : outcome Q :=
  let (neg, s1) := read_sign (skip_space s) in
  let '(ip, ni, r1) := read_digits s1 0 0 in
  let '(m, nf, r2) :=
    match r1 with
    | String c r => if Ascii.eqb c "." then read_digits r ip 0 else (ip, O, r1)
    | EmptyString => (ip, O, r1)
    end in
  if ((ni + nf) =? 0)%nat then Raised (CppException InvalidArgument "stof")
  else
    let mant := if neg then - m else m in
    Normal (scale10 mant (read_exponent r2 - Z.of_nat nf)).

(** ** Lemmas *)

Lemma digit_of_ascii_of_digit d :
  0 <= d < 10 -> digit_of_ascii (ascii_of_digit d) = Some d.
Proof.
  intros H. unfold digit_of_ascii, ascii_of_digit.
  rewrite nat_ascii_embedding by lia.
  replace ((48 <=? 48 + Z.to_nat d)%nat && (48 + Z.to_nat d <=? 57)%nat) with true
    by (symmetry; apply andb_true_iff; split; apply Nat.leb_le; lia).
  f_equal. lia.
Qed.

Lemma rev_digits_range f n : Forall (fun d => 0 <= d < 10) (rev_digits f n) \/ n < 0.
Proof.
  destruct (Z_lt_le_dec n 0) as [Hn|Hn]; [right; exact Hn | left].
  revert n Hn. induction f as [|f IH]; intros n Hn; simpl; [constructor|].
  destruct (Z.ltb_spec n 10); constructor; try lia.
  - constructor.
  - apply Z.mod_pos_bound. lia.
  - apply IH. apply Z.div_pos; lia.
Qed.

(** The digits of [n] evaluate back to [n], given enough fuel. *)
Lemma rev_digits_value f n :
  0 <= n < 10 ^ Z.of_nat f ->
  fold_left (fun a d => a * 10 + d) (rev (rev_digits f n)) 0 = n.
Proof.
  revert n. induction f as [|f IH]; intros n Hn.
  - simpl in *. lia.
  - cbn [rev_digits]. destruct (Z.ltb_spec n 10); [reflexivity|].
    cbn [rev]. rewrite fold_left_app. simpl. rewrite IH.
    + rewrite (Z.div_mod n 10) at 3 by lia. lia.
    + rewrite Nat2Z.inj_succ, Z.pow_succ_r in Hn by lia.
      split; [apply Z.div_pos; lia | apply Z.div_lt_upper_bound; lia].
Qed.

Lemma digits_of_fuel n : 0 <= n -> n < 10 ^ Z.of_nat (S (Z.to_nat (Z.log2 n))).
Proof.
  intros Hn. destruct (Z.eq_dec n 0) as [->|Hn0]; [simpl; lia|].
  assert (H2 : n < 2 ^ Z.succ (Z.log2 n)) by (apply Z.log2_spec; lia).
  rewrite Nat2Z.inj_succ, Z2Nat.id by (apply Z.log2_nonneg).
  eapply Z.lt_le_trans; [exact H2|].
  apply Z.pow_le_mono_l. split; [lia | lia].
Qed.

Lemma digits_of_value n :
  0 <= n -> fold_left (fun a d => a * 10 + d) (digits_of n) 0 = n.
Proof. intros Hn. apply rev_digits_value. split; [exact Hn | apply digits_of_fuel, Hn]. Qed.

Lemma digits_of_range n : 0 <= n -> Forall (fun d => 0 <= d < 10) (digits_of n).
Proof.
  intros Hn. unfold digits_of. apply Forall_rev.
  destruct (rev_digits_range (S (Z.to_nat (Z.log2 n))) n); [assumption | lia].
Qed.

Lemma digits_of_nonempty n : digits_of n <> [].
Proof.
  unfold digits_of. cbn [rev_digits]. destruct (n <? 10); cbn [rev]; [discriminate|].
  intros H. apply app_eq_nil in H. destruct H as [_ H]. discriminate.
Qed.

(** Reading back printed digits, up to a character that is not a digit. *)
Lemma read_digits_string_of_digits ds rest acc n :
  Forall (fun d => 0 <= d < 10) ds ->
  match rest with String c _ => digit_of_ascii c = None | EmptyString => True end ->
  read_digits (string_of_digits ds ++ rest) acc n =
  (fold_left (fun a d => a * 10 + d) ds acc, (n + List.length ds)%nat, rest).
Proof.
  intros Hds Hrest. revert acc n.
  induction Hds as [|d ds Hd Hds IH]; intros acc n.
  - cbn [string_of_digits fold_right append fold_left List.length].
    destruct rest as [|c r]; cbn [read_digits]; [now rewrite Nat.add_0_r|].
    rewrite Hrest. now rewrite Nat.add_0_r.
  - cbn [string_of_digits fold_right append fold_left List.length read_digits].
    rewrite digit_of_ascii_of_digit by exact Hd.
    change (fold_right (fun d s => String (ascii_of_digit d) s) EmptyString ds)
      with (string_of_digits ds).
    rewrite IH. f_equal. f_equal. lia.
Qed.

#[export] Hint Resolve digits_of_range digits_of_nonempty : blazing.

Lemma ascii_of_digit_cases d :
  0 <= d < 10 ->
  is_space (ascii_of_digit d) = false /\ Ascii.eqb (ascii_of_digit d) "-" = false /\
  Ascii.eqb (ascii_of_digit d) "+" = false /\ Ascii.eqb (ascii_of_digit d) "." = false.
Proof.
  intros H.
  assert (d = 0 \/ d = 1 \/ d = 2 \/ d = 3 \/ d = 4 \/ d = 5 \/ d = 6 \/ d = 7 \/ d = 8 \/ d = 9)
    as Hd by lia.
  repeat destruct Hd as [-> | Hd]; [..| subst d]; vm_compute; auto.
Qed.

Lemma string_append_empty s : (s ++ EmptyString)%string = s.
Proof. induction s as [|c s IH]; [reflexivity | cbn; now rewrite IH]. Qed.

(** Parsing the printed digits of [n >= 0] after an optional sign. *)
Lemma read_digits_digits_of n :
  0 <= n ->
  read_digits (string_of_digits (digits_of n)) 0 0 =
  (n, List.length (digits_of n), EmptyString).
Proof.
  intros Hn. rewrite <- (string_append_empty (string_of_digits _)).
  rewrite read_digits_string_of_digits; auto with blazing.
  now rewrite digits_of_value.
Qed.

(** The first character printed for [n >= 0] is a digit. *)
Lemma string_of_digits_head n :
  0 <= n -> exists d r, string_of_digits (digits_of n) = String (ascii_of_digit d) r /\ 0 <= d < 10.
Proof.
  intros Hn. pose proof (digits_of_range n Hn) as Hr.
  destruct (digits_of n) as [|d ds] eqn:E; [now destruct (digits_of_nonempty n)|].
  exists d, (string_of_digits ds). split; [reflexivity|]. now inversion Hr.
Qed.

Lemma read_sign_skip_digit d r :
  0 <= d < 10 ->
  read_sign (skip_space (String (ascii_of_digit d) r)) = (false, String (ascii_of_digit d) r).
Proof.
  intros Hd. destruct (ascii_of_digit_cases d Hd) as (Hsp & Hm & Hp & _).
  unfold skip_space. rewrite Hsp. unfold read_sign. now rewrite Hm, Hp.
Qed.

(** [std::stoi] reads back what [std::to_string] prints, on every [int]. *)
Lemma stoi_to_string z : in_int_range z = true -> stoi (to_string z) = Normal z.
Proof.
  intros Hz. unfold stoi, to_string.
  destruct (Z.ltb_spec z 0) as [Hneg|Hpos].
  - replace (read_sign (skip_space (String "-" (string_of_digits (digits_of (- z))))))
      with (true, string_of_digits (digits_of (- z))) by reflexivity.
    rewrite read_digits_digits_of by lia.
    destruct (List.length (digits_of (- z))) eqn:E;
      [apply length_zero_iff_nil in E; now destruct (digits_of_nonempty (- z))|].
    rewrite Z.opp_involutive, Hz. reflexivity.
  - destruct (string_of_digits_head z Hpos) as (d & r & Hs & Hd).
    rewrite Hs, read_sign_skip_digit, <- Hs by exact Hd.
    rewrite read_digits_digits_of by exact Hpos.
    destruct (List.length (digits_of z)) eqn:E;
      [apply length_zero_iff_nil in E; now destruct (digits_of_nonempty z)|].
    rewrite Hz. reflexivity.
Qed.

(** Every value [std::stoi] returns fits an [int]. *)
Lemma stoi_in_range s z : stoi s = Normal z -> in_int_range z = true.
Proof.
  unfold stoi. destruct (read_sign (skip_space s)) as [neg s1].
  destruct (read_digits s1 0 0) as [[v [|n]] r]; [discriminate|].
  destruct (in_int_range (if neg then - v else v)) eqn:E; [|discriminate].
  intros H. inv H. exact E.
Qed.

Example stoi_prefix : stoi " 42abc" = Normal 42.
Proof. reflexivity. Qed.

Example stoi_empty : stoi "" = Raised (CppException InvalidArgument "stoi").
Proof. reflexivity. Qed.

Example stoi_overflow : stoi "3000000000" = Raised (CppException OutOfRange "stoi").
Proof. reflexivity. Qed.

Example stof_decimal : stof "0.95" = Normal (95 # 100)%Q.
Proof. reflexivity. Qed.

(** No character printed by [to_string] is ['/']. *)
Definition no_slash (s : string) : bool :=
  forallb (fun c => negb (Ascii.eqb c "/")) (list_ascii_of_string s).

Lemma no_slash_cons c s : no_slash (String c s) = negb (Ascii.eqb c "/") && no_slash s.
Proof. reflexivity. Qed.

Lemma no_slash_append s1 s2 : no_slash (s1 ++ s2) = no_slash s1 && no_slash s2.
Proof.
  induction s1 as [|c s1 IH]; [reflexivity|]. cbn. unfold no_slash in IH. rewrite IH.
  apply andb_assoc.
Qed.

Lemma no_slash_digits ds : Forall (fun d => 0 <= d < 10) ds -> no_slash (string_of_digits ds) = true.
Proof.
  induction 1 as [|d ds Hd _ IH]; [reflexivity|].
  change (string_of_digits (d :: ds)) with (String (ascii_of_digit d) (string_of_digits ds)).
  rewrite no_slash_cons, IH, andb_true_r.
  assert (d = 0 \/ d = 1 \/ d = 2 \/ d = 3 \/ d = 4 \/ d = 5 \/ d = 6 \/ d = 7 \/ d = 8 \/ d = 9)
    as Hc by lia.
  repeat destruct Hc as [-> | Hc]; [..| subst d]; reflexivity.
Qed.

Lemma to_string_no_slash z : no_slash (to_string z) = true.
Proof.
  unfold to_string. destruct (Z.ltb_spec z 0).
  - change (no_slash (String "-" (string_of_digits (digits_of (- z)))))
      with (no_slash (string_of_digits (digits_of (- z)))).
    apply no_slash_digits, digits_of_range. lia.
  - apply no_slash_digits, digits_of_range. lia.
Qed.

#[export] Hint Rewrite no_slash_append to_string_no_slash : blazing_rw.

Lemma string_app_assoc (a b c : string) : ((a ++ b) ++ c)%string = (a ++ b ++ c)%string.
Proof. induction a as [|x a IH]; [reflexivity | cbn; now rewrite IH]. Qed.
