(* ===== verification/StdMap.v ===== *)
(** * [std::map<std::string, std::string>]

    A [std::map] is a sorted associative container: its iteration order
    is the order of its keys under [std::string]'s [operator<], the
    lexicographic order on characters compared as [unsigned char].  It is
    modelled as an association list whose keys are strictly increasing;
    [find], the [operator[]] that inserts a value-initialized (empty)
    string for a missing key, and [insert_or_assign] are written over it,
    and every one keeps the keys strictly increasing. *)

From Stdlib Require Import List String Ascii Bool Arith Lia Sorted.
From S2P Require Import Prelude.
Import ListNotations.

Module StdMap.

(** [std::char_traits<char>::lt]: characters compared as unsigned. *)
Definition char_ltb (a b : ascii) : bool := (nat_of_ascii a <? nat_of_ascii b)%nat.

(** [operator<] on [std::string]. *)
Fixpoint str_ltb (a b : string) : bool :=
  match a, b with
  | EmptyString, String _ _ => true
  | String x a', String y b' =>
      if Ascii.eqb x y then str_ltb a' b' else char_ltb x y
  | _, _ => false
  end.

Definition t : Type := list (string * string).

Definition empty : t := [].

Fixpoint find (k : string) (m : t) : option string :=
  match m with
  | [] => None
  | (k', v) :: m' => if String.eqb k k' then Some v else find k m'
  end.

(** [m.insert_or_assign(k, v)], i.e. [m[k] = v]. *)
Fixpoint insert_or_assign (k v : string) (m : t) : t :=
  match m with
  | [] => [(k, v)]
  | (k', v') :: m' =>
      if String.eqb k k' then (k, v) :: m'
      else if str_ltb k k' then (k, v) :: m
      else (k', v') :: insert_or_assign k v m'
  end.

(** [m[k]] as an rvalue: the value, and the map, which gained the entry
    [(k, "")] when [k] was missing. *)
Definition subscript (k : string) (m : t) : string * t :=
  match find k m with
  | Some v => (v, m)
  | None => (EmptyString, insert_or_assign k EmptyString m)
  end.

Definition key_lt (a b : string * string) : Prop := str_ltb (fst a) (fst b) = true.

(** The class invariant: keys strictly increasing. *)
Definition wf (m : t) : Prop := Sorted key_lt m.

(** ** The order on strings is a strict total order *)

Lemma char_ltb_irrefl a : char_ltb a a = false.
Proof. apply Nat.ltb_irrefl. Qed.

Lemma char_ltb_trans a b c : char_ltb a b = true -> char_ltb b c = true -> char_ltb a c = true.
Proof. unfold char_ltb. rewrite !Nat.ltb_lt. lia. Qed.

Lemma char_ltb_total a b : a <> b -> char_ltb a b = false -> char_ltb b a = true.
Proof.
  unfold char_ltb. rewrite Nat.ltb_ge, Nat.ltb_lt. intros Hne Hge.
  destruct (Nat.eq_dec (nat_of_ascii a) (nat_of_ascii b)) as [E|E]; [|lia].
  exfalso. apply Hne. rewrite <- (ascii_nat_embedding a), <- (ascii_nat_embedding b).
  now rewrite E.
Qed.

Lemma str_ltb_irrefl s : str_ltb s s = false.
Proof. induction s as [|c s IH]; [reflexivity|]. cbn. now rewrite Ascii.eqb_refl. Qed.

Lemma str_ltb_trans a b c : str_ltb a b = true -> str_ltb b c = true -> str_ltb a c = true.
Proof.
  revert b c. induction a as [|x a IH]; intros [|y b] [|z c]; cbn; try discriminate; auto.
  destruct (Ascii.eqb_spec x y), (Ascii.eqb_spec y z), (Ascii.eqb_spec x z);
    subst; intros H1 H2; try solve [eauto using char_ltb_trans | congruence].
  pose proof (char_ltb_trans _ _ _ H1 H2) as H. rewrite char_ltb_irrefl in H. discriminate.
Qed.

Lemma str_ltb_total a b : a <> b -> str_ltb a b = false -> str_ltb b a = true.
Proof.
  revert b. induction a as [|x a IH]; intros [|y b]; cbn; try congruence.
  destruct (Ascii.eqb_spec x y) as [->|Hxy]; rewrite ?Ascii.eqb_refl.
  - intros Hne H. apply IH; congruence.
  - destruct (Ascii.eqb_spec y x); [congruence|]. intros _. now apply char_ltb_total.
Qed.

(** ** The operations *)

Lemma find_insert_eq k v m : find k (insert_or_assign k v m) = Some v.
Proof.
  induction m as [|[k' v'] m IH]; cbn; [now rewrite String.eqb_refl|].
  destruct (String.eqb_spec k k'); [cbn; now rewrite String.eqb_refl|].
  destruct (str_ltb k k'); cbn; rewrite ?String.eqb_refl; [reflexivity|].
  destruct (String.eqb_spec k k'); [contradiction | exact IH].
Qed.

Lemma find_insert_ne k k2 v m :
  k <> k2 -> find k2 (insert_or_assign k v m) = find k2 m.
Proof.
  intros Hne. induction m as [|[k' v'] m IH]; cbn.
  - destruct (String.eqb_spec k2 k); congruence.
  - destruct (String.eqb_spec k k') as [->|Hk]; cbn.
    + destruct (String.eqb_spec k2 k'); congruence.
    + destruct (str_ltb k k'); cbn.
      * destruct (String.eqb_spec k2 k); [congruence | reflexivity].
      * now rewrite IH.
Qed.

Lemma subscript_found k m v : find k m = Some v -> subscript k m = (v, m).
Proof. unfold subscript. now intros ->. Qed.

Lemma subscript_missing k m :
  find k m = None -> subscript k m = (EmptyString, insert_or_assign k EmptyString m).
Proof. unfold subscript. now intros ->. Qed.

Lemma hdrel_insert k v m k0 v0 :
  str_ltb k0 k = true ->
  HdRel key_lt (k0, v0) m ->
  HdRel key_lt (k0, v0) (insert_or_assign k v m).
Proof.
  intros Hlt Hd. destruct m as [|[k' v'] m]; cbn; [now constructor|].
  inv Hd. destruct (String.eqb k k'), (str_ltb k k'); now constructor.
Qed.

Lemma hdrel_same_key k v v' m :
  HdRel key_lt (k, v) m ->
  HdRel key_lt (k, v') m.
Proof. intros H. inv H; now constructor. Qed.

(** [insert_or_assign] keeps the keys strictly increasing. *)
Lemma insert_wf k v m : wf m -> wf (insert_or_assign k v m).
Proof.
  unfold wf. induction m as [|[k' v'] m IH]; intros H; cbn; [now repeat constructor|].
  apply Sorted_inv in H as [Hs Hd].
  destruct (String.eqb_spec k k') as [->|Hne].
  - constructor; [exact Hs | eapply hdrel_same_key; exact Hd].
  - destruct (str_ltb k k') eqn:L.
    + constructor; [now constructor | now constructor].
    + constructor; [now apply IH|]. apply hdrel_insert; [|exact Hd].
      apply str_ltb_total; congruence.
Qed.

(** [m[k]] keeps the keys strictly increasing. *)
Lemma subscript_wf k m : wf m -> wf (snd (subscript k m)).
Proof. unfold subscript. destruct (find k m); cbn; auto using insert_wf. Qed.

(** A map built by successive [m[k] = v] from an initializer list. *)
Definition of_list (l : list (string * string)) : t :=
  fold_left (fun m kv => insert_or_assign (fst kv) (snd kv) m) l empty.

Lemma of_list_wf l : wf (of_list l).
Proof.
  unfold of_list. assert (H : wf empty) by constructor. revert H.
  generalize empty. induction l as [|[k v] l IH]; intros m Hm; cbn; auto using insert_wf.
Qed.

#[export] Hint Resolve insert_wf subscript_wf of_list_wf : blazing.

End StdMap.
