(* ===== verification/World.v ===== *)
(** * The process state touched by the start-up code

    The data of the spdlog library as [initialize.cpp] uses it (levels,
    pattern strings, sinks, loggers), the calls into the external
    collaborators (allocator, transport buffers, host memory, the
    communication layer), and the [World] record: the file system (which
    directories exist, which files exist with the lines written to them),
    the environment, the network interfaces, the product details, the
    device memory resource, the spdlog registry and global settings, the
    standard output, and the ordered trace of external calls. *)

From Stdlib Require Import ZArith List String Ascii Bool QArith Lia.
From S2P Require Import Prelude CppStd StdMap.
Import ListNotations.

Local Open Scope Z_scope.

(** ** spdlog data *)

(** [spdlog::level::level_enum], in its numeric order. *)
Inductive level : Type := trace | debug | info | warn | err | critical | off.

Definition level_rank (l : level) : Z :=
  match l with
  | trace => 0 | debug => 1 | info => 2 | warn => 3 | err => 4 | critical => 5 | off => 6
  end.

(** [spdlog::level::to_string_view]: the names printed by [%l]. *)
Definition level_name (l : level) : string :=
  match l with
  | trace => "trace" | debug => "debug" | info => "info" | warn => "warning"
  | err => "error" | critical => "critical" | off => "off"
  end.

Definition level_eqb (a b : level) : bool := (level_rank a =? level_rank b)%Z.

(** The wall clock read by the pattern flags [%Y %m %d %T %e]. *)
Record timestamp : Type := mkTimestamp {
  ts_year : Z; ts_month : Z; ts_day : Z;
  ts_hour : Z; ts_min : Z; ts_sec : Z; ts_msec : Z
}.

(** Where a sink writes. *)
Inductive target : Type :=
| StdoutTarget                                        (** [stdout_color_sink_mt] *)
| RotatingFile (path : string) (max_size max_files : Z). (** [rotating_file_sink_mt] *)

Record sink : Type := mkSink {
  sk_target : target;
  sk_pattern : string;
  sk_level : level
}.

(** An [spdlog::async_logger] with its sinks. *)
Record logger : Type := mkLogger {
  lg_name : string;
  lg_sinks : list sink;
  lg_level : level
}.

(** ** Calls into external collaborators *)

Inductive locale_category : Type := LC_ALL | LC_NUMERIC.

Inductive event : Type :=
| EvRMMInitialize (mode : string) (initial_pool maximum_pool : Z) (logfile : string) (threshold : Q)
| EvSetLocale (cat : locale_category) (name : string)
| EvSetPinnedBufferProvider (buffers_size : Z) (num_buffers : Z)
| EvHostMemoryInitialize (quota : Q)
| EvCommunicationInitialize (ral_id : Z) (orch_ip : string) (orch_port : Z)
    (self_ip : string) (self_port : Z) (protocol_port : Z)
| EvServerStart (port : Z) (use_pool : bool)
| EvServerClose
| EvInitExternalSystems
| EvClientCloseConnections
| EvRMMFinalize
| EvCudaDeviceReset.

(** [blazing_device_memory_resource]: what [getFreeMemory] and the
    allocation report read. *)
Record device_resource : Type := mkDevice {
  dev_total : Z;
  dev_limit : Z;
  dev_used : Z;
  dev_type : string
}.

(** ** The world *)

Record World : Type := mkWorld {
  w_dirs : list string;                    (** existing, writable directories *)
  w_files : list (string * list string);   (** existing files, their lines in order *)
  w_env : list (string * string);          (** environment variables *)
  w_ifaces : list (string * list Z);       (** IPv4 address of each interface *)
  w_ifaddr_garbage : list Z;               (** [ifr_addr] when [SIOCGIFADDR] fails *)
  w_product : StdMap.t;                    (** [getProductDetails()] *)
  w_device : device_resource;
  w_clock : timestamp;
  w_loggers : list (string * logger);      (** the spdlog registry *)
  w_thread_pool : option (Z * Z);          (** queue size, threads *)
  w_flush_level : level;                   (** [spdlog::flush_on] *)
  w_flush_every : option Z;                (** [spdlog::flush_every], seconds *)
  w_stdout : list string;
  w_events : list event                    (** external calls, oldest first *)
}.

Definition set_files (w : World) fs : World :=
  mkWorld (w_dirs w) fs (w_env w) (w_ifaces w) (w_ifaddr_garbage w) (w_product w)
    (w_device w) (w_clock w) (w_loggers w) (w_thread_pool w) (w_flush_level w)
    (w_flush_every w) (w_stdout w) (w_events w).

Definition set_loggers (w : World) ls : World :=
  mkWorld (w_dirs w) (w_files w) (w_env w) (w_ifaces w) (w_ifaddr_garbage w) (w_product w)
    (w_device w) (w_clock w) ls (w_thread_pool w) (w_flush_level w)
    (w_flush_every w) (w_stdout w) (w_events w).

Definition set_thread_pool (w : World) tp : World :=
  mkWorld (w_dirs w) (w_files w) (w_env w) (w_ifaces w) (w_ifaddr_garbage w) (w_product w)
    (w_device w) (w_clock w) (w_loggers w) tp (w_flush_level w)
    (w_flush_every w) (w_stdout w) (w_events w).

Definition set_flush (w : World) fl fe : World :=
  mkWorld (w_dirs w) (w_files w) (w_env w) (w_ifaces w) (w_ifaddr_garbage w) (w_product w)
    (w_device w) (w_clock w) (w_loggers w) (w_thread_pool w) fl fe (w_stdout w) (w_events w).

Definition set_stdout (w : World) o : World :=
  mkWorld (w_dirs w) (w_files w) (w_env w) (w_ifaces w) (w_ifaddr_garbage w) (w_product w)
    (w_device w) (w_clock w) (w_loggers w) (w_thread_pool w) (w_flush_level w)
    (w_flush_every w) o (w_events w).

Definition set_events (w : World) es : World :=
  mkWorld (w_dirs w) (w_files w) (w_env w) (w_ifaces w) (w_ifaddr_garbage w) (w_product w)
    (w_device w) (w_clock w) (w_loggers w) (w_thread_pool w) (w_flush_level w)
    (w_flush_every w) (w_stdout w) es.

(** A call into an external collaborator, appended to the trace. *)
Definition emit (e : event) : M World unit :=
  modify (fun w => set_events w (w_events w ++ [e])).

(** ** Association lists keyed by strings *)

Fixpoint assoc {A} (k : string) (l : list (string * A)) : option A :=
  match l with
  | [] => None
  | (k', v) :: l' => if String.eqb k k' then Some v else assoc k l'
  end.

(** Replace the entry of [k], or add it at the end. *)
Fixpoint assoc_set {A} (k : string) (v : A) (l : list (string * A)) : list (string * A) :=
  match l with
  | [] => [(k, v)]
  | (k', v') :: l' => if String.eqb k k' then (k, v) :: l' else (k', v') :: assoc_set k v l'
  end.

Lemma assoc_set_eq {A} k (v : A) l : assoc k (assoc_set k v l) = Some v.
Proof.
  induction l as [|[k' v'] l IH]; cbn; [now rewrite String.eqb_refl|].
  destruct (String.eqb_spec k k'); cbn; [now rewrite String.eqb_refl|].
  destruct (String.eqb_spec k k'); [contradiction | exact IH].
Qed.

Lemma assoc_set_ne {A} k k2 (v : A) l : k <> k2 -> assoc k2 (assoc_set k v l) = assoc k2 l.
Proof.
  intros Hne. induction l as [|[k' v'] l IH]; cbn.
  - destruct (String.eqb_spec k2 k); congruence.
  - destruct (String.eqb_spec k k') as [->|Hk]; cbn.
    + destruct (String.eqb_spec k2 k'); congruence.
    + now rewrite IH.
Qed.

#[export] Hint Rewrite @assoc_set_eq : blazing_rw.

(** ** The file system *)

(** The directory part of a path, as [dirname(3)] computes it for the
    paths the code builds: up to the last ['/'], ["/"] when that is the
    first character, ["."] when there is none. *)
Fixpoint last_slash (s : string) (i : nat) (found : option nat) : option nat :=
  match s with
  | EmptyString => found
  | String c r => last_slash r (S i) (if Ascii.eqb c "/" then Some i else found)
  end.

Definition dirname (p : string) : string :=
  match last_slash p 0 None with
  | None => "."
  | Some O => "/"
  | Some i => substring 0 i p
  end.

Definition dir_exists (w : World) (d : string) : bool :=
  existsb (String.eqb d) (w_dirs w).

(** [std::ifstream(f).good()]. *)
Definition file_exists (w : World) (f : string) : bool :=
  match assoc f (w_files w) with Some _ => true | None => false end.

Definition file_lines (w : World) (f : string) : option (list string) := assoc f (w_files w).

(** [fopen(f, "ab")]: keeps an existing file, creates a missing one when
    its directory exists, fails otherwise. *)
Definition open_append (f : string) : M World bool :=
  fun w =>
    if file_exists w f then (Normal true, w)
    else if dir_exists w (dirname f) then (Normal true, set_files w (w_files w ++ [(f, [])]))
    else (Normal false, w).

Definition append_line (f : string) (l : string) : M World unit :=
  modify (fun w =>
    match file_lines w f with
    | Some ls => set_files w (assoc_set f (ls ++ [l]) (w_files w))
    | None => w
    end).

Definition print_line (l : string) : M World unit :=
  modify (fun w => set_stdout w (w_stdout w ++ [l])).

Example dirname_relative : dirname "blazing_log/RAL.0.log" = "blazing_log"%string.
Proof. reflexivity. Qed.

Example dirname_root : dirname "/RAL.0.log" = "/"%string.
Proof. reflexivity. Qed.

Lemma last_slash_append s1 s2 i acc :
  last_slash (s1 ++ s2) i acc = last_slash s2 (i + String.length s1) (last_slash s1 i acc).
Proof.
  revert i acc. induction s1 as [|c s1 IH]; intros i acc; cbn.
  - now rewrite Nat.add_0_r.
  - rewrite IH. f_equal. lia.
Qed.

Lemma last_slash_no_slash s i acc : no_slash s = true -> last_slash s i acc = acc.
Proof.
  revert i acc. induction s as [|c s IH]; intros i acc H; [reflexivity|].
  cbn in H |- *. apply andb_true_iff in H as [Hc Hs].
  destruct (Ascii.eqb c "/"); [discriminate|]. apply IH, Hs.
Qed.

Lemma substring_append_prefix s1 s2 : substring 0 (String.length s1) (s1 ++ s2) = s1.
Proof.
  induction s1 as [|c s1 IH]; cbn; [now destruct s2 | now rewrite IH].
Qed.

(** The directory of [dir + "/" + name] when [name] has no ['/']: the
    root when [dir] is empty. *)
Lemma dirname_under d name :
  no_slash name = true ->
  dirname (d ++ "/" ++ name) = match d with EmptyString => "/"%string | _ => d end.
Proof.
  intros Hn. unfold dirname. rewrite last_slash_append.
  replace (last_slash ("/" ++ name) (0 + String.length d) (last_slash d 0 None))
    with (Some (String.length d)).
  2: { cbn [append last_slash]. rewrite Ascii.eqb_refl.
       symmetry. apply last_slash_no_slash, Hn. }
  destruct d as [|c d]; [reflexivity|].
  exact (substring_append_prefix (String c d) ("/" ++ name)).
Qed.
