(* ===== verification/Spdlog.v ===== *)
(** * The spdlog operations the start-up code calls

    Pattern formatting ([%v %l %^ %$ %Y %m %d %T %e]), logging through a
    logger (the logger's level, then each sink's level, decide whether a
    message is written), the rotating file sink's constructor (its
    argument checks and the opening of its file), the registry
    ([register_logger] refuses a name already registered, [get],
    [shutdown] drops every logger and the thread pool) and the global
    flush settings.  An async logger whose thread pool is gone drops the
    message: spdlog catches the error inside [logger::log]. *)

From Stdlib Require Import ZArith List String Ascii Bool Lia.
From S2P Require Import Prelude CppStd World.
Import ListNotations.

Local Open Scope Z_scope.
Local Open Scope cpp_scope.

(** ** Pattern formatting *)

(** [n] printed in decimal, left-padded with zeros to [width]. *)
Definition pad (width : nat) (n : Z) : string :=
  let s := to_string n in
  (String.concat "" (repeat "0"%string (width - String.length s)) ++ s)%string.

Definition flag_text (f : ascii) (lvl : level) (msg : string) (ts : timestamp) : string :=
  if Ascii.eqb f "v" then msg
  else if Ascii.eqb f "l" then level_name lvl
  else if Ascii.eqb f "^" || Ascii.eqb f "$" then EmptyString
  else if Ascii.eqb f "Y" then pad 4 (ts_year ts)
  else if Ascii.eqb f "m" then pad 2 (ts_month ts)
  else if Ascii.eqb f "d" then pad 2 (ts_day ts)
  else if Ascii.eqb f "T" then
    (pad 2 (ts_hour ts) ++ ":" ++ pad 2 (ts_min ts) ++ ":" ++ pad 2 (ts_sec ts))%string
  else if Ascii.eqb f "e" then pad 3 (ts_msec ts)
  else String "%" (String f EmptyString).

Fixpoint format_pattern (p : string) (lvl : level) (msg : string) (ts : timestamp) : string :=
  match p with
  | EmptyString => EmptyString
  | String c r =>
      if Ascii.eqb c "%" then
        match r with
        | String f r' => (flag_text f lvl msg ts ++ format_pattern r' lvl msg ts)%string
        | EmptyString => String c EmptyString
        end
      else String c (format_pattern r lvl msg ts)
  end.

(** ** Sinks and loggers *)

Definition should_log (threshold lvl : level) : bool := level_rank threshold <=? level_rank lvl.

Definition sink_log (s : sink) (lvl : level) (msg : string) : M World unit :=
  if should_log (sk_level s) lvl then
    w <- get ;;
    let l := format_pattern (sk_pattern s) lvl msg (w_clock w) in
    match sk_target s with
    | StdoutTarget => print_line l
    | RotatingFile p _ _ => append_line p l
    end
  else ret tt.

Fixpoint sinks_log (ss : list sink) (lvl : level) (msg : string) : M World unit :=
  match ss with
  | [] => ret tt
  | s :: ss' => sink_log s lvl msg ;; sinks_log ss' lvl msg
  end.

(** [logger->log(lvl, msg)] on an async logger. *)
Definition logger_log (lg : logger) (lvl : level) (msg : string) : M World unit :=
  if should_log (lg_level lg) lvl then
    w <- get ;;
    match w_thread_pool w with
    | Some _ => sinks_log (lg_sinks lg) lvl msg
    | None => ret tt
    end
  else ret tt.

Definition set_sink_pattern (s : sink) (p : string) : sink := mkSink (sk_target s) p (sk_level s).
Definition set_sink_level (s : sink) (l : level) : sink := mkSink (sk_target s) (sk_pattern s) l.

(** The constructor of [rotating_file_sink_mt]. *)
Definition make_rotating_sink (path : string) (max_size max_files : Z) : M World sink :=
  if max_size =? 0 then
    raise (CppException SpdlogEx "rotating sink constructor: max_size arg cannot be zero")
  else if 200000 <? max_files then
    raise (CppException SpdlogEx "rotating sink constructor: max_files arg cannot exceed 200000")
  else
    ok <- open_append path ;;
    if ok then ret (mkSink (RotatingFile path max_size max_files) "%+" trace)
    else raise (CppException SpdlogEx ("Failed opening file " ++ path ++ " for writing")).

(** ** The registry *)

Definition register_logger (lg : logger) : M World unit :=
  w <- get ;;
  match assoc (lg_name lg) (w_loggers w) with
  | Some _ =>
      raise (CppException SpdlogEx ("logger with name '" ++ lg_name lg ++ "' already exists"))
  | None => modify (fun w => set_loggers w (w_loggers w ++ [(lg_name lg, lg)]))
  end.

Definition get_logger (name : string) : M World (option logger) :=
  w <- get ;; ret (assoc name (w_loggers w)).

Definition flush_on (l : level) : M World unit :=
  modify (fun w => set_flush w l (w_flush_every w)).

Definition flush_every (secs : Z) : M World unit :=
  modify (fun w => set_flush w (w_flush_level w) (Some secs)).

Definition shutdown : M World unit :=
  modify (fun w => set_flush (set_thread_pool (set_loggers w []) None) (w_flush_level w) None).

Definition init_thread_pool (q_size threads : Z) : M World unit :=
  modify (fun w => set_thread_pool w (Some (q_size, threads))).

Example format_stamped :
  format_pattern "%Y-%m-%d %T.%e|7|%^%l%$|%v" info "hello" (mkTimestamp 2020 3 9 8 5 30 42)
  = "2020-03-09 08:05:30.042|7|info|hello"%string.
Proof. reflexivity. Qed.

(** ** Logging only writes lines

    A logging call changes nothing but the contents of existing files and
    the standard output. *)

Definition core (w : World) :=
  (w_dirs w, w_env w, w_ifaces w, w_ifaddr_garbage w, w_product w, w_device w, w_clock w,
   w_loggers w, w_thread_pool w, w_flush_level w, w_flush_every w, w_events w).

Definition log_frame (w w' : World) : Prop :=
  core w' = core w /\ forall f, file_exists w' f = file_exists w f.

Lemma log_frame_refl w : log_frame w w.
Proof. split; reflexivity. Qed.

Lemma log_frame_trans w1 w2 w3 : log_frame w1 w2 -> log_frame w2 w3 -> log_frame w1 w3.
Proof. intros [C1 F1] [C2 F2]. split; [congruence | intros f; now rewrite F2, F1]. Qed.

Lemma file_exists_assoc_set w f ls ls' g :
  assoc f (w_files w) = Some ls ->
  file_exists (set_files w (assoc_set f ls' (w_files w))) g = file_exists w g.
Proof.
  intros H. unfold file_exists. cbn.
  destruct (String.eqb_spec f g) as [<-|Hne].
  - now rewrite assoc_set_eq, H.
  - now rewrite assoc_set_ne.
Qed.

Lemma append_line_frame f l w : exists w', append_line f l w = (Normal tt, w') /\ log_frame w w'.
Proof.
  unfold append_line, modify, file_lines. destruct (assoc f (w_files w)) as [ls|] eqn:E.
  - eexists; split; [reflexivity|]. split; [reflexivity|]. intros g.
    now apply file_exists_assoc_set with (ls := ls).
  - eexists; split; [reflexivity | apply log_frame_refl].
Qed.

Lemma print_line_frame l w : exists w', print_line l w = (Normal tt, w') /\ log_frame w w'.
Proof. eexists; split; [reflexivity|]. split; reflexivity. Qed.

Lemma sink_log_frame s lvl msg w :
  exists w', sink_log s lvl msg w = (Normal tt, w') /\ log_frame w w'.
Proof.
  unfold sink_log. destruct (should_log (sk_level s) lvl).
  - unfold bind, get. destruct (sk_target s); [apply print_line_frame | apply append_line_frame].
  - eexists; split; [reflexivity | apply log_frame_refl].
Qed.

Lemma sinks_log_frame ss lvl msg w :
  exists w', sinks_log ss lvl msg w = (Normal tt, w') /\ log_frame w w'.
Proof.
  revert w. induction ss as [|s ss IH]; intros w; cbn.
  - eexists; split; [reflexivity | apply log_frame_refl].
  - destruct (sink_log_frame s lvl msg w) as (w1 & E1 & F1).
    destruct (IH w1) as (w2 & E2 & F2).
    exists w2. split; [unfold bind; now rewrite E1, E2 | eapply log_frame_trans; eauto].
Qed.

Lemma logger_log_frame lg lvl msg w :
  exists w', logger_log lg lvl msg w = (Normal tt, w') /\ log_frame w w'.
Proof.
  unfold logger_log. destruct (should_log (lg_level lg) lvl).
  - unfold bind, get. destruct (w_thread_pool w); [apply sinks_log_frame|].
    eexists; split; [reflexivity | apply log_frame_refl].
  - eexists; split; [reflexivity | apply log_frame_refl].
Qed.

Lemma log_frame_loggers w w' : log_frame w w' -> w_loggers w' = w_loggers w.
Proof. intros [C _]. unfold core in C. congruence. Qed.

Lemma log_frame_events w w' : log_frame w w' -> w_events w' = w_events w.
Proof. intros [C _]. unfold core in C. congruence. Qed.

Lemma log_frame_thread_pool w w' : log_frame w w' -> w_thread_pool w' = w_thread_pool w.
Proof. intros [C _]. unfold core in C. congruence. Qed.

#[export] Hint Resolve log_frame_refl log_frame_trans : blazing.
