(* ===== verification/Logging.v ===== *)
(** * The logging set-up of [initialize.cpp]

    [log_level_str_to_enum] (lines 66-88) and [create_logger] (lines
    91-125), over the spdlog model of [Spdlog].  A logger gets two
    sinks: standard output at level [err] and a rotating file at level
    [trace] whose pattern is the bare message (simple log) or a
    timestamp, the RAL id and the level before it. *)

From Stdlib Require Import ZArith List String Ascii Bool Lia.
From S2P Require Import Prelude CppStd World Spdlog.
Import ListNotations.

Local Open Scope Z_scope.
Local Open Scope cpp_scope.

Module Logging.

(** ** [log_level_str_to_enum] *)

Definition log_level_str_to_enum (level : string) : World.level :=
  if String.eqb level "critical" then critical
  else if String.eqb level "err" then err
  else if String.eqb level "info" then info
  else if String.eqb level "debug" then debug
  else if String.eqb level "trace" then trace
  else if String.eqb level "warn" then warn
  else off.

(** The spellings [log_level_str_to_enum] accepts, per level. *)
Definition accepted_name (l : World.level) : option string :=
  match l with
  | critical => Some "critical"%string | err => Some "err"%string | info => Some "info"%string
  | debug => Some "debug"%string | trace => Some "trace"%string | warn => Some "warn"%string
  | off => None
  end.

(** ** [create_logger] *)

Definition stdout_pattern : string := "[%T.%e] [%^%l%$] %v".

Definition rotating_pattern (ralId : Z) (simple_log : bool) : string :=
  if simple_log then "%v"
  else ("%Y-%m-%d %T.%e|" ++ to_string ralId ++ "|%^%l%$|%v")%string.

Definition create_logger (fileName loggingName : string) (ralId : Z)
    (flush_level logger_level_wanted : string) (max_size_logging : Z) (simple_log : bool)
    : M World unit :=
  let stdout_sink := mkSink StdoutTarget stdout_pattern err in
  let max_num_files := 0 in
  rotating_sink <- make_rotating_sink fileName max_size_logging max_num_files ;;
  let rotating_sink := set_sink_pattern rotating_sink (rotating_pattern ralId simple_log) in
  let rotating_sink := set_sink_level rotating_sink trace in
  let logger := mkLogger loggingName [stdout_sink; rotating_sink]
                  (log_level_str_to_enum logger_level_wanted) in
  register_logger logger ;;
  flush_on (log_level_str_to_enum flush_level) ;;
  flush_every 1.

(** The logger [create_logger] registers. *)
Definition created_logger (fileName loggingName : string) (ralId : Z)
    (logger_level_wanted : string) (max_size_logging : Z) (simple_log : bool) : logger :=
  mkLogger loggingName
    [mkSink StdoutTarget stdout_pattern err;
     mkSink (RotatingFile fileName max_size_logging 0) (rotating_pattern ralId simple_log) trace]
    (log_level_str_to_enum logger_level_wanted).

(** The world once [fopen(f, "ab")] succeeded. *)
Definition opened (w : World) (f : string) : World :=
  if file_exists w f then w else set_files w (w_files w ++ [(f, [])]).

(** ** Lemmas *)

Lemma make_rotating_sink_ok w p ms mf :
  ms <> 0 -> mf <= 200000 -> (file_exists w p || dir_exists w (dirname p)) = true ->
  make_rotating_sink p ms mf w = (Normal (mkSink (RotatingFile p ms mf) "%+" trace), opened w p).
Proof.
  intros Hms Hmf Hopen. unfold make_rotating_sink, opened.
  rewrite (proj2 (Z.eqb_neq _ _) Hms), (proj2 (Z.ltb_ge _ _) Hmf).
  unfold bind, open_append.
  destruct (file_exists w p); [reflexivity|]. cbn in Hopen. now rewrite Hopen.
Qed.

Lemma make_rotating_sink_fail w p ms mf :
  ms <> 0 -> mf <= 200000 -> (file_exists w p || dir_exists w (dirname p)) = false ->
  make_rotating_sink p ms mf w =
  (Raised (CppException SpdlogEx ("Failed opening file " ++ p ++ " for writing")), w).
Proof.
  intros Hms Hmf Hopen. unfold make_rotating_sink.
  rewrite (proj2 (Z.eqb_neq _ _) Hms), (proj2 (Z.ltb_ge _ _) Hmf).
  apply orb_false_iff in Hopen as [Hf Hd].
  unfold bind, open_append. now rewrite Hf, Hd.
Qed.

(** The world after a successful [create_logger]. *)
Definition after_create (w : World) (fileName : string) (lg : logger) (flush_level : string) : World :=
  let w1 := opened w fileName in
  set_flush (set_loggers w1 (w_loggers w1 ++ [(lg_name lg, lg)]))
    (log_level_str_to_enum flush_level) (Some 1).

Lemma opened_loggers w f : w_loggers (opened w f) = w_loggers w.
Proof. unfold opened. now destruct (file_exists w f). Qed.

Lemma create_logger_ok w fileName loggingName ralId fl lw ms simple :
  ms <> 0 -> (file_exists w fileName || dir_exists w (dirname fileName)) = true ->
  assoc loggingName (w_loggers w) = None ->
  create_logger fileName loggingName ralId fl lw ms simple w =
  (Normal tt, after_create w fileName (created_logger fileName loggingName ralId lw ms simple) fl).
Proof.
  intros Hms Hopen Hfree. unfold create_logger.
  step_with (make_rotating_sink_ok w fileName ms 0 Hms ltac:(lia) Hopen).
  unfold register_logger, bind, get, modify, flush_on, flush_every. cbn.
  rewrite opened_loggers, Hfree. reflexivity.
Qed.

Lemma create_logger_open_fail w fileName loggingName ralId fl lw ms simple :
  ms <> 0 -> (file_exists w fileName || dir_exists w (dirname fileName)) = false ->
  create_logger fileName loggingName ralId fl lw ms simple w =
  (Raised (CppException SpdlogEx ("Failed opening file " ++ fileName ++ " for writing")), w).
Proof.
  intros Hms Hopen. unfold create_logger.
  step_with (make_rotating_sink_fail w fileName ms 0 Hms ltac:(lia) Hopen). reflexivity.
Qed.

(** The six branches of [log_level_str_to_enum], as one case analysis. *)
Lemma log_level_str_to_enum_cases s :
  (s = "critical"%string /\ log_level_str_to_enum s = critical) \/
  (s = "err"%string /\ log_level_str_to_enum s = err) \/
  (s = "info"%string /\ log_level_str_to_enum s = info) \/
  (s = "debug"%string /\ log_level_str_to_enum s = debug) \/
  (s = "trace"%string /\ log_level_str_to_enum s = trace) \/
  (s = "warn"%string /\ log_level_str_to_enum s = warn) \/
  ((forall l, accepted_name l <> Some s) /\ log_level_str_to_enum s = off).
Proof.
  unfold log_level_str_to_enum.
  destruct (String.eqb_spec s "critical"); [left; auto|].
  destruct (String.eqb_spec s "err"); [do 1 right; left; auto|].
  destruct (String.eqb_spec s "info"); [do 2 right; left; auto|].
  destruct (String.eqb_spec s "debug"); [do 3 right; left; auto|].
  destruct (String.eqb_spec s "trace"); [do 4 right; left; auto|].
  destruct (String.eqb_spec s "warn"); [do 5 right; left; auto|].
  do 6 right. split; [|reflexivity].
  intros [] H; cbn in H; congruence.
Qed.

(** C22: [log_level_str_to_enum] maps exactly the six spellings
    ["critical"], ["err"], ["info"], ["debug"], ["trace"], ["warn"] to
    their levels and every other string to [off]. *)
Theorem log_level_str_to_enum_spec s l :
  log_level_str_to_enum s = l <->
  accepted_name l = Some s \/ (l = off /\ forall l', accepted_name l' <> Some s).
Proof.
  split.
  - intros <-.
    destruct (log_level_str_to_enum_cases s) as
      [[-> ->]|[[-> ->]|[[-> ->]|[[-> ->]|[[-> ->]|[[-> ->]|[Hn ->]]]]]]];
      [left; reflexivity ..| right; split; [reflexivity | exact Hn]].
  - intros [H|[-> H]].
    + destruct l; cbn in H; try discriminate; injection H as <-; reflexivity.
    + destruct (log_level_str_to_enum_cases s) as
        [[-> _]|[[-> _]|[[-> _]|[[-> _]|[[-> _]|[[-> _]|[_ E]]]]]]];
        [exfalso ..| exact E].
      * exact (H critical eq_refl).
      * exact (H err eq_refl).
      * exact (H info eq_refl).
      * exact (H debug eq_refl).
      * exact (H trace eq_refl).
      * exact (H warn eq_refl).
Qed.

Lemma assoc_app_fresh {A} k (v : A) l : assoc k l = None -> assoc k (l ++ [(k, v)]) = Some v.
Proof.
  induction l as [|[k' v'] l IH]; cbn; [now rewrite String.eqb_refl|].
  destruct (String.eqb k k'); [discriminate | exact IH].
Qed.

Lemma opened_exists w f : file_exists (opened w f) f = true.
Proof.
  unfold opened. destruct (file_exists w f) eqn:E; [exact E|].
  unfold file_exists. cbn. rewrite assoc_app_fresh; [reflexivity|].
  unfold file_exists in E. now destruct (assoc f (w_files w)).
Qed.

(** C23: [create_logger] registers, under its name, a logger with a
    standard-output sink at level [err] and a rotating sink on the file
    at level [trace] with the chosen pattern, at the level named by
    [logger_level_wanted]; the file exists afterwards, and the global
    flush level and period are set. *)
Theorem create_logger_registers w fileName loggingName ralId fl lw ms simple :
  ms <> 0 -> (file_exists w fileName || dir_exists w (dirname fileName)) = true ->
  assoc loggingName (w_loggers w) = None ->
  exists w', create_logger fileName loggingName ralId fl lw ms simple w = (Normal tt, w') /\
    assoc loggingName (w_loggers w') =
      Some (mkLogger loggingName
              [mkSink StdoutTarget "[%T.%e] [%^%l%$] %v" err;
               mkSink (RotatingFile fileName ms 0) (rotating_pattern ralId simple) trace]
              (log_level_str_to_enum lw)) /\
    file_exists w' fileName = true /\
    w_flush_level w' = log_level_str_to_enum fl /\ w_flush_every w' = Some 1.
Proof.
  intros Hms Hopen Hfree. rewrite create_logger_ok by assumption.
  eexists. split; [reflexivity|]. cbn.
  rewrite opened_loggers, assoc_app_fresh by exact Hfree.
  split; [reflexivity|]. split; [|split; reflexivity].
  pose proof (opened_exists w fileName) as H. exact H.
Qed.

(** C24: registering a second logger under a name already in use throws
    [spdlog_ex], after the constructor of the rotating sink has already
    created its file. *)
Theorem create_logger_duplicate_name w fileName loggingName ralId fl lw ms simple l :
  ms <> 0 -> (file_exists w fileName || dir_exists w (dirname fileName)) = true ->
  assoc loggingName (w_loggers w) = Some l ->
  create_logger fileName loggingName ralId fl lw ms simple w =
  (Raised (CppException SpdlogEx ("logger with name '" ++ loggingName ++ "' already exists")),
   opened w fileName).
Proof.
  intros Hms Hopen Hl. unfold create_logger.
  step_with (make_rotating_sink_ok w fileName ms 0 Hms ltac:(lia) Hopen).
  unfold register_logger, bind, get. cbn. now rewrite opened_loggers, Hl.
Qed.

(** ** Witnesses *)

Definition log_world (loggers : list (string * logger)) : World :=
  mkWorld ["blazing_log"%string] [] [] [] [] [] (mkDevice 0 0 0 "") (mkTimestamp 2020 1 1 0 0 0 0)
    loggers (Some (8192, 1)) warn None [] [].

Lemma create_logger_registers_witness :
  exists w', create_logger "blazing_log/RAL.0.log" "batch_logger" 0 "warn" "info" 1024 false
               (log_world []) = (Normal tt, w') /\ w_flush_level w' = warn.
Proof.
  destruct (create_logger_registers (log_world []) "blazing_log/RAL.0.log" "batch_logger" 0
              "warn" "info" 1024 false) as (w' & E & _ & _ & F & _); try reflexivity; try lia.
  exists w'. split; assumption.
Defined.

Lemma create_logger_duplicate_name_witness :
  fst (create_logger "blazing_log/RAL.0.log" "batch_logger" 0 "warn" "info" 1024 false
         (log_world [("batch_logger"%string, mkLogger "batch_logger" [] info)])) =
  Raised (CppException SpdlogEx "logger with name 'batch_logger' already exists").
Proof.
  rewrite (create_logger_duplicate_name
             (log_world [("batch_logger"%string, mkLogger "batch_logger" [] info)])
             "blazing_log/RAL.0.log" "batch_logger" 0 "warn" "info" 1024 false
             (mkLogger "batch_logger" [] info)); reflexivity || lia.
Defined.

End Logging.
