(* ===== verification/Network.v ===== *)
(** * [get_ip] (lines 43-64 of [initialize.cpp])

    [get_ip] copies at most [IFNAMSIZ - 1 = 15] characters of the
    interface name into [ifr_name] ([strncpy]), asks the kernel for the
    interface's IPv4 address with [ioctl(SIOCGIFADDR)] and prints it with
    [inet_ntoa].  None of the three system calls is checked: when the
    interface does not exist, the function still returns the dotted
    form of whatever [ifr_addr] held, modelled by the world's
    [w_ifaddr_garbage]. *)

From Stdlib Require Import ZArith List String Ascii Bool Lia.
From S2P Require Import Prelude CppStd World.
Import ListNotations.

Local Open Scope Z_scope.
Local Open Scope cpp_scope.

Module Network.

Definition IFNAMSIZ : nat := 16.

(** The name the kernel sees: [strncpy(ifr.ifr_name, name, IFNAMSIZ - 1)]. *)
Definition ifr_name (iface_name : string) : string := substring 0 (IFNAMSIZ - 1) iface_name.

(** [inet_ntoa]: the four bytes of the address in dotted decimal. *)
Definition inet_ntoa (addr : list Z) : string := String.concat "." (map to_string addr).

(** What [ioctl(fd, SIOCGIFADDR, &ifr)] leaves in [ifr.ifr_addr]. *)
Definition interface_address (w : World) (iface_name : string) : list Z :=
  match assoc (ifr_name iface_name) (w_ifaces w) with
  | Some a => a
  | None => w_ifaddr_garbage w
  end.

Definition get_ip (iface_name : string) : M World string :=
  w <- get ;;
  ret (inet_ntoa (interface_address w iface_name)).

Lemma get_ip_found w iface a :
  assoc (ifr_name iface) (w_ifaces w) = Some a -> get_ip iface w = (Normal (inet_ntoa a), w).
Proof. intros H. unfold get_ip, bind, get, ret, interface_address. now rewrite H. Qed.

Lemma get_ip_missing w iface :
  assoc (ifr_name iface) (w_ifaces w) = None ->
  get_ip iface w = (Normal (inet_ntoa (w_ifaddr_garbage w)), w).
Proof. intros H. unfold get_ip, bind, get, ret, interface_address. now rewrite H. Qed.

Lemma get_ip_eq iface w : get_ip iface w = (Normal (inet_ntoa (interface_address w iface)), w).
Proof. reflexivity. Qed.

Example inet_ntoa_loopback : inet_ntoa [127; 0; 0; 1] = "127.0.0.1"%string.
Proof. reflexivity. Qed.

(** C25: [get_ip] only sees the first [IFNAMSIZ - 1 = 15] characters of
    the interface name: two names that agree on them get the same
    address, and the call never fails. *)
Theorem get_ip_truncates i1 i2 w :
  substring 0 15 i1 = substring 0 15 i2 ->
  get_ip i1 w = get_ip i2 w /\ exists s, get_ip i1 w = (Normal s, w).
Proof.
  intros H. split.
  - unfold get_ip, interface_address, ifr_name. cbn. now rewrite H.
  - eexists. apply get_ip_eq.
Qed.

Lemma get_ip_truncates_witness :
  get_ip "enp0s31f6-bridge-a" (mkWorld [] [] [] [("enp0s31f6-bridg"%string, [10; 0; 0; 7])] [0; 0; 0; 0]
     [] (mkDevice 0 0 0 "") (mkTimestamp 2020 1 1 0 0 0 0) [] None warn None [] []) =
  get_ip "enp0s31f6-bridge-b" (mkWorld [] [] [] [("enp0s31f6-bridg"%string, [10; 0; 0; 7])] [0; 0; 0; 0]
     [] (mkDevice 0 0 0 "") (mkTimestamp 2020 1 1 0 0 0 0) [] None warn None [] []).
Proof. apply (get_ip_truncates "enp0s31f6-bridge-a" "enp0s31f6-bridge-b"); reflexivity. Defined.

End Network.
