(* ===== verification/Initialize.v ===== *)
(** * [initialize], [finalize] and their C wrappers (initialize.cpp)

    [initialize] (lines 127-311) as a program of the monad [M World],
    split into the pieces the source is made of, each one written where
    the source runs it, so that an exception thrown by a late piece
    leaves the effects of the earlier ones in the world:

    - [read_device_threshold] (139-143), [configured_logging_dir] and
      [resolve_logging_dir] (144-156), [allocator_logging_file_of]
      (158-161): the allocator set-up read before [BlazingRMMInitialize];
    - [init_log_msg] (171-180), built after [get_ip] overwrote the
      [ralHost] argument;
    - [read_transport_buffers] (182-192), [read_host_quota] (194-198),
      [init_communication] (200-210);
    - [read_logging_settings] (217-233) and [init_loggers] (212-256),
      which first drops every spdlog logger ([spdlog::shutdown]);
    - [write_log_headers] (258-282) and [log_startup_info] (284-310).

    [assert] is a no-op when the build defines [NDEBUG] and aborts the
    process otherwise: the section variable [ndebug] says which build is
    modelled.  [initialize_C] and [finalize_C] (322-359) catch
    [std::exception] only; an abort or [exit] goes through. *)

From Stdlib Require Import ZArith List String Ascii Bool QArith Lia.
From S2P Require Import Prelude CppStd StdMap World Spdlog Logging Network.
Import ListNotations.

Local Open Scope Z_scope.
Local Open Scope cpp_scope.

Module Initialize.
Import Logging Network.

(** [error_code_t] of [error.hpp]. *)
Inductive error_code_t : Type := E_SUCCESS | E_EXCEPTION.

(** The arguments of [initialize] and [initialize_C]. *)
Record init_args : Type := mkInitArgs {
  ralId : Z;
  gpuId : Z;
  network_iface_name : string;
  ralHost : string;
  ralCommunicationPort : Z;
  singleNode : bool;
  config_options : StdMap.t;
  allocation_mode : string;
  initial_pool_size : Z;
  maximum_pool_size : Z;
  enable_logging : bool
}.

(** [config_options[key]] once [find] has found [key]: the stored value. *)
Definition option_value (key : string) (opts : StdMap.t) : string := fst (StdMap.subscript key opts).

(** [stoi] then the conversion to [std::size_t] of the assignment. *)
Definition stoi_size_t (s : string) : outcome Z := n <-? stoi s ;; Normal (to_size_t n).

Section Build.

(** Is the translation unit compiled with [NDEBUG]? *)
Variable ndebug : bool.

(** Lines 139-143. *)
Definition read_device_threshold (opts : StdMap.t) : outcome Q :=
  match StdMap.find "BLAZING_DEVICE_MEM_CONSUMPTION_THRESHOLD" opts with
  | Some _ => stof (option_value "BLAZING_DEVICE_MEM_CONSUMPTION_THRESHOLD" opts)
  | None => Normal (95 # 100)
  end.

(** Lines 144-148. *)
Definition configured_logging_dir (opts : StdMap.t) : string :=
  match StdMap.find "BLAZING_LOGGING_DIRECTORY" opts with
  | Some _ => option_value "BLAZING_LOGGING_DIRECTORY" opts
  | None => "blazing_log"
  end.

(** Lines 144-156: the logging directory, and whether it was missing
    (then it becomes the empty string). *)
Definition resolve_logging_dir (opts : StdMap.t) : M World (string * bool) :=
  w <- get ;;
  let logging_dir := configured_logging_dir opts in
  if dir_exists w logging_dir then ret (logging_dir, false) else ret (EmptyString, true).

(** Lines 158-161. *)
Definition allocator_logging_file_of (enable : bool) (missing : bool) (logging_dir : string)
    (id : Z) : string :=
  if enable && negb missing then (logging_dir ++ "/allocator." ++ to_string id ++ ".log")%string
  else EmptyString.

(** Lines 173-180. *)
Definition init_log_msg (id : Z) (host : string) (port : Z) (iface : string)
    (single : bool) (env_cuda_device : option string) : string :=
  let m := ("INITIALIZING RAL. RAL ID: " ++ to_string id ++ ", ")%string in
  let m := (m ++ "RAL Host: " ++ host ++ ":" ++ to_string port ++ ", ")%string in
  let m := (m ++ "Network Interface: " ++ iface ++ ", ")%string in
  let m := (m ++ (if single then ", Is Single Node, " else ", Is Not Single Node, "))%string in
  let env_cuda_device_str := match env_cuda_device with Some v => v | None => EmptyString end in
  (m ++ "CUDA_VISIBLE_DEVICES is set to: " ++ env_cuda_device_str ++ ", ")%string.

(** Lines 182-191: [buffers_size] and [num_buffers]. *)
Definition read_transport_buffers (opts : StdMap.t) : outcome (Z * Z) :=
  buffers_size <-?
    (match StdMap.find "TRANSPORT_BUFFER_BYTE_SIZE" opts with
     | Some _ => stoi_size_t (option_value "TRANSPORT_BUFFER_BYTE_SIZE" opts)
     | None => Normal 1048576
     end) ;;
  num_buffers <-?
    (match StdMap.find "TRANSPORT_POOL_NUM_BUFFERS" opts with
     | Some _ => stoi (option_value "TRANSPORT_POOL_NUM_BUFFERS" opts)
     | None => Normal 100
     end) ;;
  Normal (buffers_size, num_buffers).

(** Lines 195-196: the [assert], then [stof(config_options[key])], which
    inserts an empty value for a missing key. *)
Definition read_host_quota (opts : StdMap.t) : outcome (Q * StdMap.t) :=
  let key := "BLAZ_HOST_MEM_CONSUMPTION_THRESHOLD"%string in
  match StdMap.find key opts, ndebug with
  | None, false => Raised ProcessAbort
  | _, _ =>
      let (v, opts') := StdMap.subscript key opts in
      q <-? stof v ;; Normal (q, opts')
  end.

(** Lines 200-210. *)
Definition init_communication (id : Z) (host : string) (port : Z) (single : bool) : M World unit :=
  emit (EvCommunicationInitialize id "1.1.1.1" 0 host port 0) ;;
  emit (EvServerStart port true) ;;
  (if single then emit EvServerClose else ret tt) ;;
  emit EvInitExternalSystems.

(** Lines 217-233: flush level, logger level, maximum file size. *)
Definition read_logging_settings (opts : StdMap.t) : outcome (string * string * Z) :=
  let flush_level :=
    match StdMap.find "LOGGING_FLUSH_LEVEL" opts with
    | Some _ => option_value "LOGGING_FLUSH_LEVEL" opts
    | None => "warn"%string
    end in
  let logger_level_wanted :=
    match StdMap.find "LOGGING_LEVEL" opts with
    | Some _ => option_value "LOGGING_LEVEL" opts
    | None => "trace"%string
    end in
  max_size_logging <-?
    (match StdMap.find "LOGGING_MAX_SIZE_PER_FILE" opts with
     | Some _ => stoi_size_t (option_value "LOGGING_MAX_SIZE_PER_FILE" opts)
     | None => Normal 1073741824
     end) ;;
  Normal (flush_level, logger_level_wanted, max_size_logging).

(** [logging_dir + "/<base>." + std::to_string(ralId) + ".log"]. *)
Definition log_file_name (logging_dir base : string) (id : Z) : string :=
  (logging_dir ++ "/" ++ base ++ "." ++ to_string id ++ ".log")%string.

(** Whether each of the five CSV log files existed before its logger
    opened it. *)
Record existing_files : Type := mkExisting {
  ex_queries : bool; ex_kernels : bool; ex_edges : bool; ex_events : bool; ex_cache : bool
}.

(** Lines 212-256. *)
Definition init_loggers (opts : StdMap.t) (logging_dir : string) (id : Z)
    : M World existing_files :=
  shutdown ;;
  init_thread_pool 8192 1 ;;
  settings <- lift (read_logging_settings opts) ;;
  let '(flush_level, logger_level_wanted, max_size_logging) := settings in
  create_logger (log_file_name logging_dir "RAL" id) "batch_logger" id flush_level
    logger_level_wanted max_size_logging false ;;
  w1 <- get ;;
  let e1 := file_exists w1 (log_file_name logging_dir "bsql_queries" id) in
  create_logger (log_file_name logging_dir "bsql_queries" id) "queries_logger" id flush_level
    logger_level_wanted max_size_logging true ;;
  w2 <- get ;;
  let e2 := file_exists w2 (log_file_name logging_dir "bsql_kernels" id) in
  create_logger (log_file_name logging_dir "bsql_kernels" id) "kernels_logger" id flush_level
    logger_level_wanted max_size_logging true ;;
  w3 <- get ;;
  let e3 := file_exists w3 (log_file_name logging_dir "bsql_kernels_edges" id) in
  create_logger (log_file_name logging_dir "bsql_kernels_edges" id) "kernels_edges_logger" id
    flush_level logger_level_wanted max_size_logging true ;;
  w4 <- get ;;
  let e4 := file_exists w4 (log_file_name logging_dir "bsql_kernel_events" id) in
  create_logger (log_file_name logging_dir "bsql_kernel_events" id) "events_logger" id
    flush_level logger_level_wanted max_size_logging true ;;
  w5 <- get ;;
  let e5 := file_exists w5 (log_file_name logging_dir "bsql_cache_events" id) in
  create_logger (log_file_name logging_dir "bsql_cache_events" id) "cache_events_logger" id
    flush_level logger_level_wanted max_size_logging true ;;
  ret (mkExisting e1 e2 e3 e4 e5).

(** One [if(!exists) { spdlog::get(name)->info(header); }]; a null
    [shared_ptr] would be dereferenced when the logger is missing. *)
Definition write_header (existed : bool) (name header : string) : M World unit :=
  if existed then ret tt
  else
    lg <- get_logger name ;;
    match lg with
    | Some l => logger_log l info header
    | None => raise ProcessAbort
    end.

(** Lines 258-282. *)
Definition write_log_headers (ex : existing_files) : M World unit :=
  write_header (ex_queries ex) "queries_logger" "ral_id|query_id|start_time|plan" ;;
  write_header (ex_kernels ex) "kernels_logger" "ral_id|query_id|kernel_id|is_kernel|kernel_type" ;;
  write_header (ex_edges ex) "kernels_edges_logger" "ral_id|query_id|source|sink" ;;
  write_header (ex_events ex) "events_logger"
    "ral_id|query_id|kernel_id|input_num_rows|input_num_bytes|output_num_rows|output_num_bytes|event_type|timestamp_begin|timestamp_end" ;;
  write_header (ex_cache ex) "cache_events_logger"
    "ral_id|query_id|source|sink|num_rows|num_bytes|event_type|timestamp_begin|timestamp_end".

(** The format string ["|||{info}|||||"] with its named argument. *)
Definition info_line (info : string) : string := ("|||" ++ info ++ "|||||")%string.

(** Lines 292-298: the product details in the map's key order. *)
Definition product_details_str (product_details : StdMap.t) : string :=
  fold_left (fun acc kv => (acc ++ fst kv ++ ": " ++ snd kv ++ "; ")%string)
    product_details "Product Details: "%string.

(** Lines 301-308. *)
Definition alloc_info (mode : string) (dev : device_resource) (initial maximum : Z)
    (allocator_logging_file : string) : string :=
  ("allocation_mode: " ++ mode ++
   ", total_memory: " ++ to_string (dev_total dev) ++
   ", memory_limit: " ++ to_string (dev_limit dev) ++
   ", type: " ++ dev_type dev ++
   ", initial_pool_size: " ++ to_string initial ++
   ", maximum_pool_size: " ++ to_string maximum ++
   ", allocator_logging_file: " ++ allocator_logging_file)%string.

(** Lines 284-310. *)
Definition log_startup_info (missing : bool) (initLogMsg : string) (mode : string)
    (initial maximum : Z) (allocator_logging_file : string) : M World unit :=
  lg <- get_logger "batch_logger" ;;
  match lg with
  | None => raise ProcessAbort
  | Some logger =>
      (if missing
       then logger_log logger err (info_line "BLAZING_LOGGING_DIRECTORY not found. It was not created.")
       else ret tt) ;;
      logger_log logger debug (info_line initLogMsg) ;;
      w <- get ;;
      logger_log logger debug (info_line (product_details_str (w_product w))) ;;
      logger_log logger debug
        (info_line (alloc_info mode (w_device w) initial maximum allocator_logging_file))
  end.

(** Lines 127-311. *)
Definition initialize (a : init_args) : M World unit :=
  let opts := config_options a in
  device_mem_resouce_consumption_thresh <- lift (read_device_threshold opts) ;;
  dir <- resolve_logging_dir opts ;;
  let (logging_dir, logging_directory_missing) := dir in
  let allocator_logging_file :=
    allocator_logging_file_of (enable_logging a) logging_directory_missing logging_dir (ralId a) in
  emit (EvRMMInitialize (allocation_mode a) (initial_pool_size a) (maximum_pool_size a)
          allocator_logging_file device_mem_resouce_consumption_thresh) ;;
  emit (EvSetLocale LC_ALL "en_US.UTF-8") ;;
  emit (EvSetLocale LC_NUMERIC "en_US.UTF-8") ;;
  host <- get_ip (network_iface_name a) ;;
  w <- get ;;
  let initLogMsg := init_log_msg (ralId a) host (ralCommunicationPort a) (network_iface_name a)
                      (singleNode a) (assoc "CUDA_VISIBLE_DEVICES" (w_env w)) in
  buffers <- lift (read_transport_buffers opts) ;;
  emit (EvSetPinnedBufferProvider (fst buffers) (snd buffers)) ;;
  quota <- lift (read_host_quota opts) ;;
  let (host_memory_quota, opts) := quota in
  emit (EvHostMemoryInitialize host_memory_quota) ;;
  init_communication (ralId a) host (ralCommunicationPort a) (singleNode a) ;;
  ex <- init_loggers opts logging_dir (ralId a) ;;
  write_log_headers ex ;;
  log_startup_info logging_directory_missing initLogMsg (allocation_mode a)
    (initial_pool_size a) (maximum_pool_size a) allocator_logging_file.

(** Lines 322-350. *)
Definition initialize_C (a : init_args) : M World error_code_t :=
  try_catch (initialize a ;; ret E_SUCCESS) (ret E_EXCEPTION).

End Build.

(** Lines 313-320: [exit(0)] ends the process. *)
Definition finalize : M World unit :=
  emit EvClientCloseConnections ;;
  emit EvServerClose ;;
  emit EvRMMFinalize ;;
  shutdown ;;
  emit EvCudaDeviceReset ;;
  raise (ProcessExit 0).

(** Lines 352-359. *)
Definition finalize_C : M World error_code_t :=
  try_catch (finalize ;; ret E_SUCCESS) (ret E_EXCEPTION).

(** Lines 361-365. *)
Definition getFreeMemory : M World Z :=
  w <- get ;;
  ret (size_t_sub (dev_limit (w_device w)) (dev_used (w_device w))).

(** ** Equations of the stages *)

(** The calls [init_communication] makes, in order. *)
Definition comm_events (id : Z) (host : string) (port : Z) (single : bool) : list event :=
  [EvCommunicationInitialize id "1.1.1.1" 0 host port 0; EvServerStart port true] ++
  (if single then [EvServerClose] else []) ++ [EvInitExternalSystems].

Lemma emit_eq e w : emit e w = (Normal tt, set_events w (w_events w ++ [e])).
Proof. reflexivity. Qed.

Lemma set_events_events w es : w_events (set_events w es) = es.
Proof. reflexivity. Qed.

Lemma set_events_twice w es es' : set_events (set_events w es) es' = set_events w es'.
Proof. reflexivity. Qed.

#[local] Hint Rewrite set_events_events set_events_twice : blazing_rw.

Lemma init_communication_eq id host port single w :
  init_communication id host port single w =
  (Normal tt, set_events w (w_events w ++ comm_events id host port single)).
Proof.
  unfold init_communication, comm_events, emit, modify, bind, ret.
  destruct single; cbn -[app]; autorewrite with blazing_rw; now rewrite <- !app_assoc.
Qed.

(** The directory the log files are created in. *)
Definition log_dir (logging_dir : string) : string :=
  match logging_dir with EmptyString => "/"%string | _ => logging_dir end.

Lemma dirname_log_file_name d base id :
  no_slash base = true -> dirname (log_file_name d base id) = log_dir d.
Proof.
  intros Hb. unfold log_file_name. apply dirname_under.
  autorewrite with blazing_rw. rewrite Hb. reflexivity.
Qed.

Lemma after_create_dirs w f lg fl : w_dirs (after_create w f lg fl) = w_dirs w.
Proof. unfold after_create, opened. now destruct (file_exists w f). Qed.

Lemma after_create_loggers w f lg fl :
  w_loggers (after_create w f lg fl) = w_loggers w ++ [(lg_name lg, lg)].
Proof. unfold after_create. cbn. now rewrite opened_loggers. Qed.

Lemma after_create_events w f lg fl : w_events (after_create w f lg fl) = w_events w.
Proof. unfold after_create, opened. now destruct (file_exists w f). Qed.

Lemma after_create_thread_pool w f lg fl :
  w_thread_pool (after_create w f lg fl) = w_thread_pool w.
Proof. unfold after_create, opened. now destruct (file_exists w f). Qed.

Lemma dir_exists_after_create w f lg fl d :
  dir_exists (after_create w f lg fl) d = dir_exists w d.
Proof. unfold dir_exists. now rewrite after_create_dirs. Qed.

#[local] Hint Rewrite after_create_dirs after_create_loggers after_create_events
  after_create_thread_pool dir_exists_after_create : blazing_rw.

(** The six loggers of [init_loggers], in registration order. *)
Definition expected_loggers (d : string) (id : Z) (lw : string) (ms : Z) : list (string * logger) :=
  map (fun nb => (fst nb, created_logger (log_file_name d (snd nb) id) (fst nb) id lw ms
                            (negb (String.eqb (fst nb) "batch_logger"))))
    [("batch_logger", "RAL"); ("queries_logger", "bsql_queries");
     ("kernels_logger", "bsql_kernels"); ("kernels_edges_logger", "bsql_kernels_edges");
     ("events_logger", "bsql_kernel_events"); ("cache_events_logger", "bsql_cache_events")]%string.

(** One [create_logger] of [init_loggers]. *)
Lemma create_logger_in_dir w d base name id fl lw ms simple :
  ms <> 0 -> no_slash base = true -> dir_exists w (log_dir d) = true ->
  assoc name (w_loggers w) = None ->
  create_logger (log_file_name d base id) name id fl lw ms simple w =
  (Normal tt, after_create w (log_file_name d base id)
                (created_logger (log_file_name d base id) name id lw ms simple) fl).
Proof.
  intros Hms Hb Hd Hn. apply create_logger_ok; [exact Hms | | exact Hn].
  rewrite dirname_log_file_name by exact Hb. now rewrite Hd, orb_true_r.
Qed.

(** Run the next [create_logger] of [init_loggers]. *)
Ltac create_step Hms Hd :=
  match goal with
  | |- context [bind (create_logger (log_file_name ?d ?base ?id) ?name ?id ?fl ?lw ?ms ?simple) _ ?W] =>
      step_with (create_logger_in_dir W d base name id fl lw ms simple Hms eq_refl
                   ltac:(autorewrite with blazing_rw; exact Hd)
                   ltac:(autorewrite with blazing_rw; reflexivity));
      cbv beta
  end.

Lemma get_eq (w : World) : get w = (Normal w, w).
Proof. reflexivity. Qed.

Ltac get_step := rewrite (bind_normal get _ _ _ _ (get_eq _)); cbv beta.

(** [init_loggers] succeeds when the settings parse, the size is not
    zero and the log directory exists: it registers exactly the six
    loggers, in order, and calls no external collaborator. *)
Lemma init_loggers_ok opts d id fl lw ms w :
  read_logging_settings opts = Normal (fl, lw, ms) -> ms <> 0 ->
  dir_exists w (log_dir d) = true ->
  exists ex w', init_loggers opts d id w = (Normal ex, w') /\
    w_loggers w' = expected_loggers d id lw ms /\ w_events w' = w_events w /\
    w_thread_pool w' = Some (8192, 1) /\ w_dirs w' = w_dirs w.
Proof.
  intros Hs Hms Hd. unfold init_loggers.
  step_with (eq_refl : shutdown w =
    (Normal tt, set_flush (set_thread_pool (set_loggers w []) None) (w_flush_level w) None)).
  cbv beta.
  step_with (eq_refl : init_thread_pool 8192 1
      (set_flush (set_thread_pool (set_loggers w []) None) (w_flush_level w) None) =
    (Normal tt, set_thread_pool
      (set_flush (set_thread_pool (set_loggers w []) None) (w_flush_level w) None) (Some (8192, 1)))).
  cbv beta.
  unfold lift at 1. rewrite Hs. unfold bind at 1. cbv beta iota.
  create_step Hms Hd. get_step.
  create_step Hms Hd. get_step.
  create_step Hms Hd. get_step.
  create_step Hms Hd. get_step.
  create_step Hms Hd. get_step.
  create_step Hms Hd.
  do 2 eexists. split; [reflexivity|].
  autorewrite with blazing_rw. repeat split; reflexivity.
Qed.

Lemma write_header_ok existed name header w :
  (exists l, assoc name (w_loggers w) = Some l) ->
  exists w', write_header existed name header w = (Normal tt, w') /\ log_frame w w'.
Proof.
  intros [l Hl]. unfold write_header.
  destruct existed; try (eexists; split; [reflexivity | apply log_frame_refl]).
  all: unfold get_logger, bind, get, ret; rewrite Hl; apply logger_log_frame.
Qed.

Lemma write_log_headers_ok ex d id lw ms w :
  w_loggers w = expected_loggers d id lw ms ->
  exists w', write_log_headers ex w = (Normal tt, w') /\ log_frame w w'.
Proof.
  intros Hl. unfold write_log_headers.
  assert (Hreg : forall name l w0, log_frame w w0 ->
                   assoc name (expected_loggers d id lw ms) = Some l ->
                   exists l', assoc name (w_loggers w0) = Some l')
    by (intros name l w0 F Ha; exists l; now rewrite (log_frame_loggers _ _ F), Hl).
  destruct (write_header_ok (ex_queries ex) "queries_logger" "ral_id|query_id|start_time|plan" w)
    as (w1 & E1 & F1); [eapply Hreg; [apply log_frame_refl | reflexivity]|].
  rewrite (bind_normal _ _ _ _ _ E1). cbv beta.
  destruct (write_header_ok (ex_kernels ex) "kernels_logger"
              "ral_id|query_id|kernel_id|is_kernel|kernel_type" w1)
    as (w2 & E2 & F2); [eapply Hreg; [exact F1 | reflexivity]|].
  rewrite (bind_normal _ _ _ _ _ E2). cbv beta.
  destruct (write_header_ok (ex_edges ex) "kernels_edges_logger" "ral_id|query_id|source|sink" w2)
    as (w3 & E3 & F3); [eapply Hreg; [eauto with blazing | reflexivity]|].
  rewrite (bind_normal _ _ _ _ _ E3). cbv beta.
  destruct (write_header_ok (ex_events ex) "events_logger"
    "ral_id|query_id|kernel_id|input_num_rows|input_num_bytes|output_num_rows|output_num_bytes|event_type|timestamp_begin|timestamp_end" w3)
    as (w4 & E4 & F4); [eapply Hreg; [eauto with blazing | reflexivity]|].
  rewrite (bind_normal _ _ _ _ _ E4). cbv beta.
  destruct (write_header_ok (ex_cache ex) "cache_events_logger"
    "ral_id|query_id|source|sink|num_rows|num_bytes|event_type|timestamp_begin|timestamp_end" w4)
    as (w5 & E5 & F5); [eapply Hreg; [eauto with blazing | reflexivity]|].
  exists w5. split; [exact E5 | eauto with blazing].
Qed.

Lemma log_startup_info_ok missing msg mode initial maximum file l w :
  assoc "batch_logger" (w_loggers w) = Some l ->
  exists w', log_startup_info missing msg mode initial maximum file w = (Normal tt, w') /\
    log_frame w w'.
Proof.
  intros Hl. unfold log_startup_info.
  step_with (eq_refl : get_logger "batch_logger" w =
                       (Normal (assoc "batch_logger" (w_loggers w)), w)).
  rewrite Hl. cbv beta iota.
  assert (Hm : exists w1, (if missing then logger_log l err
              (info_line "BLAZING_LOGGING_DIRECTORY not found. It was not created.")
              else ret tt) w = (Normal tt, w1) /\ log_frame w w1)
    by (destruct missing; [apply logger_log_frame | eexists; split; [reflexivity | apply log_frame_refl]]).
  destruct Hm as (w1 & E1 & F1). rewrite (bind_normal _ _ _ _ _ E1). cbv beta.
  destruct (logger_log_frame l debug (info_line msg) w1) as (w2 & E2 & F2).
  rewrite (bind_normal _ _ _ _ _ E2). cbv beta. get_step.
  destruct (logger_log_frame l debug (info_line (product_details_str (w_product w2))) w2)
    as (w3 & E3 & F3).
  rewrite (bind_normal _ _ _ _ _ E3). cbv beta.
  destruct (logger_log_frame l debug
              (info_line (alloc_info mode (w_device w2) initial maximum file)) w3) as (w4 & E4 & F4).
  exists w4. split; [exact E4 | eauto with blazing].
Qed.

Lemma lift_normal {A} (o : outcome A) x (w : World) : o = Normal x -> lift o w = (Normal x, w).
Proof. intros ->. reflexivity. Qed.

Lemma lift_raised {A} (o : outcome A) e (w : World) : o = Raised e -> lift o w = (Raised e, w).
Proof. intros ->. reflexivity. Qed.

Lemma resolve_logging_dir_found opts w :
  dir_exists w (configured_logging_dir opts) = true ->
  resolve_logging_dir opts w = (Normal (configured_logging_dir opts, false), w).
Proof. intros H. unfold resolve_logging_dir, bind, get. now rewrite H. Qed.

Lemma resolve_logging_dir_missing opts w :
  dir_exists w (configured_logging_dir opts) = false ->
  resolve_logging_dir opts w = (Normal (EmptyString, true), w).
Proof. intros H. unfold resolve_logging_dir, bind, get. now rewrite H. Qed.

Lemma log_dir_nonempty d : d <> EmptyString -> log_dir d = d.
Proof. destruct d; [contradiction | reflexivity]. Qed.

(** The external calls of a successful [initialize], in order. *)
Definition startup_events (a : init_args) (allocator_file : string) (threshold : Q)
    (buffers_size num_buffers : Z) (quota : Q) (host : string) : list event :=
  [EvRMMInitialize (allocation_mode a) (initial_pool_size a) (maximum_pool_size a)
     allocator_file threshold;
   EvSetLocale LC_ALL "en_US.UTF-8"; EvSetLocale LC_NUMERIC "en_US.UTF-8";
   EvSetPinnedBufferProvider buffers_size num_buffers;
   EvHostMemoryInitialize quota] ++
  comm_events (ralId a) host (ralCommunicationPort a) (singleNode a).

Ltac lift_step H :=
  match goal with |- context [bind (lift ?o) _ ?W] => step_with (lift_normal o _ W H) end.

Ltac emit_step :=
  match goal with |- context [bind (emit ?e) _ ?W] => step_with (emit_eq e W); cbv beta end.

(** Symbolic execution of [initialize]: run every statement whose
    outcome the context determines. *)
Ltac lift_auto :=
  match goal with
  | |- context [bind (lift ?o) _ ?W] =>
      match goal with H : o = Normal _ |- _ => step_with (lift_normal o _ W H); cbv beta iota end
  end.

Ltac lift_raise_auto :=
  match goal with
  | |- context [bind (lift ?o) _ ?W] =>
      match goal with H : o = Raised _ |- _ => rewrite (bind_raised _ _ W _ W (lift_raised o _ W H)) end
  end.

Ltac resolve_auto :=
  match goal with
  | |- context [bind (resolve_logging_dir ?o) _ ?W] =>
      match goal with H : resolve_logging_dir o W = _ |- _ => step_with H; cbv beta iota end
  end.

Ltac ip_step :=
  match goal with |- context [bind (get_ip ?i) _ ?W] => step_with (get_ip_eq i W); cbv beta end.

Ltac comm_step :=
  match goal with
  | |- context [bind (init_communication ?i ?h ?p ?sn) _ ?W] =>
      step_with (init_communication_eq i h p sn W); cbv beta
  end.

Ltac run_init := repeat first [emit_step | lift_auto | resolve_auto | ip_step | get_step | comm_step].

(** What [initialize] does once the loggers are created (lines 258-310). *)
Definition initialize_tail (missing : bool) (initLogMsg : string) (a : init_args)
    (allocator_file : string) (ex : existing_files) : M World unit :=
  write_log_headers ex ;;
  log_startup_info missing initLogMsg (allocation_mode a) (initial_pool_size a)
    (maximum_pool_size a) allocator_file.

(** The address [get_ip] reports for the configured interface. *)
Definition ral_host (a : init_args) (w : World) : string :=
  inet_ntoa (interface_address w (network_iface_name a)).

(** When the options read before the loggers parse, [initialize] makes
    the calls [startup_events] in order and then runs [init_loggers]. *)
Lemma initialize_prefix ndebug a w d missing q bs nb hq opts' :
  read_device_threshold (config_options a) = Normal q ->
  resolve_logging_dir (config_options a) w = (Normal (d, missing), w) ->
  read_transport_buffers (config_options a) = Normal (bs, nb) ->
  read_host_quota ndebug (config_options a) = Normal (hq, opts') ->
  initialize ndebug a w =
  bind (init_loggers opts' d (ralId a))
    (initialize_tail missing
       (init_log_msg (ralId a) (ral_host a w) (ralCommunicationPort a) (network_iface_name a)
          (singleNode a) (assoc "CUDA_VISIBLE_DEVICES" (w_env w)))
       a (allocator_logging_file_of (enable_logging a) missing d (ralId a)))
    (set_events w (w_events w ++
       startup_events a (allocator_logging_file_of (enable_logging a) missing d (ralId a))
         q bs nb hq (ral_host a w))).
Proof.
  intros Hq Hd Hb Hh. unfold initialize. cbv zeta. run_init.
  autorewrite with blazing_rw. unfold initialize_tail, startup_events.
  f_equal. f_equal. cbn -[app comm_events]. now rewrite <- !app_assoc.
Qed.

Lemma initialize_tail_ok missing msg a file ex d id lw ms w :
  w_loggers w = expected_loggers d id lw ms ->
  exists w', initialize_tail missing msg a file ex w = (Normal tt, w') /\ log_frame w w'.
Proof.
  intros L. unfold initialize_tail.
  destruct (write_log_headers_ok ex _ _ _ _ w L) as (w2 & E2 & F2).
  step_with E2. cbv beta.
  destruct (log_startup_info_ok missing msg (allocation_mode a) (initial_pool_size a)
              (maximum_pool_size a) file
              (created_logger (log_file_name d "RAL" id) "batch_logger" id lw ms false) w2)
    as (w3 & E3 & F3).
  { rewrite (log_frame_loggers _ _ F2), L. reflexivity. }
  exists w3. split; [exact E3 | eauto with blazing].
Qed.

Lemma initialize_ok ndebug a w d missing q bs nb hq opts' fl lw ms :
  read_device_threshold (config_options a) = Normal q ->
  resolve_logging_dir (config_options a) w = (Normal (d, missing), w) ->
  dir_exists w (log_dir d) = true ->
  read_transport_buffers (config_options a) = Normal (bs, nb) ->
  read_host_quota ndebug (config_options a) = Normal (hq, opts') ->
  read_logging_settings opts' = Normal (fl, lw, ms) -> ms <> 0 ->
  exists w', initialize ndebug a w = (Normal tt, w') /\
    w_events w' = w_events w ++
      startup_events a (allocator_logging_file_of (enable_logging a) missing d (ralId a))
        q bs nb hq (ral_host a w) /\
    w_loggers w' = expected_loggers d (ralId a) lw ms /\
    w_thread_pool w' = Some (8192, 1).
Proof.
  intros Hq Hres Hd Hb Hh Hs Hms.
  rewrite (initialize_prefix ndebug a w _ _ q bs nb hq opts' Hq Hres Hb Hh).
  match goal with
  | |- context [bind (init_loggers ?o ?d ?id) _ ?W] =>
      destruct (init_loggers_ok o d id fl lw ms W Hs Hms Hd) as (ex & w1 & E1 & L1 & Ev1 & T1 & _)
  end.
  step_with E1.
  destruct (initialize_tail_ok missing
              (init_log_msg (ralId a) (ral_host a w) (ralCommunicationPort a)
                 (network_iface_name a) (singleNode a) (assoc "CUDA_VISIBLE_DEVICES" (w_env w)))
              a (allocator_logging_file_of (enable_logging a) missing d (ralId a))
              ex _ _ _ _ w1 L1) as (w2 & E2 & F2).
  exists w2. split; [exact E2|].
  rewrite (log_frame_events _ _ F2), (log_frame_loggers _ _ F2), (log_frame_thread_pool _ _ F2).
  auto.
Qed.

(** [init_loggers] when [LOGGING_MAX_SIZE_PER_FILE] does not parse: the
    loggers are already dropped. *)
Lemma init_loggers_settings_error opts d id e w :
  read_logging_settings opts = Raised e ->
  exists w', init_loggers opts d id w = (Raised e, w') /\
    w_loggers w' = [] /\ w_events w' = w_events w /\ w_thread_pool w' = Some (8192, 1).
Proof.
  intros He. unfold init_loggers, bind, shutdown, init_thread_pool, modify, lift.
  cbv beta. rewrite He. eexists. repeat split.
Qed.

(** [init_loggers] when the file of the first logger cannot be opened. *)
Lemma init_loggers_open_error opts d id fl lw ms w :
  read_logging_settings opts = Normal (fl, lw, ms) -> ms <> 0 ->
  dir_exists w (log_dir d) = false -> file_exists w (log_file_name d "RAL" id) = false ->
  exists w', init_loggers opts d id w =
    (Raised (CppException SpdlogEx
               ("Failed opening file " ++ log_file_name d "RAL" id ++ " for writing")), w') /\
    w_loggers w' = [] /\ w_events w' = w_events w.
Proof.
  intros Hs Hms Hd Hf. unfold init_loggers.
  step_with (eq_refl : shutdown w =
    (Normal tt, set_flush (set_thread_pool (set_loggers w []) None) (w_flush_level w) None)).
  cbv beta.
  match goal with |- context [bind (init_thread_pool ?q ?t) _ ?W] =>
    step_with (eq_refl : init_thread_pool q t W = (Normal tt, set_thread_pool W (Some (q, t))))
  end.
  cbv beta. lift_step Hs. cbv beta iota.
  match goal with
  | |- context [bind (create_logger ?f ?n ?i ?fl ?lw ?ms ?simple) _ ?W] =>
      step_with (create_logger_open_fail W f n i fl lw ms simple Hms ltac:(
        rewrite dirname_log_file_name by reflexivity; apply orb_false_iff; exact (conj Hf Hd)))
  end.
  eexists. repeat split.
Qed.

(** [initialize_C] maps the outcome of [initialize] to an error code,
    letting an abort or an [exit] through. *)
Lemma initialize_C_eq ndebug a w :
  initialize_C ndebug a w =
  match initialize ndebug a w with
  | (Normal _, w') => (Normal E_SUCCESS, w')
  | (Raised e, w') => if is_std_exception e then (Normal E_EXCEPTION, w') else (Raised e, w')
  end.
Proof. unfold initialize_C, try_catch, bind. now destruct (initialize ndebug a w) as [[]]. Qed.

Lemma stoi_size_t_range s z :
  stoi_size_t s = Normal z -> (0 <= z <= INT_MAX) \/ (SIZE_MODULUS + INT_MIN <= z < SIZE_MODULUS).
Proof.
  unfold stoi_size_t, obind. destruct (stoi s) as [n|] eqn:E; [|discriminate].
  intros H. inv H. apply stoi_in_range, in_int_range_spec in E.
  unfold INT_MIN, INT_MAX, SIZE_MODULUS in *.
  destruct (Z_lt_le_dec n 0).
  - right. rewrite to_size_t_neg by (unfold SIZE_MODULUS; lia). unfold SIZE_MODULUS. lia.
  - left. rewrite to_size_t_small by (unfold SIZE_MODULUS; lia). lia.
Qed.

Lemma stoi_size_t_neg s n : stoi s = Normal n -> n < 0 -> stoi_size_t s = Normal (n + SIZE_MODULUS).
Proof.
  intros E Hn. unfold stoi_size_t, obind. rewrite E.
  apply stoi_in_range, in_int_range_spec in E. unfold INT_MIN, INT_MAX in E.
  rewrite to_size_t_neg by (unfold SIZE_MODULUS; lia). reflexivity.
Qed.

Lemma option_value_found key opts v : StdMap.find key opts = Some v -> option_value key opts = v.
Proof. intros H. unfold option_value. now rewrite (StdMap.subscript_found _ _ _ H). Qed.

Lemma format_bare_message lvl msg ts : format_pattern "%v" lvl msg ts = msg.
Proof. cbn. apply string_append_empty. Qed.

(** ** Claims about [initialize] and its wrapper *)

(** C1: when every option read before the loggers parses, the log
    directory is usable and the file size is not zero, [initialize_C]
    returns [E_SUCCESS]; the external calls are, in order, the allocator,
    the two locales, the pinned buffers, the host memory quota, the
    communication data, the server start (and close on a single node)
    and the external systems; the six loggers are registered in order
    and the spdlog thread pool is the one [initialize] created. *)
Theorem initialize_C_success ndebug a w d missing q bs nb hq opts' fl lw ms :
  read_device_threshold (config_options a) = Normal q ->
  resolve_logging_dir (config_options a) w = (Normal (d, missing), w) ->
  dir_exists w (log_dir d) = true ->
  read_transport_buffers (config_options a) = Normal (bs, nb) ->
  read_host_quota ndebug (config_options a) = Normal (hq, opts') ->
  read_logging_settings opts' = Normal (fl, lw, ms) -> ms <> 0 ->
  exists w', initialize_C ndebug a w = (Normal E_SUCCESS, w') /\
    w_events w' = w_events w ++
      startup_events a (allocator_logging_file_of (enable_logging a) missing d (ralId a))
        q bs nb hq (ral_host a w) /\
    w_loggers w' = expected_loggers d (ralId a) lw ms /\
    w_thread_pool w' = Some (8192, 1).
Proof.
  intros Hq Hres Hd Hb Hh Hs Hms.
  destruct (initialize_ok ndebug a w d missing q bs nb hq opts' fl lw ms Hq Hres Hd Hb Hh Hs Hms)
    as (w' & E & Ev & L & T).
  exists w'. rewrite initialize_C_eq, E. auto.
Qed.

(** C2: when [LOGGING_MAX_SIZE_PER_FILE] is not a number (or out of
    [int] range), [initialize_C] reports [E_EXCEPTION], but the server
    has already been started and the communication initialized, and
    every spdlog logger has been dropped. *)
Theorem initialize_C_late_settings_error ndebug a w d missing q bs nb hq opts' e :
  read_device_threshold (config_options a) = Normal q ->
  resolve_logging_dir (config_options a) w = (Normal (d, missing), w) ->
  read_transport_buffers (config_options a) = Normal (bs, nb) ->
  read_host_quota ndebug (config_options a) = Normal (hq, opts') ->
  read_logging_settings opts' = Raised e -> is_std_exception e = true ->
  exists w', initialize_C ndebug a w = (Normal E_EXCEPTION, w') /\
    w_events w' = w_events w ++
      startup_events a (allocator_logging_file_of (enable_logging a) missing d (ralId a))
        q bs nb hq (ral_host a w) /\
    w_loggers w' = [].
Proof.
  intros Hq Hres Hb Hh Hs He.
  rewrite initialize_C_eq, (initialize_prefix ndebug a w _ _ q bs nb hq opts' Hq Hres Hb Hh).
  match goal with
  | |- context [bind (init_loggers ?o ?d ?id) _ ?W] =>
      destruct (init_loggers_settings_error o d id e W Hs) as (w1 & E1 & L1 & Ev1 & _)
  end.
  rewrite (bind_raised _ _ _ _ _ E1), He. exists w1. auto.
Qed.

(** C3: when the logging directory is missing, the log files are put
    in the file-system root; when the root is not writable and the
    first file does not exist, [initialize_C] reports [E_EXCEPTION]
    after the server was started, with no logger registered. *)
Theorem initialize_C_missing_dir_unwritable_root ndebug a w q bs nb hq opts' fl lw ms :
  read_device_threshold (config_options a) = Normal q ->
  dir_exists w (configured_logging_dir (config_options a)) = false ->
  dir_exists w "/" = false -> file_exists w ("/RAL." ++ to_string (ralId a) ++ ".log") = false ->
  read_transport_buffers (config_options a) = Normal (bs, nb) ->
  read_host_quota ndebug (config_options a) = Normal (hq, opts') ->
  read_logging_settings opts' = Normal (fl, lw, ms) -> ms <> 0 ->
  exists w', initialize_C ndebug a w = (Normal E_EXCEPTION, w') /\
    w_events w' = w_events w ++ startup_events a EmptyString q bs nb hq (ral_host a w) /\
    w_loggers w' = [].
Proof.
  intros Hq Hd Hroot Hf Hb Hh Hs Hms.
  rewrite initialize_C_eq,
    (initialize_prefix ndebug a w _ _ q bs nb hq opts' Hq (resolve_logging_dir_missing _ _ Hd) Hb Hh).
  match goal with
  | |- context [bind (init_loggers ?o ?d ?id) _ ?W] =>
      destruct (init_loggers_open_error o d id fl lw ms W Hs Hms Hroot Hf) as (w1 & E1 & L1 & Ev1)
  end.
  rewrite (bind_raised _ _ _ _ _ E1). cbn [is_std_exception]. exists w1.
  rewrite L1, Ev1. unfold allocator_logging_file_of. rewrite andb_false_r. auto.
Qed.

(** C4: when [TRANSPORT_BUFFER_BYTE_SIZE] or [TRANSPORT_POOL_NUM_BUFFERS]
    does not parse, [initialize_C] reports [E_EXCEPTION] after the
    allocator and the locales were set up, and before any other
    external call. *)
Theorem initialize_C_transport_error ndebug a w d missing q e :
  read_device_threshold (config_options a) = Normal q ->
  resolve_logging_dir (config_options a) w = (Normal (d, missing), w) ->
  read_transport_buffers (config_options a) = Raised e -> is_std_exception e = true ->
  initialize_C ndebug a w =
  (Normal E_EXCEPTION,
   set_events w (w_events w ++
     [EvRMMInitialize (allocation_mode a) (initial_pool_size a) (maximum_pool_size a)
        (allocator_logging_file_of (enable_logging a) missing d (ralId a)) q;
      EvSetLocale LC_ALL "en_US.UTF-8"; EvSetLocale LC_NUMERIC "en_US.UTF-8"])).
Proof.
  intros Hq Hres Hb He. rewrite initialize_C_eq. unfold initialize. cbv zeta.
  run_init. lift_raise_auto. rewrite He.
  autorewrite with blazing_rw. now rewrite <- !app_assoc.
Qed.

Lemma read_host_quota_missing ndebug opts :
  StdMap.find "BLAZ_HOST_MEM_CONSUMPTION_THRESHOLD" opts = None ->
  read_host_quota ndebug opts =
  Raised (if ndebug then CppException InvalidArgument "stof" else ProcessAbort).
Proof.
  intros H. unfold read_host_quota. rewrite H.
  destruct ndebug; [|reflexivity].
  now rewrite (StdMap.subscript_missing _ _ H).
Qed.

(** C5: when [BLAZ_HOST_MEM_CONSUMPTION_THRESHOLD] is missing, a debug
    build aborts on the [assert] (the abort goes through [initialize_C]),
    and an [NDEBUG] build reads an empty value whose [stof] throws, so
    [initialize_C] reports [E_EXCEPTION]; in both cases the pinned buffer
    provider has already been set. *)
Theorem initialize_C_host_quota_missing ndebug a w d missing q bs nb :
  read_device_threshold (config_options a) = Normal q ->
  resolve_logging_dir (config_options a) w = (Normal (d, missing), w) ->
  read_transport_buffers (config_options a) = Normal (bs, nb) ->
  StdMap.find "BLAZ_HOST_MEM_CONSUMPTION_THRESHOLD" (config_options a) = None ->
  initialize_C ndebug a w =
  (if ndebug then Normal E_EXCEPTION else Raised ProcessAbort,
   set_events w (w_events w ++
     [EvRMMInitialize (allocation_mode a) (initial_pool_size a) (maximum_pool_size a)
        (allocator_logging_file_of (enable_logging a) missing d (ralId a)) q;
      EvSetLocale LC_ALL "en_US.UTF-8"; EvSetLocale LC_NUMERIC "en_US.UTF-8";
      EvSetPinnedBufferProvider bs nb])).
Proof.
  intros Hq Hres Hb Hmiss. pose proof (read_host_quota_missing ndebug _ Hmiss) as Hh.
  rewrite initialize_C_eq. unfold initialize. cbv zeta.
  run_init. lift_raise_auto.
  autorewrite with blazing_rw. rewrite <- !app_assoc. now destruct ndebug.
Qed.

(** C6: [finalize_C] never returns an error code: [finalize] closes the
    connections and the server, finalizes the allocator, shuts spdlog
    down, resets the device, and [exit(0)] ends the process, which the
    [catch] of [finalize_C] cannot intercept. *)
Theorem finalize_C_exits w :
  exists w', finalize_C w = (Raised (ProcessExit 0), w') /\
    w_events w' = w_events w ++
      [EvClientCloseConnections; EvServerClose; EvRMMFinalize; EvCudaDeviceReset] /\
    w_loggers w' = [] /\ w_thread_pool w' = None.
Proof.
  eexists. unfold finalize_C, finalize, try_catch. cbn -[app].
  split; [reflexivity|]. split; [now rewrite <- !app_assoc | split; reflexivity].
Qed.

(** C13: [getFreeMemory] is [memory_limit - memory_used] on [size_t]:
    exact while the usage is within the limit, and wrapped around to a
    value near [2^64] when the usage exceeds the limit. *)
Theorem getFreeMemory_wraps w :
  is_size_t (dev_limit (w_device w)) -> is_size_t (dev_used (w_device w)) ->
  getFreeMemory w =
  (Normal (if dev_used (w_device w) <=? dev_limit (w_device w)
           then dev_limit (w_device w) - dev_used (w_device w)
           else dev_limit (w_device w) - dev_used (w_device w) + SIZE_MODULUS), w).
Proof.
  unfold is_size_t. intros Hl Hu. unfold getFreeMemory, size_t_sub, bind, get, ret.
  destruct (Z.leb_spec (dev_used (w_device w)) (dev_limit (w_device w))).
  - rewrite to_size_t_small by lia. reflexivity.
  - rewrite to_size_t_neg by lia. reflexivity.
Qed.

(** C14: the transport buffer size [initialize] passes on is either at
    most [INT_MAX] or, for a negative option, within [2^31] of [2^64]
    ([std::stoi] into a [size_t]); the number of buffers is an [int]. *)
Theorem read_transport_buffers_bounds opts bs nb :
  read_transport_buffers opts = Normal (bs, nb) ->
  ((0 <= bs <= INT_MAX) \/ (SIZE_MODULUS + INT_MIN <= bs < SIZE_MODULUS)) /\
  in_int_range nb = true.
Proof.
  unfold read_transport_buffers, obind.
  destruct (StdMap.find "TRANSPORT_BUFFER_BYTE_SIZE" opts);
    [destruct (stoi_size_t _) as [b|] eqn:Eb; [|discriminate] | ];
    (destruct (StdMap.find "TRANSPORT_POOL_NUM_BUFFERS" opts);
      [destruct (stoi _) as [n|] eqn:En; [|discriminate] |]);
    intros H; inv H; split;
    solve [ eapply stoi_size_t_range; eassumption | eapply stoi_in_range; eassumption
          | left; unfold INT_MAX; lia | reflexivity ].
Qed.

(** C15: a negative [TRANSPORT_BUFFER_BYTE_SIZE] is accepted, not
    rejected: whenever the number of buffers is absent or parses,
    [initialize] goes on with [n + 2^64] bytes per buffer. *)
Theorem transport_buffer_size_negative_wraps opts v n :
  StdMap.find "TRANSPORT_BUFFER_BYTE_SIZE" opts = Some v -> stoi v = Normal n -> n < 0 ->
  (forall u, StdMap.find "TRANSPORT_POOL_NUM_BUFFERS" opts = Some u -> exists m, stoi u = Normal m) ->
  exists nb, read_transport_buffers opts = Normal (n + SIZE_MODULUS, nb).
Proof.
  intros Hf Hs Hn Hc. unfold read_transport_buffers, obind.
  rewrite Hf, (option_value_found _ _ _ Hf), (stoi_size_t_neg _ _ Hs Hn).
  destruct (StdMap.find "TRANSPORT_POOL_NUM_BUFFERS" opts) as [u|] eqn:Eu; [|eexists; reflexivity].
  destruct (Hc u eq_refl) as [m Hm]. rewrite (option_value_found _ _ _ Eu), Hm. eexists. reflexivity.
Qed.

(** C16: the maximum log-file size is either at most [INT_MAX] (so no
    file can be allowed 2 GiB or more) or, for a negative option, within
    [2^31] of [2^64]. *)
Theorem read_logging_settings_max_size_bounds opts fl lw ms :
  read_logging_settings opts = Normal (fl, lw, ms) ->
  (0 <= ms <= INT_MAX) \/ (SIZE_MODULUS + INT_MIN <= ms < SIZE_MODULUS).
Proof.
  unfold read_logging_settings, obind.
  destruct (StdMap.find "LOGGING_MAX_SIZE_PER_FILE" opts);
    [destruct (stoi_size_t _) as [m|] eqn:Em; [|discriminate]|]; intros H; inv H.
  - eapply stoi_size_t_range; eassumption.
  - left. unfold INT_MAX. lia.
Qed.

(** C17: without the transport options, the buffers are [2^20] bytes
    (1 MiB, where the source comment says "10 MBs") and there are 100 of
    them; without the logging options, the flush level is ["warn"], the
    level ["trace"] and the file size [2^30] bytes. *)
Theorem option_defaults opts :
  StdMap.find "TRANSPORT_BUFFER_BYTE_SIZE" opts = None ->
  StdMap.find "TRANSPORT_POOL_NUM_BUFFERS" opts = None ->
  StdMap.find "LOGGING_FLUSH_LEVEL" opts = None ->
  StdMap.find "LOGGING_LEVEL" opts = None ->
  StdMap.find "LOGGING_MAX_SIZE_PER_FILE" opts = None ->
  read_transport_buffers opts = Normal (2 ^ 20, 100) /\
  read_logging_settings opts = Normal ("warn"%string, "trace"%string, 2 ^ 30).
Proof.
  intros H1 H2 H3 H4 H5. unfold read_transport_buffers, read_logging_settings, obind.
  rewrite H1, H2, H3, H4, H5. split; reflexivity.
Qed.

(** C18: an [int] written into [TRANSPORT_POOL_NUM_BUFFERS] with
    [std::to_string] is the number of buffers [initialize] uses. *)
Theorem num_buffers_roundtrip opts n bs nb :
  StdMap.find "TRANSPORT_POOL_NUM_BUFFERS" opts = Some (to_string n) ->
  in_int_range n = true ->
  read_transport_buffers opts = Normal (bs, nb) -> nb = n.
Proof.
  intros Hf Hn. unfold read_transport_buffers, obind.
  rewrite Hf, (option_value_found _ _ _ Hf), (stoi_to_string _ Hn).
  destruct (StdMap.find "TRANSPORT_BUFFER_BYTE_SIZE" opts);
    [destruct (stoi_size_t (option_value "TRANSPORT_BUFFER_BYTE_SIZE" opts)); [|discriminate]|];
    intros H; injection H as _ <-; reflexivity.
Qed.

(** C19: a CSV header line is written only when its file did not exist
    before [initialize] created it ([existed] is [false]), and then only
    when the logger's level lets an [info] message through: with
    [LOGGING_LEVEL] ["warn"], ["err"], ["critical"] or anything unknown
    the new file stays empty, and a file that existed is left as it is.
    Nothing reaches the standard output (its sink is at level [err]). *)
Theorem write_header_effect existed name header f id lw ms tp ls w :
  w_thread_pool w = Some tp ->
  assoc name (w_loggers w) = Some (created_logger f name id lw ms true) ->
  file_lines w f = Some ls ->
  exists w', write_header existed name header w = (Normal tt, w') /\
    file_lines w' f =
      Some (if negb existed && should_log (log_level_str_to_enum lw) info then ls ++ [header] else ls) /\
    w_stdout w' = w_stdout w.
Proof.
  intros Htp Hl Hf. destruct existed; [exists w; split; [reflexivity | split; [exact Hf | reflexivity]]|].
  unfold write_header. cbn [negb andb].
  step_with (eq_refl : get_logger name w = (Normal (assoc name (w_loggers w)), w)).
  rewrite Hl. cbv beta iota. unfold logger_log. cbn [lg_level created_logger].
  destruct (should_log (log_level_str_to_enum lw) info).
  - unfold bind at 1, get at 1. rewrite Htp. cbn [lg_sinks created_logger sinks_log].
    unfold sink_log, bind, get, ret, rotating_pattern. cbn [sk_target sk_pattern sk_level].
    change (should_log err info) with false. change (should_log trace info) with true.
    cbv beta iota.
    rewrite format_bare_message. unfold append_line, modify. rewrite Hf.
    eexists. split; [reflexivity|]. split; [|reflexivity].
    unfold file_lines. cbn. apply assoc_set_eq.
  - eexists. split; [reflexivity|]. split; [exact Hf | reflexivity].
Qed.

(** C20: when the logging directory does not exist, [logging_dir]
    becomes the empty string and every log file ["/<base>.<id>.log"]
    lies in the file-system root. *)
Theorem logging_dir_missing_uses_root opts w id base :
  dir_exists w (configured_logging_dir opts) = false -> no_slash base = true ->
  resolve_logging_dir opts w = (Normal (EmptyString, true), w) /\
  log_file_name EmptyString base id = ("/" ++ base ++ "." ++ to_string id ++ ".log")%string /\
  dirname (log_file_name EmptyString base id) = "/"%string.
Proof.
  intros Hd Hb. split; [now apply resolve_logging_dir_missing|].
  split; [reflexivity|]. now rewrite dirname_log_file_name.
Qed.

(** C21: [initialize] ignores its [ralHost] and [gpuId] arguments: the
    host is overwritten by [get_ip] and the GPU id is never read. *)
Theorem initialize_ignores_ralHost_gpuId ndebug id g1 g2 iface h1 h2 port single opts mode
    ip mp el w :
  initialize ndebug (mkInitArgs id g1 iface h1 port single opts mode ip mp el) w =
  initialize ndebug (mkInitArgs id g2 iface h2 port single opts mode ip mp el) w.
Proof. reflexivity. Qed.

(** ** Witnesses: the claims at concrete worlds and options *)

Local Open Scope string_scope.

Definition demo_device (used : Z) : device_resource :=
  mkDevice 17179869184 16106127360 used "pool_memory_resource".

Definition demo_world (dirs : list string) (used : Z) : World :=
  mkWorld dirs [] [("CUDA_VISIBLE_DEVICES", "0")] [("eth0", [10; 0; 0; 5])] [0; 0; 0; 0]
    (StdMap.of_list [("version", "1.0")]) (demo_device used) (mkTimestamp 2020 3 9 8 5 30 42)
    [] None warn None [] []%string.

Definition demo_args (opts : list (string * string)) : init_args :=
  mkInitArgs 0 0 "eth0" "127.0.0.1" 8890 false (StdMap.of_list opts) "pool_memory_resource"
    0 0 true.

Definition demo_quota : string * string := ("BLAZ_HOST_MEM_CONSUMPTION_THRESHOLD", "0.9")%string.

Lemma initialize_C_success_witness :
  exists w', initialize_C false (demo_args [demo_quota]) (demo_world ["blazing_log"] 0) =
             (Normal E_SUCCESS, w') /\
    w_loggers w' = expected_loggers "blazing_log" 0 "trace" 1073741824.
Proof.
  destruct (initialize_C_success false (demo_args [demo_quota]) (demo_world ["blazing_log"] 0)
              "blazing_log" false (95 # 100) 1048576 100 (9 # 10) (StdMap.of_list [demo_quota])
              "warn" "trace" 1073741824)
    as (w' & E & _ & L & _); try reflexivity; try lia.
  exists w'. split; assumption.
Defined.

Lemma initialize_C_late_settings_error_witness :
  exists w', initialize_C true
    (demo_args [demo_quota; ("LOGGING_MAX_SIZE_PER_FILE", "one GB")]) (demo_world ["blazing_log"] 0) =
    (Normal E_EXCEPTION, w') /\ w_loggers w' = [].
Proof.
  destruct (initialize_C_late_settings_error true
              (demo_args [demo_quota; ("LOGGING_MAX_SIZE_PER_FILE", "one GB")])
              (demo_world ["blazing_log"] 0) "blazing_log" false (95 # 100) 1048576 100 (9 # 10)
              (StdMap.of_list [demo_quota; ("LOGGING_MAX_SIZE_PER_FILE", "one GB")])
              (CppException InvalidArgument "stoi"))
    as (w' & E & _ & L); try reflexivity.
  exists w'. split; assumption.
Defined.

Lemma initialize_C_missing_dir_unwritable_root_witness :
  exists w', initialize_C false (demo_args [demo_quota]) (demo_world [] 0) =
             (Normal E_EXCEPTION, w') /\ w_loggers w' = [].
Proof.
  destruct (initialize_C_missing_dir_unwritable_root false (demo_args [demo_quota])
              (demo_world [] 0) (95 # 100) 1048576 100 (9 # 10) (StdMap.of_list [demo_quota])
              "warn" "trace" 1073741824)
    as (w' & E & _ & L); try reflexivity; try lia.
  exists w'. split; assumption.
Defined.

Lemma initialize_C_transport_error_witness :
  fst (initialize_C false (demo_args [demo_quota; ("TRANSPORT_BUFFER_BYTE_SIZE", "ten")])
         (demo_world ["blazing_log"] 0)) = Normal E_EXCEPTION.
Proof.
  rewrite (initialize_C_transport_error false
             (demo_args [demo_quota; ("TRANSPORT_BUFFER_BYTE_SIZE", "ten")])
             (demo_world ["blazing_log"] 0) "blazing_log" false (95 # 100)
             (CppException InvalidArgument "stoi")); reflexivity.
Defined.

Lemma initialize_C_host_quota_missing_witness :
  fst (initialize_C false (demo_args []) (demo_world ["blazing_log"] 0)) = Raised ProcessAbort /\
  fst (initialize_C true (demo_args []) (demo_world ["blazing_log"] 0)) = Normal E_EXCEPTION.
Proof.
  split.
  - rewrite (initialize_C_host_quota_missing false (demo_args []) (demo_world ["blazing_log"] 0)
               "blazing_log" false (95 # 100) 1048576 100); reflexivity.
  - rewrite (initialize_C_host_quota_missing true (demo_args []) (demo_world ["blazing_log"] 0)
               "blazing_log" false (95 # 100) 1048576 100); reflexivity.
Defined.

Lemma getFreeMemory_wraps_witness :
  getFreeMemory (demo_world [] 16106127361) = (Normal (SIZE_MODULUS - 1), demo_world [] 16106127361).
Proof.
  rewrite getFreeMemory_wraps; [reflexivity | |]; unfold is_size_t, SIZE_MODULUS; cbn; lia.
Defined.

Lemma read_transport_buffers_bounds_witness :
  SIZE_MODULUS + INT_MIN <= SIZE_MODULUS - 1 < SIZE_MODULUS.
Proof.
  destruct (read_transport_buffers_bounds
              (StdMap.of_list [("TRANSPORT_BUFFER_BYTE_SIZE", "-1")]%string) (SIZE_MODULUS - 1) 100)
    as [[H|H] _]; [reflexivity | | exact H].
  exfalso. unfold INT_MAX, SIZE_MODULUS in H. lia.
Defined.

Lemma transport_buffer_size_negative_wraps_witness :
  exists nb, read_transport_buffers (StdMap.of_list [("TRANSPORT_BUFFER_BYTE_SIZE", "-1")]%string) =
    Normal (-1 + SIZE_MODULUS, nb).
Proof.
  apply (transport_buffer_size_negative_wraps _ "-1" (-1)); [reflexivity | reflexivity | lia |].
  intros u Hu. vm_compute in Hu. discriminate Hu.
Defined.

Lemma read_logging_settings_max_size_bounds_witness :
  SIZE_MODULUS + INT_MIN <= SIZE_MODULUS - 5 < SIZE_MODULUS.
Proof.
  destruct (read_logging_settings_max_size_bounds
              (StdMap.of_list [("LOGGING_MAX_SIZE_PER_FILE", "-5")]%string) "warn" "trace"
              (SIZE_MODULUS - 5)) as [H|H]; [reflexivity | | exact H].
  exfalso. unfold INT_MAX, SIZE_MODULUS in H. lia.
Defined.

Lemma option_defaults_witness :
  read_transport_buffers StdMap.empty = Normal (1048576, 100).
Proof. apply (option_defaults StdMap.empty); reflexivity. Defined.

Lemma num_buffers_roundtrip_witness : 42 = 42.
Proof.
  apply (num_buffers_roundtrip
           (StdMap.of_list [("TRANSPORT_POOL_NUM_BUFFERS", "42")]%string) 42 1048576 42);
    reflexivity.
Defined.

Definition header_world : World :=
  mkWorld ["blazing_log"] [("blazing_log/bsql_queries.0.log", [])] [] [] [] []
    (demo_device 0) (mkTimestamp 2020 3 9 8 5 30 42)
    [("queries_logger",
      created_logger "blazing_log/bsql_queries.0.log" "queries_logger" 0 "err" 1073741824 true)]
    (Some (8192, 1)) warn None [] []%string.

Lemma write_header_effect_witness :
  exists w', write_header false "queries_logger" "ral_id|query_id|start_time|plan" header_world =
             (Normal tt, w') /\ file_lines w' "blazing_log/bsql_queries.0.log" = Some [].
Proof.
  destruct (write_header_effect false "queries_logger" "ral_id|query_id|start_time|plan"
              "blazing_log/bsql_queries.0.log" 0 "err" 1073741824 (8192, 1) [] header_world)
    as (w' & E & F & _); try reflexivity.
  exists w'. split; assumption.
Defined.

Lemma logging_dir_missing_uses_root_witness :
  dirname (log_file_name EmptyString "RAL" 3) = "/"%string.
Proof.
  apply (logging_dir_missing_uses_root (StdMap.of_list []) (demo_world [] 0) 3 "RAL");
    reflexivity.
Defined.

End Initialize.
