(* ===== verification/CacheMachine.v ===== *)
(** * The cache machine (specification, section 4.2)

    The buffer between one producing port and its consuming ports.  Its
    code is not among the repository's sources; it is modelled from the
    specification.  A cache holds one queue per consumer: one for the
    streaming ([SIMPLE]) and concatenating policies, [num_partitions]
    for the partitioned ([FOR_EACH]) policy.  [push] appends a batch (or
    reports that the producer must wait, or a routing error), [pull]
    takes the oldest batch of a consumer's queue (or reports that the
    consumer must wait, or the end of the stream), [finish] marks the
    stream complete.  The concatenating policy delivers, once finished,
    one batch holding every row pushed, then the end of the stream. *)

From stdpp Require Import base list.
From Stdlib Require Import ZArith Lia.
From S2P Require Import Prelude.

Module CacheMachine.

(** ** Data *)

(** One row: a value per column. *)
Definition row : Type := list Z.

Record Batch : Type := mkBatch {
  b_rows : list row;
  b_bytes : nat;
  b_partition : option nat
}.

Definition num_rows (b : Batch) : nat := length (b_rows b).

(** The error taxonomy of section 7. *)
Inductive GraphError : Type :=
| TopologyError
| RoutingError
| SchemaMismatchError
| CommunicationError
| ResourceExhaustedError.

Inductive CacheType : Type := SIMPLE | CONCATENATING | FOR_EACH.

Record cache_settings : Type := mkSettings {
  cs_type : CacheType;
  cs_num_partitions : nat;
  cs_capacity : option nat     (** bound of each queue; [None]: unbounded *)
}.

(** [cache_settings{}]: a streaming cache. *)
Definition default_settings (capacity : option nat) : cache_settings :=
  mkSettings SIMPLE 1 capacity.

Record cache : Type := mkCache {
  c_settings : cache_settings;
  c_queues : list (list Batch);
  c_finished : bool;
  c_delivered : bool           (** the concatenated batch was handed out *)
}.

(** Number of consumer queues of a policy. *)
Definition num_queues (s : cache_settings) : nat :=
  match cs_type s with FOR_EACH => cs_num_partitions s | _ => 1 end.

Definition create (s : cache_settings) : cache :=
  mkCache s (replicate (num_queues s) []) false false.

Definition queue (c : cache) (i : nat) : list Batch := default [] (c_queues c !! i).

Definition set_queue (c : cache) (i : nat) (q : list Batch) : cache :=
  mkCache (c_settings c) (<[i:=q]> (c_queues c)) (c_finished c) (c_delivered c).

(** ** Operations *)

Inductive push_result : Type :=
| Pushed (c : cache)
| PushBlocked                 (** the queue is at capacity: the producer waits *)
| PushClosed                  (** the producer already called [finish] *)
| PushFailed (e : GraphError).

(** The bound of a queue: only the streaming policy blocks its producer
    (section 5, suspension points). *)
Definition capacity_of (s : cache_settings) : option nat :=
  match cs_type s with SIMPLE => cs_capacity s | _ => None end.

Definition at_capacity (s : cache_settings) (q : list Batch) : bool :=
  match capacity_of s with Some cap => bool_decide (cap <= length q) | None => false end.

(** Append to queue [i], unless it is full. *)
Definition enqueue (c : cache) (i : nat) (b : Batch) : push_result :=
  if at_capacity (c_settings c) (queue c i) then PushBlocked
  else Pushed (set_queue c i (queue c i ++ [b])).

Definition push (c : cache) (b : Batch) : push_result :=
  if c_finished c then PushClosed
  else
    match cs_type (c_settings c) with
    | SIMPLE => enqueue c 0 b
    | CONCATENATING => Pushed (set_queue c 0 (queue c 0 ++ [b]))
    | FOR_EACH =>
        match b_partition b with
        | Some k => if bool_decide (k < num_queues (c_settings c)) then enqueue c k b
                    else PushFailed RoutingError
        | None => PushFailed RoutingError
        end
    end.

(** The consumer queue a pushed batch goes to. *)
Definition route (s : cache_settings) (b : Batch) : option nat :=
  match cs_type s with FOR_EACH => b_partition b | _ => Some 0 end.

Inductive pull_result : Type :=
| Got (b : Batch) (c : cache)
| PullWait                    (** empty and not finished: the consumer waits *)
| EndOfStream.

(** The batch that logically concatenates [bs]: rows in arrival order. *)
Definition concat_batches (bs : list Batch) : Batch :=
  mkBatch (concat (map b_rows bs)) (sum_list_with b_bytes bs) None.

(** [pull] by the consumer of queue [i] (the index is [0] except for the
    partitioned policy). *)
Definition pull (c : cache) (i : nat) : pull_result :=
  match cs_type (c_settings c) with
  | CONCATENATING =>
      if negb (c_finished c) then PullWait
      else if c_delivered c then EndOfStream
      else Got (concat_batches (queue c 0))
               (mkCache (c_settings c) (<[0:=[]]> (c_queues c)) true true)
  | _ =>
      match queue c i with
      | b :: q => Got b (set_queue c i q)
      | [] => if c_finished c then EndOfStream else PullWait
      end
  end.

Definition finish (c : cache) : cache :=
  mkCache (c_settings c) (c_queues c) true (c_delivered c).

(** ** Sequences of operations

    The producer and the consumers act on the cache one operation at a
    time; an interleaving is the list of their operations.  A refused
    push ([PushBlocked], [PushClosed], [PushFailed]) and a pull that
    waits or ends leave the cache as it was. *)

Inductive op : Type :=
| OPush (b : Batch)
| OPull (i : nat)
| OFinish.

(** The final cache, the batches delivered with the queue they came
    from, and the batches the cache accepted, each in order. *)
Fixpoint run (c : cache) (ops : list op) : cache * list (nat * Batch) * list Batch :=
  match ops with
  | [] => (c, [], [])
  | OPush b :: os =>
      match push c b with
      | Pushed c1 => let '(c2, d, a) := run c1 os in (c2, d, b :: a)
      | _ => run c os
      end
  | OPull i :: os =>
      match pull c i with
      | Got b c1 => let '(c2, d, a) := run c1 os in (c2, (i, b) :: d, a)
      | _ => run c os
      end
  | OFinish :: os => run (finish c) os
  end.

(** A consumer pulling from queue [i] until the end of the stream, with
    at most [fuel] pulls; [None] when it would wait or runs out. *)
Fixpoint drain (c : cache) (i : nat) (fuel : nat) : option (list Batch) :=
  match fuel with
  | O => None
  | S f =>
      match pull c i with
      | Got b c1 => b' ← drain c1 i f; Some (b :: b')
      | EndOfStream => Some []
      | PullWait => None
      end
  end.

(** What a consumer of queue [i] still has to receive once the stream
    is finished. *)
Definition pending (c : cache) (i : nat) : list Batch :=
  match cs_type (c_settings c) with
  | CONCATENATING => if c_delivered c then [] else [concat_batches (queue c 0)]
  | _ => queue c i
  end.

(** ** Rows a cache may hold

    [cache_rows_ok Q c]: every row of every queued batch satisfies [Q]. *)

Definition rows_ok (Q : row -> Prop) (b : Batch) : Prop := Forall Q (b_rows b).

Definition cache_rows_ok (Q : row -> Prop) (c : cache) : Prop := Forall (Forall (rows_ok Q)) (c_queues c).

(** ** Sample caches and batches *)

Definition demo_batch (p : option nat) (r : list row) : Batch := mkBatch r (8 * length r) p.
Definition b1 : Batch := demo_batch (Some 0) [[1; 2]]%Z.
Definition b2 : Batch := demo_batch (Some 1) [[3; 4]; [5; 6]]%Z.
Definition b3 : Batch := demo_batch (Some 1) [[7; 8]]%Z.

(** Two partitions; the capacity bounds streaming caches only. *)
Definition s_part : cache_settings := mkSettings FOR_EACH 2 (Some 1).
Definition s_cat : cache_settings := mkSettings CONCATENATING 1 None.

(** The consumer of partition 1 pulls between two pushes; an early pull
    of partition 0 waits. *)
Definition part_ops : list op :=
  [OPull 0; OPush b1; OPush b2; OPull 1; OPush b3; OFinish; OPull 1; OPull 1; OPull 0].

Definition cat_ops : list op :=
  [OPull 0; OPush b1; OPush b2; OPush b3; OPull 0; OFinish; OPull 0; OPull 0].

(** ** The invariant *)

(** A queue within the capacity of its cache. *)
Definition within (s : cache_settings) (q : list Batch) : Prop :=
  match capacity_of s with Some cap => length q <= cap | None => True end.

(** One queue per consumer, no queue beyond its capacity, and in a
    partitioned cache every batch in queue [i] tagged [i]. *)
Definition bounded (c : cache) : Prop :=
  forall i q, c_queues c !! i = Some q -> within (c_settings c) q.

Definition routed (c : cache) : Prop :=
  cs_type (c_settings c) = FOR_EACH ->
  forall i q b, c_queues c !! i = Some q -> b ∈ q -> b_partition b = Some i.

Definition wf (c : cache) : Prop :=
  length (c_queues c) = num_queues (c_settings c) /\ bounded c /\ routed c.

(** ** Lemmas on queues *)

Lemma filter_all {A} (P : A -> Prop) `{forall x, Decision (P x)} (l : list A) :
  (forall x, x ∈ l -> P x) -> filter P l = l.
Proof.
  induction l as [|x l IH]; intros Hl; [done|].
  rewrite filter_cons_True by (apply Hl, list_elem_of_here).
  f_equal. apply IH. intros y Hy. apply Hl, list_elem_of_further, Hy.
Qed.

Lemma queue_set_queue_eq c i q : i < length (c_queues c) -> queue (set_queue c i q) i = q.
Proof. intros H. unfold queue, set_queue. cbn. now rewrite list_lookup_insert_eq. Qed.

Lemma queue_set_queue_ne c i j q : i <> j -> queue (set_queue c i q) j = queue c j.
Proof. intros H. unfold queue, set_queue. cbn. now rewrite list_lookup_insert_ne. Qed.

Lemma set_queue_length c i q : length (c_queues (set_queue c i q)) = length (c_queues c).
Proof. apply length_insert. Qed.

Lemma queue_lookup c i : i < length (c_queues c) -> c_queues c !! i = Some (queue c i).
Proof.
  intros H. unfold queue. destruct (lookup_lt_is_Some_2 (c_queues c) i H) as [q Hq].
  now rewrite Hq.
Qed.

Lemma within_snoc s q b : at_capacity s q = false -> within s (q ++ [b]).
Proof.
  unfold at_capacity, within. destruct (capacity_of s) as [cap|]; [|done].
  rewrite length_app. cbn. intros H. apply bool_decide_eq_false in H. lia.
Qed.

Lemma within_tail s b q : within s (b :: q) -> within s q.
Proof. unfold within. destruct (capacity_of s); cbn; [lia | done]. Qed.

Lemma within_nil s : within s [].
Proof. unfold within. destruct (capacity_of s); cbn; [lia | done]. Qed.

Lemma bounded_set_queue c i q :
  bounded c -> within (c_settings c) q -> bounded (set_queue c i q).
Proof.
  intros Hb Hq j q' Hj. cbn in Hj. destruct (decide (i = j)) as [<-|Hne].
  - apply list_lookup_insert_Some in Hj as [(_ & <- & _)|(_ & Hj)]; [exact Hq | now apply (Hb i)].
  - rewrite list_lookup_insert_ne in Hj by exact Hne. now apply (Hb j).
Qed.

Lemma routed_set_queue c i q :
  routed c -> (cs_type (c_settings c) = FOR_EACH -> forall b, b ∈ q -> b_partition b = Some i) ->
  routed (set_queue c i q).
Proof.
  intros Hr Hq Ht j q' b Hj Hb. cbn in Hj. destruct (decide (i = j)) as [<-|Hne].
  - apply list_lookup_insert_Some in Hj as [(_ & <- & _)|(_ & Hj)]; [now apply Hq | eapply Hr; eauto].
  - rewrite list_lookup_insert_ne in Hj by exact Hne. eapply Hr; eauto.
Qed.

#[export] Hint Resolve queue_set_queue_eq queue_set_queue_ne set_queue_length : blazing.

Lemma within_concat s q : cs_type s = CONCATENATING -> within s q.
Proof. unfold within, capacity_of. now intros ->. Qed.

Lemma queue_in_range c i q : c_queues c !! i = Some q -> queue c i = q.
Proof. unfold queue. now intros ->. Qed.

(** [push] keeps the invariant. *)
Lemma push_wf c b c' : wf c -> push c b = Pushed c' -> wf c'.
Proof.
  intros (Hl & Hb & Hr). unfold push, enqueue.
  destruct (c_finished c); [discriminate|].
  destruct (cs_type (c_settings c)) eqn:T.
  - destruct (at_capacity _ _) eqn:A; [discriminate|]. intros [= <-].
    assert (H0 : 0 < length (c_queues c)) by (rewrite Hl; unfold num_queues; rewrite T; lia).
    split; [now rewrite set_queue_length|]. split.
    + apply bounded_set_queue; [exact Hb | now apply within_snoc].
    + apply routed_set_queue; [exact Hr | congruence].
  - intros [= <-]. split; [now rewrite set_queue_length|]. split.
    + apply bounded_set_queue; [exact Hb | now apply within_concat].
    + apply routed_set_queue; [exact Hr | congruence].
  - destruct (b_partition b) as [k|] eqn:P; [|discriminate].
    case_bool_decide as Hk; [|discriminate].
    destruct (at_capacity _ _) eqn:A; [discriminate|]. intros [= <-].
    split; [now rewrite set_queue_length|]. split.
    + apply bounded_set_queue; [exact Hb | now apply within_snoc].
    + apply routed_set_queue; [exact Hr|]. intros _ b' Hin.
      apply elem_of_app in Hin as [Hin|Hin].
      * eapply Hr; [exact T | apply queue_lookup; lia | exact Hin].
      * apply list_elem_of_singleton in Hin. now subst.
Qed.

(** [pull] keeps the invariant. *)
Lemma pull_wf c i b c' : wf c -> pull c i = Got b c' -> wf c'.
Proof.
  intros (Hl & Hb & Hr). unfold pull.
  destruct (cs_type (c_settings c)) eqn:T.
  2: destruct (c_finished c), (c_delivered c); cbn; try discriminate; intros [= <- <-];
     split; [cbn; now rewrite length_insert|]; split;
     [ intros j q' Hj; now apply within_concat
     | intros Ht; cbn in Ht; congruence ].
  all: destruct (queue c i) as [|b0 q] eqn:Q;
    [destruct (c_finished c); discriminate | intros [= <- <-]].
  all: assert (Hi : i < length (c_queues c)) by
    (apply not_ge; intros Hge; unfold queue in Q; rewrite lookup_ge_None_2 in Q by lia; discriminate).
  all: split; [now rewrite set_queue_length|]; split;
    [ apply bounded_set_queue; [exact Hb|]; eapply within_tail; rewrite <- Q;
      apply (Hb i); now apply queue_lookup
    | apply routed_set_queue; [exact Hr|]; intros Ht b' Hin;
      eapply Hr; [exact Ht | apply queue_lookup; exact Hi | rewrite Q; now apply list_elem_of_further ] ].
Qed.

Lemma finish_wf c : wf c -> wf (finish c).
Proof. intros (Hl & Hb & Hr). split; [exact Hl|]. split; [exact Hb | exact Hr]. Qed.

Lemma create_wf s : wf (create s).
Proof.
  split; [apply length_replicate|]. split.
  - intros i q Hi. apply lookup_replicate in Hi as [-> _]. apply within_nil.
  - intros _ i q b Hi Hb. apply lookup_replicate in Hi as [-> _]. now apply not_elem_of_nil in Hb.
Qed.

(** A freshly created cache satisfies the invariant (one queue per
    consumer, each within the capacity, partition tags matching the
    queue) and [push], [pull] and [finish] preserve it. *)
Theorem cache_invariant s c b b' c' c'' i :
  wf (create s) /\
  (wf c -> push c b = Pushed c' -> wf c') /\
  (wf c -> pull c i = Got b' c'' -> wf c'') /\
  (wf c -> wf (finish c)).
Proof.
  split; [apply create_wf|]. split; [apply push_wf|]. split; [apply pull_wf | apply finish_wf].
Qed.

(** ** Lemmas on the operations *)

Lemma push_settings c b c' : push c b = Pushed c' -> c_settings c' = c_settings c.
Proof.
  unfold push, enqueue. destruct (c_finished c); [discriminate|].
  destruct (cs_type _); [| intros [= <-]; reflexivity |].
  2: destruct (b_partition b); [case_bool_decide|]; try discriminate.
  all: destruct (at_capacity _ _); [discriminate | intros [= <-]; reflexivity].
Qed.

Lemma pull_settings c i b c' : pull c i = Got b c' -> c_settings c' = c_settings c.
Proof.
  unfold pull. destruct (cs_type _).
  2: destruct (c_finished c), (c_delivered c); cbn; try discriminate; intros [= _ <-]; reflexivity.
  all: destruct (queue c i); [destruct (c_finished c); discriminate | intros [= _ <-]; reflexivity].
Qed.

(** Only an open cache accepts a batch, and it stays open. *)
Lemma push_finished c b c' : push c b = Pushed c' -> c_finished c = false /\ c_finished c' = false.
Proof.
  unfold push, enqueue. destruct (c_finished c) eqn:F; [discriminate|].
  destruct (cs_type _); [| intros [= <-]; done |].
  2: destruct (b_partition b); [case_bool_decide|]; try discriminate.
  all: destruct (at_capacity _ _); [discriminate | intros [= <-]; done].
Qed.

(** A pull never reopens a finished cache. *)
Lemma pull_finished c i b c' : pull c i = Got b c' -> c_finished c = true -> c_finished c' = true.
Proof.
  unfold pull. destruct (cs_type _).
  2: destruct (c_finished c), (c_delivered c); cbn; try discriminate; intros [= _ <-]; done.
  all: destruct (queue c i); [destruct (c_finished c); discriminate | intros [= _ <-]; done].
Qed.

Lemma queue_out_of_range c i : length (c_queues c) <= i -> queue c i = [].
Proof. intros H. unfold queue. now rewrite lookup_ge_None_2. Qed.

(** A pull from a streaming or partitioned cache takes the head of the
    consumer's queue. *)
Lemma pull_stream c i b c' :
  cs_type (c_settings c) <> CONCATENATING -> pull c i = Got b c' ->
  i < length (c_queues c) /\ queue c i = b :: queue c' i /\
  forall j, j <> i -> queue c' j = queue c j.
Proof.
  intros Ht. unfold pull. destruct (cs_type _); [| contradiction |].
  all: destruct (queue c i) as [|b0 q] eqn:Q;
    [destruct (c_finished c); discriminate | intros [= <- <-]].
  all: assert (Hi : i < length (c_queues c)) by
    (apply not_ge; intros Hge; rewrite queue_out_of_range in Q by lia; discriminate).
  all: split; [exact Hi | split; [now rewrite queue_set_queue_eq | intros j Hj; now apply queue_set_queue_ne]].
Qed.

(** A push to a streaming or partitioned cache appends to the queue
    named by the batch. *)
Lemma push_stream c b c' :
  cs_type (c_settings c) <> CONCATENATING -> wf c -> push c b = Pushed c' ->
  exists k, k < length (c_queues c) /\
    (cs_type (c_settings c) = SIMPLE -> k = 0) /\
    (cs_type (c_settings c) = FOR_EACH -> b_partition b = Some k) /\
    queue c' k = queue c k ++ [b] /\ forall j, j <> k -> queue c' j = queue c j.
Proof.
  intros Ht (Hl & _). unfold push, enqueue. destruct (c_finished c); [discriminate|].
  destruct (cs_type _) eqn:T; [| contradiction |].
  2: destruct (b_partition b) as [k|] eqn:P; [case_bool_decide as Hk|]; try discriminate.
  all: destruct (at_capacity _ _); [discriminate | intros [= <-]].
  - assert (H0 : 0 < length (c_queues c)) by (rewrite Hl; unfold num_queues; rewrite T; lia).
    exists 0. repeat split; try done. now rewrite queue_set_queue_eq.
    intros j Hj. now apply queue_set_queue_ne.
  - assert (Hk' : k < length (c_queues c)) by (rewrite Hl; exact Hk).
    exists k. repeat split; try done. now rewrite queue_set_queue_eq.
    intros j Hj. now apply queue_set_queue_ne.
Qed.

Lemma run_settings c ops c' d a : run c ops = (c', d, a) -> c_settings c' = c_settings c.
Proof.
  revert c d a. induction ops as [|[b|i|] os IH]; intros c d a; cbn.
  - now intros [= <- _ _].
  - destruct (push c b) as [c1| | |] eqn:E; try apply IH.
    destruct (run c1 os) as [[c2 d2] a2] eqn:R. intros [= <- _ _].
    rewrite (IH _ _ _ R). now apply push_settings in E.
  - destruct (pull c i) as [b c1| |] eqn:E; try apply IH.
    destruct (run c1 os) as [[c2 d2] a2] eqn:R. intros [= <- _ _].
    rewrite (IH _ _ _ R). now apply pull_settings in E.
  - intros R. now rewrite (IH _ _ _ R).
Qed.

Lemma run_wf c ops c' d a : wf c -> run c ops = (c', d, a) -> wf c'.
Proof.
  revert c d a. induction ops as [|[b|i|] os IH]; intros c d a Hw; cbn.
  - now intros [= <- _ _].
  - destruct (push c b) as [c1| | |] eqn:E; try now apply IH.
    destruct (run c1 os) as [[c2 d2] a2] eqn:R. intros [= <- _ _].
    eapply IH; [eapply push_wf; eauto | exact R].
  - destruct (pull c i) as [b c1| |] eqn:E; try now apply IH.
    destruct (run c1 os) as [[c2 d2] a2] eqn:R. intros [= <- _ _].
    eapply IH; [eapply pull_wf; eauto | exact R].
  - apply IH, finish_wf, Hw.
Qed.

Lemma push_route c b c' k :
  cs_type (c_settings c) <> CONCATENATING -> wf c -> push c b = Pushed c' ->
  queue c' k = queue c k ++ filter (fun b' => route (c_settings c) b' = Some k) [b].
Proof.
  intros Ht Hw E. destruct (push_stream c b c' Ht Hw E) as (k0 & _ & H0 & HF & Hq & Hne).
  assert (Hr : route (c_settings c) b = Some k0).
  { unfold route. destruct (cs_type _); [now rewrite H0 | contradiction | now apply HF]. }
  destruct (decide (k = k0)) as [->|Hk].
  - rewrite filter_cons_True by exact Hr. exact Hq.
  - rewrite filter_cons_False by congruence. rewrite app_nil_r. now apply Hne.
Qed.

Lemma pull_route c i b c' k :
  cs_type (c_settings c) <> CONCATENATING -> pull c i = Got b c' ->
  queue c k = map snd (filter (fun p : nat * Batch => p.1 = k) [(i, b)]) ++ queue c' k.
Proof.
  intros Ht E. destruct (pull_stream c i b c' Ht E) as (_ & Hq & Hne).
  destruct (decide (i = k)) as [<-|Hk].
  - rewrite filter_cons_True by reflexivity. exact Hq.
  - rewrite filter_cons_False by (cbn; congruence). symmetry. now apply Hne.
Qed.

(** In a streaming or partitioned cache, under any interleaving of
    pushes, pulls and finish, the batches consumer [k] received followed
    by those still in its queue are the batches its queue held followed
    by the accepted batches routed to it, in push order: nothing is lost,
    duplicated or reordered. *)
Theorem run_fifo c ops c' d a k :
  cs_type (c_settings c) <> CONCATENATING -> wf c -> run c ops = (c', d, a) ->
  map snd (filter (fun p : nat * Batch => p.1 = k) d) ++ queue c' k =
  queue c k ++ filter (fun b => route (c_settings c) b = Some k) a.
Proof.
  revert c d a. induction ops as [|[b|i|] os IH]; intros c d a Ht Hw; cbn.
  - intros [= <- <- <-]. cbn. now rewrite app_nil_r.
  - destruct (push c b) as [c1| | |] eqn:E; try now apply IH.
    destruct (run c1 os) as [[c2 d2] a2] eqn:R. intros [= <- <- <-].
    pose proof (push_settings _ _ _ E) as S1.
    rewrite (IH c1 d2 a2), S1 by (rewrite ?S1; eauto using push_wf).
    rewrite (push_route c b c1 k Ht Hw E), <- app_assoc. f_equal.
    now rewrite <- filter_app.
  - destruct (pull c i) as [b c1| |] eqn:E; try now apply IH.
    destruct (run c1 os) as [[c2 d2] a2] eqn:R. intros [= <- <- <-].
    pose proof (pull_settings _ _ _ _ E) as S1.
    rewrite (pull_route c i b c1 k Ht E), <- S1, <- app_assoc, <- (IH c1 d2 a2)
      by (rewrite ?S1; eauto using pull_wf).
    change ((i, b) :: d2) with ([(i, b)] ++ d2). rewrite filter_app, map_app. now rewrite app_assoc.
  - intros R. exact (IH (finish c) d a Ht (finish_wf c Hw) R).
Qed.

(** ** The concatenating policy *)

(** Once the concatenated batch is handed out, a concatenating cache
    accepts and delivers nothing more. *)
Lemma run_concat_delivered c ops c' d a :
  cs_type (c_settings c) = CONCATENATING -> c_delivered c = true -> c_finished c = true ->
  run c ops = (c', d, a) -> d = [] /\ a = [].
Proof.
  revert c d a. induction ops as [|[b|i|] os IH]; intros c d a Ht Hd Hf; cbn.
  - now intros [= _ <- <-].
  - unfold push at 1. rewrite Hf. now apply IH.
  - unfold pull at 1. rewrite Ht, Hf, Hd. cbn. now apply IH.
  - now apply IH.
Qed.

Lemma run_concat c ops c' d a :
  cs_type (c_settings c) = CONCATENATING -> wf c -> c_delivered c = false ->
  run c ops = (c', d, a) ->
  (d = [] /\ queue c' 0 = queue c 0 ++ a) \/ map snd d = [concat_batches (queue c 0 ++ a)].
Proof.
  revert c d a. induction ops as [|[b|i|] os IH]; intros c d a Ht Hw Hd; cbn.
  - intros [= <- <- <-]. left. now rewrite app_nil_r.
  - destruct (push c b) as [c1| | |] eqn:E; try now apply IH.
    destruct (run c1 os) as [[c2 d2] a2] eqn:R. intros [= <- <- <-].
    assert (Hq : queue c1 0 = queue c 0 ++ [b] /\ c_delivered c1 = false).
    { revert E. unfold push. rewrite Ht. destruct (c_finished c); [discriminate|].
      intros [= <-]. split; [|exact Hd]. apply queue_set_queue_eq.
      destruct Hw as [Hl _]. rewrite Hl. unfold num_queues. rewrite Ht. lia. }
    destruct Hq as [Hq Hd1]. pose proof (push_settings _ _ _ E) as S1.
    destruct (IH c1 d2 a2) as [[-> Hq2]|Hd2]; try (rewrite ?S1; eauto using push_wf).
    + left. split; [reflexivity|]. rewrite Hq2, Hq. now rewrite <- app_assoc.
    + right. rewrite Hd2, Hq. now rewrite <- app_assoc.
  - destruct (pull c i) as [b c1| |] eqn:E; try now apply IH.
    destruct (run c1 os) as [[c2 d2] a2] eqn:R. intros [= <- <- <-].
    revert E. unfold pull. rewrite Ht, Hd. destruct (c_finished c) eqn:Hf; cbn; [|discriminate].
    intros [= <- <-]. apply run_concat_delivered in R as [-> ->]; [| exact Ht | reflexivity..].
    right. cbn. now rewrite app_nil_r.
  - intros R. exact (IH (finish c) d a Ht (finish_wf c Hw) Hd R).
Qed.

(** A concatenating cache started empty hands out, under any
    interleaving, either nothing yet or exactly one batch, and that batch
    holds every batch the cache accepted, in push order. *)
Theorem concat_delivers_all s ops c' d a :
  cs_type s = CONCATENATING -> run (create s) ops = (c', d, a) ->
  map snd d = [] \/ map snd d = [concat_batches a].
Proof.
  intros Ht R. destruct (run_concat (create s) ops c' d a Ht (create_wf s) eq_refl R)
    as [[-> _]|Hd]; [now left | right].
  rewrite Hd. unfold queue, create. cbn. rewrite lookup_replicate_2; [reflexivity|].
  unfold num_queues. rewrite Ht. lia.
Qed.

(** ** Routing, draining and the end of the stream *)

Lemma pull_routed c i b c' :
  cs_type (c_settings c) = FOR_EACH -> wf c -> pull c i = Got b c' -> b_partition b = Some i.
Proof.
  intros Ht (_ & _ & Hr) E. destruct (pull_stream c i b c') as (Hi & Hq & _); [congruence | exact E|].
  eapply Hr; [exact Ht | apply queue_lookup, Hi | rewrite Hq; apply list_elem_of_here].
Qed.

(** In a partitioned cache every batch a consumer receives, under
    any interleaving, carries the partition of that consumer's queue: no
    batch leaks across partitions. *)
Theorem for_each_no_leak c ops c' d a i b :
  cs_type (c_settings c) = FOR_EACH -> wf c -> run c ops = (c', d, a) ->
  (i, b) ∈ d -> b_partition b = Some i.
Proof.
  revert c d a. induction ops as [|[b0|j|] os IH]; intros c d a Ht Hw; cbn.
  - intros [= <- <- _] Hin. now apply not_elem_of_nil in Hin.
  - destruct (push c b0) as [c1| | |] eqn:E; try now apply IH.
    destruct (run c1 os) as [[c2 d2] a2] eqn:R. intros [= <- <- _].
    pose proof (push_settings _ _ _ E) as S1.
    eapply IH; [rewrite S1; exact Ht | eapply push_wf; eauto | exact R].
  - destruct (pull c j) as [b1 c1| |] eqn:E; try now apply IH.
    destruct (run c1 os) as [[c2 d2] a2] eqn:R. intros [= <- <- _] Hin.
    pose proof (pull_settings _ _ _ _ E) as S1.
    apply elem_of_cons in Hin as [[= -> ->]|Hin]; [eapply pull_routed; eauto|].
    eapply IH; [rewrite S1; exact Ht | eapply pull_wf; eauto | exact R | exact Hin].
  - apply IH; [exact Ht | apply finish_wf, Hw].
Qed.

(** A streaming or partitioned cache delivers only to the consumers it
    has queues for. *)
Lemma run_delivered_index c ops c' d a i b :
  cs_type (c_settings c) <> CONCATENATING -> wf c -> run c ops = (c', d, a) ->
  (i, b) ∈ d -> i < num_queues (c_settings c).
Proof.
  revert c d a. induction ops as [|[b0|j|] os IH]; intros c d a Ht Hw; cbn.
  - intros [= <- <- _] Hin. now apply not_elem_of_nil in Hin.
  - destruct (push c b0) as [c1| | |] eqn:E; try now apply IH.
    destruct (run c1 os) as [[c2 d2] a2] eqn:R. intros [= <- <- _].
    pose proof (push_settings _ _ _ E) as S1. rewrite <- S1.
    eapply IH; [rewrite S1; exact Ht | eapply push_wf; eauto | exact R].
  - destruct (pull c j) as [b1 c1| |] eqn:E; try now apply IH.
    destruct (run c1 os) as [[c2 d2] a2] eqn:R. intros [= <- <- _] Hin.
    pose proof (pull_settings _ _ _ _ E) as S1.
    apply elem_of_cons in Hin as [[= -> ->]|Hin].
    + destruct (pull_stream c j b1 c1 Ht E) as (Hi & _). destruct Hw as [Hl _]. lia.
    + rewrite <- S1. eapply IH; [rewrite S1; exact Ht | eapply pull_wf; eauto | exact R | exact Hin].
  - apply IH; [exact Ht | apply finish_wf, Hw].
Qed.

Lemma drain_stream c i fuel :
  cs_type (c_settings c) <> CONCATENATING -> c_finished c = true ->
  S (length (queue c i)) <= fuel -> drain c i fuel = Some (queue c i).
Proof.
  remember (queue c i) as q eqn:Q. revert c fuel Q.
  induction q as [|b q IH]; intros c fuel Q Ht Hf Hfuel;
    (destruct fuel as [|fuel]; [cbn in Hfuel; lia|]); cbn; unfold pull.
  - destruct (cs_type _); [| contradiction |]; now rewrite <- Q, Hf.
  - assert (Hi : i < length (c_queues c)) by
      (apply not_ge; intros Hge; rewrite queue_out_of_range in Q by lia; discriminate).
    destruct (cs_type _) eqn:T; [| contradiction |]; rewrite <- Q;
    (rewrite (IH (set_queue c i q)); [reflexivity | now rewrite queue_set_queue_eq
      | cbn; now rewrite T | exact Hf | cbn in Hfuel; lia]).
Qed.

(** Once the producer has finished, a consumer of queue [i] that
    keeps pulling receives exactly what is pending for it (the rest of
    its queue, or the one concatenated batch) and then the end of the
    stream, within [length (queue c i) + 2] pulls: it never waits. *)
Theorem drain_after_finish c i fuel :
  c_finished c = true -> length (queue c i) + 2 <= fuel -> drain c i fuel = Some (pending c i).
Proof.
  intros Hf Hfuel. unfold pending.
  destruct (cs_type (c_settings c)) eqn:T; try (apply drain_stream; [congruence | exact Hf | lia]).
  destruct fuel as [|[|fuel]]; [lia | lia|]. cbn. unfold pull.
  rewrite T, Hf. destruct (c_delivered c); cbn; [reflexivity|].
  rewrite T. reflexivity.
Qed.

Lemma push_after_finish c b : c_finished c = true -> push c b = PushClosed.
Proof. intros Hf. unfold push. now rewrite Hf. Qed.

Lemma pull_after_finish c i : c_finished c = true -> pull c i <> PullWait.
Proof.
  intros Hf. unfold pull. rewrite Hf.
  destruct (cs_type _); cbn; [| destruct (c_delivered c); discriminate |];
    destruct (queue c i); discriminate.
Qed.

(** Without a bound a push never blocks. *)
Lemma push_unbounded c b : capacity_of (c_settings c) = None -> push c b <> PushBlocked.
Proof.
  intros Hc. unfold push, enqueue, at_capacity. rewrite Hc.
  destruct (c_finished c); [discriminate|].
  destruct (cs_type _); try discriminate.
  destruct (b_partition b); [case_bool_decide|]; discriminate.
Qed.

(** A pull waits only on an open cache. *)
Lemma pull_wait_open c i : pull c i = PullWait -> c_finished c = false.
Proof.
  intros P. destruct (c_finished c) eqn:F; [|done]. exfalso. now apply (pull_after_finish c i F).
Qed.

(** After [finish] the cache refuses every push, and no pull answers
    "wait": a consumer gets a batch or the end of the stream. *)
Theorem after_finish c b i :
  c_finished c = true -> push c b = PushClosed /\ pull c i <> PullWait.
Proof. intros Hf. split; [now apply push_after_finish | now apply pull_after_finish]. Qed.

(** ** Rows through a cache *)

Lemma queue_rows_ok Q c i : cache_rows_ok Q c -> Forall (rows_ok Q) (queue c i).
Proof.
  intros H. unfold queue. destruct (c_queues c !! i) as [q|] eqn:E; cbn; [|constructor].
  exact (Forall_lookup_1 _ _ _ _ H E).
Qed.

Lemma set_queue_rows_ok Q c i q :
  cache_rows_ok Q c -> Forall (rows_ok Q) q -> cache_rows_ok Q (set_queue c i q).
Proof. intros H Hq. unfold cache_rows_ok, set_queue. cbn. now apply Forall_insert. Qed.

(** A push of a batch of good rows keeps a cache's rows good. *)
Lemma push_rows_ok Q c b c' :
  cache_rows_ok Q c -> rows_ok Q b -> push c b = Pushed c' -> cache_rows_ok Q c'.
Proof.
  intros H Hb. unfold push, enqueue. destruct (c_finished c); [discriminate|].
  assert (Hq : forall i, Forall (rows_ok Q) (queue c i ++ [b])).
  { intros i. apply Forall_app. split; [now apply queue_rows_ok | now constructor]. }
  destruct (cs_type _); [| intros [= <-]; now apply set_queue_rows_ok |].
  2: destruct (b_partition b); [case_bool_decide|]; try discriminate.
  all: destruct (at_capacity _ _); [discriminate | intros [= <-]; now apply set_queue_rows_ok].
Qed.

(** A pull hands out a batch of good rows and keeps the rest good. *)
Lemma pull_rows_ok Q c i b c' :
  cache_rows_ok Q c -> pull c i = Got b c' -> rows_ok Q b /\ cache_rows_ok Q c'.
Proof.
  intros H. unfold pull. destruct (cs_type _).
  2: { destruct (c_finished c), (c_delivered c); cbn; try discriminate. intros [= <- <-]. split.
       - unfold rows_ok, concat_batches. cbn. apply Forall_concat, Forall_fmap.
         eapply Forall_impl; [apply (queue_rows_ok Q c 0 H)|]. intros b0 Hb0. exact Hb0.
       - unfold cache_rows_ok. cbn. apply Forall_insert; [exact H | constructor]. }
  all: pose proof (queue_rows_ok Q c i H) as Hq.
  all: destruct (queue c i) as [|b0 q]; [destruct (c_finished c); discriminate | intros [= <- <-]].
  all: apply Forall_cons in Hq as [Hb0 Hq]; split; [exact Hb0 | now apply set_queue_rows_ok].
Qed.

Lemma finish_rows_ok Q c : cache_rows_ok Q c -> cache_rows_ok Q (finish c).
Proof. done. Qed.

Lemma create_rows_ok Q s : cache_rows_ok Q (create s).
Proof. apply Forall_replicate. constructor. Qed.

(** ** Witnesses *)

Lemma cache_invariant_witness :
  exists c', push (create s_part) b2 = Pushed c' /\ wf c'.
Proof.
  eexists. split; [reflexivity|].
  eapply (proj1 (proj2 (cache_invariant s_part (create s_part) b2 b2 _ (create s_part) 0))).
  - exact (proj1 (cache_invariant s_part (create s_part) b2 b2 (create s_part) (create s_part) 0)).
  - reflexivity.
Defined.

Lemma run_fifo_witness :
  exists c', run (create s_part) part_ops = (c', [(1, b2); (1, b3); (0, b1)], [b1; b2; b3]) /\
  map snd (filter (fun p : nat * Batch => p.1 = 1) [(1, b2); (1, b3); (0, b1)]) ++ queue c' 1 =
  queue (create s_part) 1 ++
    filter (fun b => route (c_settings (create s_part)) b = Some 1) [b1; b2; b3].
Proof.
  eexists. split; [vm_compute; reflexivity|].
  apply (run_fifo (create s_part) part_ops); [discriminate | apply create_wf | vm_compute; reflexivity].
Defined.

Lemma concat_delivers_all_witness :
  exists c', run (create s_cat) cat_ops = (c', [(0, concat_batches [b1; b2; b3])], [b1; b2; b3]) /\
  (map snd [(0, concat_batches [b1; b2; b3])] = [] \/
   map snd [(0, concat_batches [b1; b2; b3])] = [concat_batches [b1; b2; b3]]).
Proof.
  eexists. split; [vm_compute; reflexivity|].
  eapply (concat_delivers_all s_cat cat_ops); reflexivity.
Defined.

Lemma for_each_no_leak_witness :
  exists c', run (create s_part) part_ops = (c', [(1, b2); (1, b3); (0, b1)], [b1; b2; b3]) /\
  b_partition b3 = Some 1.
Proof.
  eexists. split; [vm_compute; reflexivity|].
  eapply (for_each_no_leak (create s_part) part_ops _ [(1, b2); (1, b3); (0, b1)] [b1; b2; b3]);
    [reflexivity | apply create_wf | reflexivity | by repeat constructor].
Defined.

Lemma drain_after_finish_witness :
  drain (finish (mkCache s_part [[b1]; [b2; b3]] false false)) 1 4 =
  Some (pending (finish (mkCache s_part [[b1]; [b2; b3]] false false)) 1).
Proof. apply drain_after_finish; [reflexivity | cbn; lia]. Defined.

Lemma after_finish_witness :
  push (finish (create s_cat)) b1 = PushClosed /\ pull (finish (create s_cat)) 0 <> PullWait.
Proof. apply after_finish. reflexivity. Defined.

End CacheMachine.
