(* ===== verification/Context.v ===== *)
(** * Nodes, addresses and the query context (specification, sections 3 and 4.4)

    [blazingdb::transport::experimental::Address], [Node] and
    [blazingdb::manager::experimental::Context] are not among the
    repository's sources; they are modelled from the specification and
    from the way the graph tests build them: [Address::TCP(ip, port,
    protocol_port)], [Node(address)], and [Context{token, nodes,
    master, logging_placeholder}].  A context is read-only: it exposes
    the token, the number of nodes, the nodes and the local node, and
    the index of a node (its partition index). *)

From stdpp Require Import base list strings.
From Stdlib Require Import ZArith Lia.
From S2P Require Import Prelude.

Module Context.

Record Address : Type := TCP {
  a_ip : string;
  a_communication_port : Z;
  a_protocol_port : Z
}.

Record Node : Type := mkNode { n_address : Address }.

#[export] Instance Address_eq_dec : EqDecision Address.
Proof. solve_decision. Defined.

#[export] Instance Node_eq_dec : EqDecision Node.
Proof. solve_decision. Defined.

Record Context : Type := mkContext {
  ctx_token : Z;
  ctx_nodes : list Node;      (** order = partition-index order *)
  ctx_master : Node;          (** the local node *)
  ctx_logging : string
}.

(** [getTotalNodes]: the node count. *)
Definition getTotalNodes (c : Context) : nat := length (ctx_nodes c).

(** The position of [n] among the nodes, searched from the front. *)
Fixpoint index_of (n : Node) (ns : list Node) : option nat :=
  match ns with
  | [] => None
  | m :: ns' => if decide (n = m) then Some 0 else S <$> index_of n ns'
  end.

(** [getNodeIndex]: the partition index of a node. *)
Definition getNodeIndex (c : Context) (n : Node) : option nat := index_of n (ctx_nodes c).

(** The partition index of the local node. *)
Definition localIndex (c : Context) : option nat := getNodeIndex c (ctx_master c).

(** Nodes are unique and the local node is one of them (section 3). *)
Definition wf (c : Context) : Prop := NoDup (ctx_nodes c) /\ ctx_master c ∈ ctx_nodes c.

#[export] Instance wf_dec c : Decision (wf c).
Proof. unfold wf. apply _. Defined.

(** ** Lemmas *)

Lemma index_of_lookup n ns i : index_of n ns = Some i -> ns !! i = Some n.
Proof.
  revert i. induction ns as [|m ns IH]; intros i; cbn; [discriminate|].
  case_decide as E; [intros [= <-]; now subst|].
  destruct (index_of n ns) as [j|] eqn:J; cbn; [intros [= <-]; now apply IH | discriminate].
Qed.

Lemma index_of_elem n ns : n ∈ ns -> is_Some (index_of n ns).
Proof.
  induction ns as [|m ns IH]; cbn; intros Hn; [now apply not_elem_of_nil in Hn|].
  case_decide; [now eexists|]. apply elem_of_cons in Hn as [->|Hn]; [done|].
  destruct (IH Hn) as [j ->]. now eexists.
Qed.

Lemma index_of_nodup ns i n : NoDup ns -> ns !! i = Some n -> index_of n ns = Some i.
Proof.
  revert i. induction ns as [|m ns IH]; intros i Hnd Hi; [discriminate|]. cbn.
  apply NoDup_cons in Hnd as [Hm Hnd]. destruct i as [|i]; cbn in Hi.
  - injection Hi as ->. now rewrite decide_True.
  - rewrite decide_False by (intros ->; apply Hm; eapply list_elem_of_lookup_2, Hi).
    now rewrite (IH i).
Qed.

(** The local node of a well-formed context has an index below the node
    count, and that index gives the local node back. *)
Lemma localIndex_spec c :
  wf c -> exists i, localIndex c = Some i /\ i < getTotalNodes c /\ ctx_nodes c !! i = Some (ctx_master c).
Proof.
  intros [_ Hm]. unfold localIndex, getNodeIndex.
  destruct (index_of_elem _ _ Hm) as [i Hi]. exists i.
  pose proof (index_of_lookup _ _ _ Hi) as Hl.
  split; [exact Hi | split; [eapply lookup_lt_Some, Hl | exact Hl]].
Qed.

End Context.
