(* ===== verification/Kernel.v ===== *)
(** * Kernels (specification, sections 3, 4.3 and 7)

    The kernel classes the graph tests instantiate ([GeneratorKernel],
    [FileReaderKernel], [FilterKernel], [ProjectKernel], [JoinKernel],
    [SortKernel], [SortAndSampleKernel], [PartitionKernel],
    [MergeStreamKernel], [PrinterKernel]) are not among the repository's
    sources; they are modelled from the specification as a closed
    variant type with their named ports and their processing loop.  The
    row-level compute routines are an excluded collaborator: the class
    [Evaluator] gives the meaning of the opaque expression strings
    (selection, projection, join condition, sort order) and the data of
    the sources, and [EvaluatorLaws] what the kernels rely on.

    A kernel task is a state machine: [Created], [Running], then [Done]
    or [Failed].  One atomic step of a running task pushes the oldest
    pending result to an output cache, or pulls from the input the
    current phase names, or finishes every output cache and settles.  A
    failure force-finishes the kernel's output caches in the same step. *)

From stdpp Require Import base list strings sorting sets.
From Stdlib Require Import ZArith Lia.
From S2P Require Import Prelude CacheMachine Context.

Module Kernel.
Import CacheMachine Context.

(** ** The compute collaborator *)

Class Evaluator : Type := {
  ev_generate : nat -> list row;               (** [GeneratorKernel(n)]: its [n] rows *)
  ev_read : string -> list row;                (** [FileReaderKernel]: the rows of one file *)
  ev_filter : string -> row -> bool;           (** the selection of a filter expression *)
  ev_project : string -> row -> row;           (** the projection list *)
  ev_join_ok : string -> bool;                 (** the join-key column types agree *)
  ev_join : string -> row -> row -> bool;      (** the join condition on a pair of rows *)
  ev_le : string -> row -> row -> bool         (** the order of the sort keys *)
}.

Class EvaluatorLaws `{Evaluator} : Prop := {
  ev_generate_length n : length (ev_generate n) = n;
  ev_le_total e a b : ev_le e a b = true \/ ev_le e b a = true;
  ev_le_trans e a b c : ev_le e a b = true -> ev_le e b c = true -> ev_le e a c = true
}.

Section Kernels.
Context `{Evaluator}.

(** ** Kernel classes and their ports *)

Inductive kind : Type :=
| GeneratorKernel (n : nat)
| FileReaderKernel (paths : list string)
| FilterKernel (expr : string)
| ProjectKernel (expr : string)
| JoinKernel (expr : string)
| SortKernel (expr : string)
| SortAndSampleKernel (expr : string)
| PartitionKernel (expr : string) (ctx : Context)
| MergeStreamKernel (expr : string) (ctx : Context)
| PrinterKernel
| FailingKernel (e : GraphError).             (** the always-failing kernel of section 8 *)

(** The port [a >> b] connects when no name is given. *)
Definition default_port : string := "default".

Definition input_ports (k : kind) : list string :=
  match k with
  | GeneratorKernel _ | FileReaderKernel _ => []
  | JoinKernel _ | PartitionKernel _ _ => ["input_a"; "input_b"]
  | _ => [default_port]
  end.

Definition output_ports (k : kind) : list string :=
  match k with
  | PrinterKernel => []
  | SortAndSampleKernel _ => ["output_a"; "output_b"]
  | _ => [default_port]
  end.

Definition is_source (k : kind) : bool := bool_decide (input_ports k = []).

(** ** Row-level operations *)

Definition rows_bytes (rs : list row) : nat := 8 * length (concat rs).

Definition rows_batch (p : option nat) (rs : list row) : Batch := mkBatch rs (rows_bytes rs) p.

Definition sort_rel (e : string) : relation row := fun a b => ev_le e a b = true.

#[global] Instance sort_rel_dec e : RelDecision (sort_rel e).
Proof. intros a b. unfold sort_rel. apply _. Defined.

Definition sort_rows (e : string) (rs : list row) : list row := merge_sort (sort_rel e) rs.

(** The inner join of the build side [as_] with one probe batch [bs]. *)
Definition join_rows (e : string) (as_ bs : list row) : list row :=
  a ← as_; b ← bs; if ev_join e a b then [a ++ b] else [].

(** The sort-key boundaries for [n] partitions taken from the sorted
    sample: the rows at positions [i * len / n] for [0 < i < n]. *)
Definition boundaries (n : nat) (sample : list row) : list row :=
  omap (fun i => sample !! (i * length sample / n)) (seq 1 (n - 1)).

(** The partition of a row: the number of boundaries at or below it. *)
Definition partition_of (e : string) (bnds : list row) (r : row) : nat :=
  length (filter (fun b => sort_rel e b r) bnds).

(** The rows of one batch tagged with their partitions, one batch per
    partition index below [n]. *)
Definition split_rows (e : string) (n : nat) (bnds : list row) (rs : list row) : list Batch :=
  map (fun k => rows_batch (Some k) (filter (fun r => partition_of e bnds r = k) rs)) (seq 0 n).

(** The k-way merge of sorted streams. *)
Definition merge_rows (e : string) (parts : list (list row)) : list row :=
  foldr (list_merge (sort_rel e)) [] parts.

(** ** The task of a kernel *)

Inductive status : Type := Created | Running | Done | Failed (e : GraphError).

(** What a running task does once its pending results are pushed: pull
    the consumer queue [i] of input port [p], or finish its outputs. *)
Inductive phase : Type := Pull (p : string) (i : nat) | Finishing.

Record kstate : Type := mkKState {
  k_status : status;
  k_phase : phase;
  k_out : list (nat * Batch);     (** results to push: target cache, batch *)
  k_acc : list row;               (** materialized input, samples or boundaries, printed rows *)
  k_parts : list (list row)       (** merge: the stream of each partition *)
}.

(** The caches bound to the kernel's ports, by index into the graph's
    caches: the one input of a port, the outputs of a port. *)
Record ports : Type := mkPorts {
  io_in : string -> option nat;
  io_out : string -> list nat
}.

Definition init_state : kstate := mkKState Created Finishing [] [] [].

Definition with_out (k : kstate) (o : list (nat * Batch)) : kstate :=
  mkKState (k_status k) (k_phase k) o (k_acc k) (k_parts k).
Definition with_phase (k : kstate) (ph : phase) : kstate :=
  mkKState (k_status k) ph (k_out k) (k_acc k) (k_parts k).
Definition with_acc (k : kstate) (a : list row) : kstate :=
  mkKState (k_status k) (k_phase k) (k_out k) a (k_parts k).
Definition with_parts (k : kstate) (ps : list (list row)) : kstate :=
  mkKState (k_status k) (k_phase k) (k_out k) (k_acc k) ps.

(** A result for output port [p]: one push per cache bound to [p]. *)
Definition emit (io : ports) (p : string) (b : Batch) : list (nat * Batch) :=
  map (fun l => (l, b)) (io_out io p).

(** Every cache the kernel produces into. *)
Definition outputs (io : ports) (kd : kind) : list nat := output_ports kd ≫= io_out io.

Definition finish_all (ls : list nat) (cs : list cache) : list cache :=
  foldr (fun l cs => alter finish l cs) cs ls.

(** The task starts: a source computes its batches, the others wait on
    their first input. *)
Definition start (io : ports) (kd : kind) : kstate :=
  match kd with
  | GeneratorKernel n =>
      mkKState Running Finishing (emit io default_port (rows_batch None (ev_generate n))) [] []
  | FileReaderKernel ps =>
      mkKState Running Finishing (p ← ps; emit io default_port (rows_batch None (ev_read p))) [] []
  | JoinKernel _ => mkKState Running (Pull "input_a" 0) [] [] []
  | PartitionKernel _ _ => mkKState Running (Pull "input_b" 0) [] [] []
  | MergeStreamKernel _ c =>
      mkKState Running (Pull default_port 0) [] [] (replicate (getTotalNodes c) [])
  | _ => mkKState Running (Pull default_port 0) [] [] []
  end.

(** A batch arrives on port [p], consumer queue [i]. *)
Definition on_batch (io : ports) (kd : kind) (k : kstate) (p : string) (i : nat) (b : Batch) : kstate :=
  let rs := b_rows b in
  match kd with
  | FilterKernel e => with_out k (emit io default_port (rows_batch None (filter (ev_filter e) rs)))
  | ProjectKernel e => with_out k (emit io default_port (rows_batch None (map (ev_project e) rs)))
  | JoinKernel e =>
      if bool_decide (p = "input_a") then with_acc k (k_acc k ++ rs)
      else with_out k (emit io default_port (rows_batch None (join_rows e (k_acc k) rs)))
  | PartitionKernel e c =>
      if bool_decide (p = "input_b") then with_acc k (k_acc k ++ rs)
      else with_out k (b' ← split_rows e (getTotalNodes c) (k_acc k) rs; emit io default_port b')
  | MergeStreamKernel _ _ => with_parts k (alter (fun l => l ++ rs) i (k_parts k))
  | _ => with_acc k (k_acc k ++ rs)
  end.

(** The end of the stream of port [p], consumer queue [i]: the next
    phase, or the error the kernel fails with. *)
Definition on_eos (io : ports) (kd : kind) (k : kstate) (p : string) (i : nat) : kstate + GraphError :=
  match kd with
  | JoinKernel e =>
      if bool_decide (p = "input_a") then
        if ev_join_ok e then inl (with_phase k (Pull "input_b" 0)) else inr SchemaMismatchError
      else inl (with_phase k Finishing)
  | SortKernel e =>
      inl (with_phase (with_out k (emit io default_port (rows_batch None (sort_rows e (k_acc k))))) Finishing)
  | SortAndSampleKernel e =>
      let s := rows_batch None (sort_rows e (k_acc k)) in
      inl (with_phase (with_out k (emit io "output_a" s ++ emit io "output_b" s)) Finishing)
  | PartitionKernel e c =>
      if bool_decide (p = "input_b") then
        inl (with_phase (with_acc k (boundaries (getTotalNodes c) (sort_rows e (k_acc k)))) (Pull "input_a" 0))
      else inl (with_phase k Finishing)
  | MergeStreamKernel e c =>
      if bool_decide (S i < getTotalNodes c) then inl (with_phase k (Pull p (S i)))
      else inl (with_phase (with_out k (emit io default_port (rows_batch None (merge_rows e (k_parts k))))) Finishing)
  | _ => inl (with_phase k Finishing)
  end.

(** The task fails: it drops its pending results and force-finishes its
    output caches. *)
Definition fail (io : ports) (kd : kind) (k : kstate) (e : GraphError) (cs : list cache)
    : kstate * list cache :=
  (mkKState (Failed e) (k_phase k) [] (k_acc k) (k_parts k), finish_all (outputs io kd) cs).

(** One atomic step of the task; [None] when it is blocked or settled. *)
Definition kstep (io : ports) (kd : kind) (k : kstate) (cs : list cache) : option (kstate * list cache) :=
  match k_status k with
  | Created => Some (start io kd, cs)
  | Done | Failed _ => None
  | Running =>
      match kd, k_out k with
      | FailingKernel e, _ => Some (fail io kd k e cs)
      | _, (l, b) :: rest =>
          match cs !! l with
          | None => Some (fail io kd k TopologyError cs)
          | Some c =>
              match push c b with
              | Pushed c' => Some (with_out k rest, <[l:=c']> cs)
              | PushBlocked => None
              | PushClosed => Some (with_phase (with_out k []) Finishing, cs)
              | PushFailed e => Some (fail io kd k e cs)
              end
          end
      | _, [] =>
          match k_phase k with
          | Finishing =>
              Some (mkKState Done Finishing [] (k_acc k) (k_parts k), finish_all (outputs io kd) cs)
          | Pull p i =>
              match io_in io p with
              | None => Some (fail io kd k TopologyError cs)
              | Some l =>
                  match cs !! l with
                  | None => Some (fail io kd k TopologyError cs)
                  | Some c =>
                      match pull c i with
                      | Got b c' => Some (on_batch io kd k p i b, <[l:=c']> cs)
                      | PullWait => None
                      | EndOfStream =>
                          match on_eos io kd k p i with
                          | inl k' => Some (k', cs)
                          | inr e => Some (fail io kd k e cs)
                          end
                      end
                  end
              end
          end
      end
  end.

(** ** Lemmas on a step of a task *)

Definition settled (k : kstate) : bool :=
  match k_status k with Done | Failed _ => true | _ => false end.

Definition finished_at (cs : list cache) (l : nat) : bool :=
  match cs !! l with Some c => c_finished c | None => false end.

(** No cache is added or removed and none is reopened. *)
Definition fin_mono (cs cs' : list cache) : Prop :=
  length cs' = length cs /\ forall l, finished_at cs l = true -> finished_at cs' l = true.

#[global] Instance fin_mono_preorder : PreOrder fin_mono.
Proof.
  split; [intros cs; split; auto|].
  intros a b c [H1 F1] [H2 F2]. split; [congruence | auto].
Qed.

Lemma finish_idem c : finish (finish c) = finish c.
Proof. reflexivity. Qed.

Lemma finish_all_lookup ls cs l :
  finish_all ls cs !! l = if bool_decide (l ∈ ls) then finish <$> cs !! l else cs !! l.
Proof.
  induction ls as [|l0 ls IH]; [done|].
  change (finish_all (l0 :: ls) cs) with (alter finish l0 (finish_all ls cs)).
  destruct (decide (l = l0)) as [->|Hne].
  - rewrite list_lookup_alter, IH, (bool_decide_true (l0 ∈ l0 :: ls)) by apply list_elem_of_here.
    case_bool_decide; destruct (cs !! l0); cbn; repeat case_decide; done.
  - rewrite list_lookup_alter_ne by done. rewrite IH.
    case_bool_decide as A; case_bool_decide as B; rewrite ?elem_of_cons in B; tauto.
Qed.

Lemma finish_all_length ls cs : length (finish_all ls cs) = length cs.
Proof. induction ls as [|l ls IH]; [done|]. cbn [finish_all foldr]. now rewrite length_alter. Qed.

Lemma finish_all_finished ls cs l : l ∈ ls -> l < length cs -> finished_at (finish_all ls cs) l = true.
Proof.
  intros Hl Hlt. unfold finished_at. rewrite finish_all_lookup, bool_decide_true by done.
  destruct (lookup_lt_is_Some_2 cs l Hlt) as [c ->]. reflexivity.
Qed.

Lemma fin_mono_finish_all ls cs : fin_mono cs (finish_all ls cs).
Proof.
  split; [apply finish_all_length|]. intros l. unfold finished_at.
  rewrite finish_all_lookup. case_bool_decide; [destruct (cs !! l); cbn; auto | auto].
Qed.

Lemma fin_mono_insert cs l c c' :
  cs !! l = Some c -> (c_finished c = true -> c_finished c' = true) -> fin_mono cs (<[l:=c']> cs).
Proof.
  intros Hl Hc. split; [apply length_insert|]. intros j. unfold finished_at.
  destruct (decide (l = j)) as [<-|Hne].
  - rewrite list_lookup_insert_eq by (eapply lookup_lt_Some, Hl). rewrite Hl. exact Hc.
  - now rewrite list_lookup_insert_ne.
Qed.

Lemma finish_all_wf ls cs : Forall CacheMachine.wf cs -> Forall CacheMachine.wf (finish_all ls cs).
Proof.
  intros Hw. induction ls as [|l ls IH]; [done|].
  change (finish_all (l :: ls) cs) with (alter finish l (finish_all ls cs)).
  apply Forall_alter; [exact IH|]. intros c _. apply finish_wf.
Qed.

Lemma start_status io kd : k_status (start io kd) = Running.
Proof. now destruct kd. Qed.

Lemma on_batch_status io kd k p i b : k_status (on_batch io kd k p i b) = k_status k.
Proof. destruct kd; cbn; repeat case_bool_decide; reflexivity. Qed.

Lemma on_eos_status io kd k p i k' : on_eos io kd k p i = inl k' -> k_status k' = k_status k.
Proof. destruct kd; cbn; repeat case_bool_decide; try destruct (ev_join_ok _); intros [=<-]; reflexivity. Qed.

(** A step either keeps the task running, or settles it and finishes
    exactly its output caches. *)
Lemma kstep_cases io kd k cs k' cs' :
  kstep io kd k cs = Some (k', cs') ->
  k_status k' = Running \/
  ((k_status k' = Done \/ exists e, k_status k' = Failed e) /\ cs' = finish_all (outputs io kd) cs).
Proof.
  unfold kstep, fail. intros E.
  repeat (case_match; simplify_eq/=); eauto 6 using start_status.
  all: rewrite ?on_batch_status; try (erewrite on_eos_status by eassumption); auto.
Qed.

Lemma kstep_settled io kd k cs : settled k = true -> kstep io kd k cs = None.
Proof. unfold settled, kstep. now destruct (k_status k). Qed.

(** A task that settles leaves every one of its output caches finished. *)
Lemma kstep_settles io kd k cs k' cs' :
  kstep io kd k cs = Some (k', cs') -> settled k' = true ->
  forall l, l ∈ outputs io kd -> l < length cs -> finished_at cs' l = true.
Proof.
  intros E Hs l Hl Hlt. destruct (kstep_cases _ _ _ _ _ _ E) as [Hr|[_ ->]].
  - unfold settled in Hs. now rewrite Hr in Hs.
  - now apply finish_all_finished.
Qed.

Lemma kstep_mono io kd k cs k' cs' : kstep io kd k cs = Some (k', cs') -> fin_mono cs cs'.
Proof.
  unfold kstep, fail. intros E.
  repeat (case_match; simplify_eq/=); try reflexivity; try apply fin_mono_finish_all.
  all: eapply fin_mono_insert; [eassumption|]; intros Hf.
  all: first [ eapply pull_finished; eassumption
             | match goal with H : push _ _ = Pushed _ |- _ =>
                 apply push_finished in H; destruct H; congruence end ].
Qed.

(** Every step keeps every cache well formed. *)
Lemma kstep_wf io kd k cs k' cs' : kstep io kd k cs = Some (k', cs') -> Forall CacheMachine.wf cs -> Forall CacheMachine.wf cs'.
Proof.
  unfold kstep, fail. intros E Hw.
  repeat (case_match; simplify_eq/=); auto using finish_all_wf.
  all: apply Forall_insert; [done|].
  all: match goal with
       | L : _ !! _ = Some ?c, P : push ?c _ = Pushed _ |- _ => eapply push_wf, P
       | L : _ !! _ = Some ?c, P : pull ?c _ = Got _ _ |- _ => eapply pull_wf, P
       end; eapply Forall_lookup_1; eassumption.
Qed.

Lemma finish_all_settings ls cs : c_settings <$> finish_all ls cs = c_settings <$> cs.
Proof.
  apply list_eq. intros j. rewrite !list_lookup_fmap, finish_all_lookup.
  case_bool_decide; destruct (cs !! j); reflexivity.
Qed.

Lemma insert_settings (cs : list cache) (l : nat) c c' :
  cs !! l = Some c -> c_settings c' = c_settings c -> c_settings <$> <[l:=c']> cs = c_settings <$> cs.
Proof.
  intros Hl Hs. rewrite list_fmap_insert, Hs. apply list_insert_id. now rewrite list_lookup_fmap, Hl.
Qed.

(** No step changes the settings of a cache. *)
Lemma kstep_settings io kd k cs k' cs' :
  kstep io kd k cs = Some (k', cs') -> c_settings <$> cs' = c_settings <$> cs.
Proof.
  unfold kstep, fail. intros E.
  repeat (case_match; simplify_eq/=); try reflexivity; try apply finish_all_settings.
  all: eapply insert_settings; [eassumption|].
  all: first [ eapply pull_settings; eassumption | eapply push_settings; eassumption ].
Qed.

(** Once every cache is finished, a task that has not settled can
    always step: pushes are refused, pulls answer at once. *)
Lemma kstep_all_finished io kd k cs :
  settled k = false -> (forall l c, cs !! l = Some c -> c_finished c = true) ->
  is_Some (kstep io kd k cs).
Proof.
  intros Hs Hf. unfold settled in Hs. unfold kstep.
  destruct (k_status k); try discriminate; [now eexists|].
  destruct kd; try (now eexists).
  all: destruct (k_out k) as [|[l b] rest].
  all: try (destruct (cs !! l) as [c|] eqn:Hl; [rewrite (push_after_finish c b (Hf l c Hl)); now eexists | now eexists]).
  all: destruct (k_phase k) as [p i|]; [|now eexists].
  all: destruct (io_in io p) as [l|]; [|now eexists].
  all: destruct (cs !! l) as [c|] eqn:Hl; [|now eexists].
  all: destruct (pull c i) eqn:P; [now eexists | exfalso; eapply pull_after_finish; [apply (Hf l c Hl) | exact P] |].
  all: case_match; now eexists.
Qed.

(** A task that cannot step while no cache is bounded is waiting on an
    open input cache. *)
Lemma kstep_blocked io kd k cs :
  settled k = false -> kstep io kd k cs = None ->
  (forall l c, cs !! l = Some c -> capacity_of (c_settings c) = None) ->
  exists p i l c, k_phase k = Pull p i /\ io_in io p = Some l /\ cs !! l = Some c /\ c_finished c = false.
Proof.
  intros Hs E Hu. unfold settled in Hs. unfold kstep in E.
  destruct (k_status k); try discriminate.
  destruct kd; try discriminate.
  all: destruct (k_out k) as [|[l b] rest].
  all: try (destruct (cs !! l) as [c|] eqn:Hl; [|discriminate];
            destruct (push c b) eqn:P; try discriminate;
            exfalso; eapply push_unbounded; [eapply Hu, Hl | exact P]).
  all: destruct (k_phase k) as [p i|]; [|discriminate].
  all: destruct (io_in io p) as [l|] eqn:Hio; [|discriminate].
  all: destruct (cs !! l) as [c|] eqn:Hl; [|discriminate].
  all: destruct (pull c i) eqn:P; try discriminate; try (case_match; discriminate).
  all: exists p, i, l, c; split; [reflexivity|]; split; [exact Hio|]; split; [exact Hl | eapply pull_wait_open, P].
Qed.

(** ** Which rows a task can emit

    A row typing gives every cache a predicate on its rows; [pin] reads
    it on the cache bound to an input port.  [produces kd Pin r]: the
    kernel class [kd] can emit [r] when its inputs carry rows satisfying
    [Pin]: the data of a source, a selected row, a projection, a pair of
    rows meeting the join condition, or an input row passed on in another
    order. *)

Definition pin (P : nat -> row -> Prop) (io : ports) (p : string) (r : row) : Prop :=
  match io_in io p with Some l => P l r | None => False end.

Definition produces (kd : kind) (Pin : string -> row -> Prop) (r : row) : Prop :=
  match kd with
  | GeneratorKernel n => r ∈ ev_generate n
  | FileReaderKernel ps => exists p, p ∈ ps /\ r ∈ ev_read p
  | FilterKernel e => Pin default_port r /\ ev_filter e r = true
  | ProjectKernel e => exists r', Pin default_port r' /\ r = ev_project e r'
  | JoinKernel e =>
      ev_join_ok e = true /\
      exists a b, Pin "input_a" a /\ Pin "input_b" b /\ ev_join e a b = true /\ r = a ++ b
  | SortKernel _ | SortAndSampleKernel _ | MergeStreamKernel _ _ => Pin default_port r
  | PartitionKernel _ _ => Pin "input_a" r
  | PrinterKernel | FailingKernel _ => False
  end.

(** The ports a task pulls from. *)
Definition phase_ok (kd : kind) (ph : phase) : Prop :=
  match ph with
  | Finishing => True
  | Pull p _ =>
      match kd with
      | JoinKernel e => p = "input_a" \/ (p = "input_b" /\ ev_join_ok e = true)
      | PartitionKernel _ _ => p = "input_a" \/ p = "input_b"
      | GeneratorKernel _ | FileReaderKernel _ => False
      | _ => p = default_port
      end
  end.

(** Every cache bound to an output port of the task accepts what the
    kernel can produce. *)
Definition emits_ok (P : nat -> row -> Prop) (io : ports) (kd : kind) : Prop :=
  forall p l r, l ∈ io_out io p -> produces kd (pin P io) r -> P l r.

(** The task's pending results and materialized inputs are well typed. *)
Definition task_rows_ok (P : nat -> row -> Prop) (io : ports) (kd : kind) (k : kstate) : Prop :=
  phase_ok kd (k_phase k) /\
  Forall (fun lb => rows_ok (P lb.1) lb.2) (k_out k) /\
  match kd with
  | JoinKernel _ => Forall (pin P io "input_a") (k_acc k)
  | SortKernel _ | SortAndSampleKernel _ | PrinterKernel => Forall (pin P io default_port) (k_acc k)
  | MergeStreamKernel _ _ => Forall (Forall (pin P io default_port)) (k_parts k)
  | _ => True
  end.

Definition caches_rows_ok (P : nat -> row -> Prop) (cs : list cache) : Prop :=
  forall l c, cs !! l = Some c -> cache_rows_ok (P l) c.

(** ** A step keeps the row typing *)

Lemma emit_rows_ok P io kd p b :
  emits_ok P io kd -> Forall (produces kd (pin P io)) (b_rows b) ->
  Forall (fun lb => rows_ok (P lb.1) lb.2) (emit io p b).
Proof.
  intros He Hb. apply Forall_forall. intros [l b'] Hin.
  apply list_elem_of_In, in_map_iff in Hin as (l' & [= <- <-] & Hl). cbn.
  eapply Forall_impl; [exact Hb|]. intros r Hr. eapply He; [|exact Hr]. by apply list_elem_of_In.
Qed.

Lemma Forall_rows_batch (Q : row -> Prop) t rs : Forall Q rs -> Forall Q (b_rows (rows_batch t rs)).
Proof. done. Qed.

Lemma Forall_sub {A} (Q : A -> Prop) (l l' : list A) : Forall Q l -> (forall x, x ∈ l' -> x ∈ l) -> Forall Q l'.
Proof. intros Hl Hs. apply Forall_forall. intros x Hx. eapply Forall_forall; [exact Hl | now apply Hs]. Qed.

Lemma join_rows_spec e as_ bs r :
  r ∈ join_rows e as_ bs -> exists a b, a ∈ as_ /\ b ∈ bs /\ ev_join e a b = true /\ r = a ++ b.
Proof.
  unfold join_rows. intros (a & Hr & Ha)%list_elem_of_bind.
  apply list_elem_of_bind in Hr as (b & Hr & Hb).
  destruct (ev_join e a b) eqn:J; [|now apply not_elem_of_nil in Hr].
  apply list_elem_of_singleton in Hr as ->. eauto 10.
Qed.

Lemma split_rows_sub e n bnds rs b r : b ∈ split_rows e n bnds rs -> r ∈ b_rows b -> r ∈ rs.
Proof.
  unfold split_rows. intros (k & -> & _)%list_elem_of_fmap Hr.
  cbn in Hr. now apply list_elem_of_filter in Hr as [_ Hr].
Qed.

Lemma merge_rows_sub e parts r : r ∈ merge_rows e parts -> exists q, q ∈ parts /\ r ∈ q.
Proof.
  induction parts as [|q parts IH]; cbn; [intros Hr; now apply not_elem_of_nil in Hr|].
  rewrite (merge_Permutation (sort_rel e)), elem_of_app. intros [Hr|Hr]; [exists q; split; [apply list_elem_of_here | done]|].
  destruct (IH Hr) as (q' & Hq' & Hr'). exists q'. split; [now apply list_elem_of_further | done].
Qed.

Lemma on_batch_rows P io kd k p i b :
  emits_ok P io kd -> task_rows_ok P io kd k -> k_out k = [] -> k_phase k = Pull p i ->
  rows_ok (pin P io p) b -> task_rows_ok P io kd (on_batch io kd k p i b).
Proof.
  intros He (Hph & Hout & Hacc) Ho Hp Hb. rewrite Hp in Hph. unfold rows_ok in Hb.
  unfold task_rows_ok, on_batch. destruct kd; cbn in Hph, Hacc |- *; try contradiction.
  all: cbn; rewrite ?Hp.
  all: try (subst p; split; [reflexivity|]; split; [|done]; eapply emit_rows_ok; [exact He|]).
  - apply Forall_forall. intros r (Hf & Hr)%list_elem_of_filter.
    split; [eapply Forall_forall; eauto | now destruct (ev_filter expr r)].
  - apply Forall_forall. intros r (r' & -> & Hr)%list_elem_of_fmap. exists r'. split; [eapply Forall_forall; eauto | done].
  - destruct Hph as [-> | [-> Hok]].
    + rewrite bool_decide_true by done. cbn. rewrite Hp. split; [hnf; now left|]. split; [rewrite Ho; constructor|].
      apply Forall_app. split; [exact Hacc | exact Hb].
    + rewrite bool_decide_false by discriminate. cbn. rewrite Hp. split; [hnf; now right|]. split; [|exact Hacc].
      eapply emit_rows_ok; [exact He|]. apply Forall_forall. intros r (a & b0 & Ha & Hb0 & J & ->)%join_rows_spec.
      split; [exact Hok|]. exists a, b0. split; [eapply Forall_forall; eauto|]. split; [eapply Forall_forall; eauto | done].
  - subst p. split; [reflexivity|]. split; [rewrite Ho; constructor|]. apply Forall_app. split; [exact Hacc | exact Hb].
  - subst p. split; [reflexivity|]. split; [rewrite Ho; constructor|]. apply Forall_app. split; [exact Hacc | exact Hb].
  - destruct Hph as [-> | ->].
    + rewrite bool_decide_false by discriminate. cbn. rewrite Hp. split; [hnf; now left|]. split; [|done].
      apply Forall_forall. intros lb (b' & Hlb & Hb')%list_elem_of_bind.
      assert (Hok : Forall (produces (PartitionKernel expr ctx) (pin P io)) (b_rows b')).
      { apply Forall_forall. intros r Hr. eapply Forall_forall; [exact Hb | eapply split_rows_sub; eauto]. }
      exact (proj1 (Forall_forall _ _) (emit_rows_ok P io _ default_port b' He Hok) lb Hlb).
    + rewrite bool_decide_true by done. cbn. rewrite Hp. split; [hnf; now right|]. split; [rewrite Ho; constructor | done].
  - subst p. split; [reflexivity|]. split; [rewrite Ho; constructor|].
    apply Forall_alter; [exact Hacc|]. intros q Hq Hq'. apply Forall_app. split; [exact Hq' | exact Hb].
  - subst p. split; [reflexivity|]. split; [rewrite Ho; constructor|]. apply Forall_app. split; [exact Hacc | exact Hb].
  - subst p. split; [reflexivity|]. split; [rewrite Ho; constructor | done].
Qed.

Lemma sort_rows_sub e rs r : r ∈ sort_rows e rs -> r ∈ rs.
Proof. unfold sort_rows. now rewrite (merge_sort_Permutation (sort_rel e)). Qed.

Lemma on_eos_rows P io kd k p i k' :
  emits_ok P io kd -> task_rows_ok P io kd k -> k_out k = [] -> k_phase k = Pull p i ->
  on_eos io kd k p i = inl k' -> task_rows_ok P io kd k'.
Proof.
  intros He (Hph & Hout & Hacc) Ho Hp E. rewrite Hp in Hph.
  unfold task_rows_ok. unfold on_eos in E. destruct kd; cbn in Hph, Hacc; try contradiction.
  all: repeat case_bool_decide; try destruct (ev_join_ok _) eqn:?; simplify_eq/=.
  all: rewrite ?Ho; split; [first [done | now left | now right | right; split; [reflexivity | assumption]] |].
  all: split; [|first [exact Hacc | done]].
  all: try constructor.
  (* Sort *)
  - eapply emit_rows_ok; [exact He|].
    apply Forall_forall. intros r Hr. eapply Forall_forall; [exact Hacc | now apply sort_rows_sub in Hr].
  (* SortAndSample *)
  - assert (Hs : Forall (produces (SortAndSampleKernel expr) (pin P io)) (sort_rows expr (k_acc k))).
    { apply Forall_forall. intros r Hr. eapply Forall_forall; [exact Hacc | now apply sort_rows_sub in Hr]. }
    rewrite Forall_app. split; (eapply emit_rows_ok; [exact He | exact Hs]).
  (* Merge: the merged stream *)
  - eapply emit_rows_ok; [exact He|].
    apply Forall_forall. intros r (q & Hq & Hr)%merge_rows_sub.
    exact (proj1 (Forall_forall _ _) (proj1 (Forall_forall _ _) Hacc q Hq) r Hr).
Qed.

Lemma start_rows P io kd : emits_ok P io kd -> task_rows_ok P io kd (start io kd).
Proof.
  intros He. unfold task_rows_ok. destruct kd; cbn.
  all: split; [first [done | now left | now right] |].
  all: split; [try constructor | try constructor].
  - eapply emit_rows_ok; [exact He|]. now apply Forall_forall.
  - apply Forall_forall. intros lb (p & Hlb & Hp)%list_elem_of_bind.
    assert (Hok : Forall (produces (FileReaderKernel paths) (pin P io)) (b_rows (rows_batch None (ev_read p)))).
    { apply Forall_forall. intros r Hr. exists p. split; [exact Hp | exact Hr]. }
    exact (proj1 (Forall_forall _ _) (emit_rows_ok P io _ default_port _ He Hok) lb Hlb).
  - apply Forall_replicate. constructor.
Qed.

Lemma finish_all_rows P ls cs : caches_rows_ok P cs -> caches_rows_ok P (finish_all ls cs).
Proof.
  intros H0 l c. rewrite finish_all_lookup. case_bool_decide.
  - destruct (cs !! l) as [c0|] eqn:E; cbn; [intros [= <-]; exact (H0 l c0 E) | discriminate].
  - apply H0.
Qed.

Lemma insert_rows_ok P cs l c :
  caches_rows_ok P cs -> cache_rows_ok (P l) c -> caches_rows_ok P (<[l:=c]> cs).
Proof.
  intros H0 Hc j c'. destruct (decide (l = j)) as [<-|Hne].
  - intros Hj. apply list_lookup_insert_Some in Hj as [(_ & <- & _)|(? & _)]; [exact Hc | congruence].
  - rewrite list_lookup_insert_ne by done. apply H0.
Qed.

Lemma fail_rows P io kd k e cs :
  caches_rows_ok P cs -> task_rows_ok P io kd k ->
  caches_rows_ok P (fail io kd k e cs).2 /\ task_rows_ok P io kd (fail io kd k e cs).1.
Proof.
  intros Hc (Hph & _ & Hacc). split; [first [exact Hc | exact (finish_all_rows _ _ _ Hc)]|]. split; [exact Hph|]. split; [constructor | exact Hacc].
Qed.

(** A step of a task whose outputs accept what its kernel produces keeps
    every cache and the task itself well typed. *)
Lemma kstep_rows P io kd k cs k' cs' :
  emits_ok P io kd -> caches_rows_ok P cs -> task_rows_ok P io kd k ->
  kstep io kd k cs = Some (k', cs') -> caches_rows_ok P cs' /\ task_rows_ok P io kd k'.
Proof.
  intros He Hc Hk E. pose proof Hk as (Hph & Hout & Hacc). unfold kstep in E.
  destruct (k_status k); try discriminate.
  { some_pair E. split; [exact Hc | now apply start_rows]. }
  destruct kd as [| | | | | | | | | |err]; [..|some_pair E; exact (fail_rows _ _ _ _ _ _ Hc Hk)].
  all: destruct (k_out k) as [|[l b] rest] eqn:Ho.
  all: try (destruct (cs !! l) as [c|] eqn:Hl; [|some_pair E; exact (fail_rows _ _ _ _ _ _ Hc Hk)];
            destruct (push c b) as [c1| | |e] eqn:P1; try discriminate;
            [ some_pair E; apply Forall_cons in Hout as [Hb Hrest];
              split; [apply insert_rows_ok; [exact Hc | eapply push_rows_ok; eauto] |];
              split; [exact Hph | split; [exact Hrest | exact Hacc]]
            | some_pair E; split; [exact Hc|]; split; [exact I | split; [constructor | exact Hacc]]
            | some_pair E; exact (fail_rows _ _ _ _ _ _ Hc Hk) ]).
  all: destruct (k_phase k) as [p i|] eqn:Hp; try (exfalso; exact Hph).
  all: try (some_pair E; split; [first [exact Hc | exact (finish_all_rows _ _ _ Hc)]|]; split; [exact I | split; [constructor | exact Hacc]]).
  all: destruct (io_in io p) as [l|] eqn:Hio; [|some_pair E; exact (fail_rows _ _ _ _ _ _ Hc Hk)].
  all: destruct (cs !! l) as [c|] eqn:Hl; [|some_pair E; exact (fail_rows _ _ _ _ _ _ Hc Hk)].
  all: destruct (pull c i) as [b c1| |] eqn:P1; try discriminate.
  all: try (some_pair E; destruct (pull_rows_ok (P l) c i b c1 (Hc l c Hl) P1) as [Hb Hc1];
            split; [apply insert_rows_ok; [exact Hc | exact Hc1] |];
            eapply on_batch_rows; [exact He | exact Hk | exact Ho | exact Hp |];
            unfold rows_ok, pin; rewrite Hio; exact Hb).
  all: destruct (on_eos io _ k p i) as [k1|e] eqn:Eo; some_pair E;
         [split; [exact Hc | eapply on_eos_rows; eauto] | exact (fail_rows _ _ _ _ _ _ Hc Hk)].
Qed.


(** ** A join whose key types disagree never gets past its build side

    While [ev_join_ok e] is [false], a join task is created, or running
    on [input_a] with nothing to push, or failed: it never probes, emits
    nor settles as [Done]. *)

Definition join_blocked (k : kstate) : Prop :=
  k_status k = Created \/
  (k_status k = Running /\ (exists i, k_phase k = Pull "input_a" i) /\ k_out k = []) \/
  exists err, k_status k = Failed err.

Lemma kstep_join_blocked io e k cs k' cs' :
  ev_join_ok e = false -> join_blocked k ->
  kstep io (JoinKernel e) k cs = Some (k', cs') -> join_blocked k'.
Proof.
  intros Hok Hb E. unfold kstep in E.
  destruct Hb as [Hs | [(Hs & [i Hp] & Ho) | [err Hs]]]; rewrite Hs in E; [| |discriminate].
  { some_pair E. right. left. split; [reflexivity|]. split; [now exists 0 | reflexivity]. }
  rewrite Ho, Hp in E.
  destruct (io_in io "input_a") as [l|]; [|some_pair E; right; right; eexists; reflexivity].
  destruct (cs !! l) as [c|]; [|some_pair E; right; right; eexists; reflexivity].
  destruct (pull c i) as [b c1| |]; [| discriminate |].
  - some_pair E. right. left. unfold on_batch. rewrite bool_decide_true by reflexivity. cbn.
    rewrite ?Hs, ?Hp, ?Ho. split; [reflexivity|]. split; [now exists i | reflexivity].
  - cbn in E. rewrite Hok in E. some_pair E. right; right; eexists; reflexivity.
Qed.
End Kernels.
End Kernel.
