(* ===== verification/Graph.v ===== *)
(** * The graph: builder, validation and execution (specification, sections 4.1, 5 and 7)

    [ral::cache::graph] is not among the repository's sources; it is
    modelled from the specification and from the way the graph tests
    use it.  [a >> b], [a["p"] >> b["q"]] and [link(a, b, settings)]
    describe an edge; [g += edge] is [connect], which refuses an unknown
    port name, a destination port already bound or a source port already
    bound ([TopologyError]: a cache is the sole input of its destination
    port and the sole output of its source port) and otherwise adds both kernels (once per kernel identity) and a link
    with a new cache.  [validate] checks that every input port is bound
    and that the links form a DAG (Kahn's algorithm).

    Execution is a step relation on the tasks of the kernels, the caches
    of the links and the failure the graph captured: one task makes one
    atomic step ([Kernel.kstep]), or the graph reacts to the first
    failed task by capturing its error and finishing every cache.
    [execute] runs one particular interleaving: always the first task
    that can step. *)

From stdpp Require Import base list strings sets relations.
From Stdlib Require Import ZArith Lia.
From S2P Require Import Prelude CacheMachine Context Kernel.

Module Graph.
Import CacheMachine Context Kernel.

(** A graph operation that may throw. *)
Inductive result (A : Type) : Type := Ok (a : A) | Err (e : GraphError).
Arguments Ok {A} a.
Arguments Err {A} e.

Section Graphs.
Context `{Evaluator}.

(** The bound of the queue of a cache created with [cache_settings{}]. *)
Variable default_capacity : option nat.

(** ** Kernels, links, graphs *)

(** A kernel object: its identity and its class. *)
Record kernel : Type := mkKernel { kid : nat; kkind : kind }.

Record link : Type := mkLink {
  l_src : nat; l_src_port : string;
  l_dst : nat; l_dst_port : string;
  l_settings : cache_settings
}.

Record graph : Type := mkGraph { g_kernels : list kernel; g_links : list link }.

Definition empty_graph : graph := mkGraph [] [].

(** [cache_settings{}]: a streaming cache. *)
Definition cache_defaults : cache_settings := mkSettings SIMPLE 1 default_capacity.

(** An edge as the operators build it. *)
Record edge : Type := mkEdge {
  e_src : kernel; e_src_port : string;
  e_dst : kernel; e_dst_port : string;
  e_settings : cache_settings
}.

(** [a >> b] *)
Definition shift (a b : kernel) : edge := mkEdge a default_port b default_port cache_defaults.

(** [a["p"] >> b["q"]] *)
Definition shift_ports (a : kernel) (p : string) (b : kernel) (q : string) : edge :=
  mkEdge a p b q cache_defaults.

(** [a >> b["q"]] *)
Definition shift_to (a b : kernel) (q : string) : edge := mkEdge a default_port b q cache_defaults.

(** [link(a, b, settings)] *)
Definition link_with (a b : kernel) (s : cache_settings) : edge := mkEdge a default_port b default_port s.

(** [link(a, b["q"], settings)] *)
Definition link_to (a b : kernel) (q : string) (s : cache_settings) : edge := mkEdge a default_port b q s.

(** ** Building *)

(** [addKernel]: idempotent per kernel identity. *)
Definition add_kernel (g : graph) (k : kernel) : graph :=
  if bool_decide (kid k ∈ kid <$> g_kernels g) then g
  else mkGraph (g_kernels g ++ [k]) (g_links g).

Definition bound_input (g : graph) (id : nat) (p : string) : bool :=
  existsb (fun l => bool_decide (l_dst l = id /\ l_dst_port l = p)) (g_links g).

(** Whether a cache is already bound as the output of port [p] of kernel [id]. *)
Definition bound_output (g : graph) (id : nat) (p : string) : bool :=
  existsb (fun l => bool_decide (l_src l = id /\ l_src_port l = p)) (g_links g).

(** The new cache becomes the sole input of [dp] and the sole output of
    [sp]: binding a second cache to either port is refused. *)
Definition connect (g : graph) (src : kernel) (sp : string) (dst : kernel) (dp : string)
    (s : cache_settings) : result graph :=
  if bool_decide (sp ∉ output_ports (kkind src) \/ dp ∉ input_ports (kkind dst)) then Err TopologyError
  else if bound_input g (kid dst) dp then Err TopologyError
  else if bound_output g (kid src) sp then Err TopologyError
  else
    let g' := add_kernel (add_kernel g src) dst in
    Ok (mkGraph (g_kernels g') (g_links g' ++ [mkLink (kid src) sp (kid dst) dp s])).

(** [g += e] *)
Definition add_edge (g : graph) (e : edge) : result graph :=
  connect g (e_src e) (e_src_port e) (e_dst e) (e_dst_port e) (e_settings e).

(** The statements [g += e1; g += e2; ...] of a test: the first refused
    edge throws. *)
Fixpoint build (g : graph) (es : list edge) : result graph :=
  match es with
  | [] => Ok g
  | e :: es' => match add_edge g e with Ok g' => build g' es' | Err err => Err err end
  end.

(** ** Validation *)

Definition kernel_ids (g : graph) : list nat := kid <$> g_kernels g.

Definition inputs_bound (g : graph) : bool :=
  forallb (fun k => forallb (bound_input g (kid k)) (input_ports (kkind k))) (g_kernels g).

(** A kernel is ready once the sources of all its input links are placed. *)
Definition ready (g : graph) (placed : list nat) (k : kernel) : bool :=
  forallb (fun l => bool_decide (l_dst l = kid k -> l_src l ∈ placed)) (g_links g).

(** Kahn's algorithm: the kernels in an order where every link goes
    forward; [None] when the links have a cycle. *)
Fixpoint kahn (g : graph) (fuel : nat) (placed : list nat) (rest : list kernel) : option (list nat) :=
  match rest with
  | [] => Some placed
  | _ =>
      match fuel with
      | O => None
      | S f =>
          match list_find (fun k => ready g placed k = true) rest with
          | Some (i, k) => kahn g f (placed ++ [kid k]) (delete i rest)
          | None => None
          end
      end
  end.

Definition topo_order (g : graph) : option (list nat) :=
  kahn g (length (g_kernels g)) [] (g_kernels g).

(** The class of the kernel with identity [id]. *)
Definition kind_of (g : graph) (id : nat) : option kind :=
  kkind ∘ snd <$> list_find (fun k => kid k = id) (g_kernels g).

(** A link between known kernels, from an output port to an input port. *)
Definition link_ok (g : graph) (l : link) : bool :=
  match kind_of g (l_src l), kind_of g (l_dst l) with
  | Some ks, Some kd => bool_decide (l_src_port l ∈ output_ports ks /\ l_dst_port l ∈ input_ports kd)
  | _, _ => false
  end.

(** [validate()]: kernel identities distinct, every input bound, every
    link between ports of known kernels, no cycle.  (With every input
    bound and no cycle, every kernel is reached from a source, the third
    condition of section 4.1.)  The result is a topological order. *)
Definition validate (g : graph) : result (list nat) :=
  if negb (bool_decide (NoDup (kernel_ids g))) then Err TopologyError
  else if negb (inputs_bound g) then Err TopologyError
  else if negb (forallb (link_ok g) (g_links g)) then Err TopologyError
  else match topo_order g with Some ord => Ok ord | None => Err TopologyError end.

(** ** Kahn's algorithm *)

Lemma kahn_perm g f placed rest ord :
  kahn g f placed rest = Some ord -> ord ≡ₚ placed ++ (kid <$> rest).
Proof.
  revert placed rest. induction f as [|f IH]; intros placed rest; cbn.
  - destruct rest; [intros [= <-]; now rewrite app_nil_r | discriminate].
  - destruct rest as [|k0 rest0] eqn:R; [intros [= <-]; now rewrite app_nil_r|]. rewrite <- R.
    destruct (list_find _ _) as [[i k]|] eqn:F; [|discriminate].
    intros E. rewrite (IH _ _ E). apply list_find_Some in F as (Hi & _ & _).
    rewrite (delete_Permutation rest i k Hi) at 2. cbn. now rewrite <- app_assoc.
Qed.

Lemma kahn_prefix g f placed rest ord : kahn g f placed rest = Some ord -> exists suf, ord = placed ++ suf.
Proof.
  revert placed rest. induction f as [|f IH]; intros placed rest; cbn.
  - destruct rest; [intros [= <-]; exists []; now rewrite app_nil_r | discriminate].
  - destruct rest as [|k0 rest0] eqn:R; [intros [= <-]; exists []; now rewrite app_nil_r|]. rewrite <- R.
    destruct (list_find _ _) as [[i k]|] eqn:F; [|discriminate].
    intros E. destruct (IH _ _ E) as [suf ->]. exists ([kid k] ++ suf). now rewrite app_assoc.
Qed.

Lemma ready_spec g placed k lk :
  ready g placed k = true -> lk ∈ g_links g -> l_dst lk = kid k -> l_src lk ∈ placed.
Proof.
  unfold ready. intros R Hlk Hd. apply forallb_forall with (x := lk) in R; [|now apply list_elem_of_In].
  now apply bool_decide_eq_true in R; apply R.
Qed.

(** In the order Kahn's algorithm returns, the source of every link
    comes before its destination. *)
Lemma kahn_forward g f placed rest ord lk :
  kahn g f placed rest = Some ord -> lk ∈ g_links g ->
  l_dst lk ∈ kid <$> rest -> l_dst lk ∉ placed ->
  exists i j, i < j /\ ord !! i = Some (l_src lk) /\ ord !! j = Some (l_dst lk).
Proof.
  revert placed rest. induction f as [|f IH]; intros placed rest; cbn.
  - destruct rest; [intros _ _ Hin; now apply not_elem_of_nil in Hin | discriminate].
  - destruct rest as [|k0 rest0] eqn:R; [intros _ _ Hin; now apply not_elem_of_nil in Hin|]. rewrite <- R.
    destruct (list_find _ _) as [[i k]|] eqn:F; [|discriminate].
    apply list_find_Some in F as (Hi & Hr & _). intros E Hlk Hd Hnp.
    destruct (decide (l_dst lk = kid k)) as [Heq|Hne].
    + destruct (kahn_prefix _ _ _ _ _ E) as [suf ->].
      pose proof (ready_spec g placed k lk Hr Hlk Heq) as Hs.
      apply list_elem_of_lookup in Hs as [a Ha].
      exists a, (length placed). split; [eapply lookup_lt_Some, Ha|].
      split; [rewrite <- app_assoc; now apply lookup_app_l_Some|].
      rewrite <- app_assoc, lookup_app_r, Nat.sub_diag by lia. cbn. now rewrite Heq.
    + apply (IH _ _ E Hlk).
      * rewrite (delete_Permutation rest i k Hi) in Hd. cbn in Hd.
        apply elem_of_cons in Hd as [?|?]; [contradiction | done].
      * rewrite elem_of_app, list_elem_of_singleton. tauto.
Qed.

(** ** Execution *)

(** The indices of the elements of [xs] that satisfy [P]. *)
Definition indices_where {A} (P : A -> Prop) `{forall x, Decision (P x)} (xs : list A) : list nat :=
  omap (fun x => x) (imap (fun j x => if decide (P x) then Some j else None) xs).

(** The caches the task of kernel [id] pulls from and pushes to. *)
Definition ports_of (g : graph) (id : nat) : ports :=
  mkPorts
    (fun p => fst <$> list_find (fun l => l_dst l = id /\ l_dst_port l = p) (g_links g))
    (fun p => indices_where (fun l => l_src l = id /\ l_src_port l = p) (g_links g)).

Record gstate : Type := mkGState {
  gs_tasks : list kstate;         (** the task of each kernel, in the order of [g_kernels] *)
  gs_caches : list cache;         (** the cache of each link, in the order of [g_links] *)
  gs_failure : option GraphError  (** the failure the graph captured *)
}.

(** [execute()] spawns a task per kernel and a cache per link. *)
Definition init (g : graph) : gstate :=
  mkGState ((fun _ => init_state) <$> g_kernels g) ((fun l => create (l_settings l)) <$> g_links g) None.

(** One atomic step of the task of the [i]-th kernel. *)
Definition task_step (g : graph) (s : gstate) (i : nat) : option gstate :=
  k ← gs_tasks s !! i;
  kn ← g_kernels g !! i;
  '(k', cs') ← kstep (ports_of g (kid kn)) (kkind kn) k (gs_caches s);
  Some (mkGState (<[i:=k']> (gs_tasks s)) cs' (gs_failure s)).

Definition failed_error (k : kstate) : option GraphError :=
  match k_status k with Failed e => Some e | _ => None end.

(** The graph's reaction to a failed task: capture the error, finish
    every cache. *)
Definition cancel_with (s : gstate) (e : GraphError) : gstate :=
  mkGState (gs_tasks s) (finish <$> gs_caches s) (Some e).

Inductive gstep (g : graph) : gstate -> gstate -> Prop :=
| gstep_task s i s' : task_step g s i = Some s' -> gstep g s s'
| gstep_cancel s i k e :
    gs_failure s = None -> gs_tasks s !! i = Some k -> failed_error k = Some e ->
    gstep g s (cancel_with s e).

Definition reachable (g : graph) (s : gstate) : Prop := rtc (gstep g) (init g) s.

(** The run is over: every task settled and a failure captured if a
    task failed. *)
Definition final (s : gstate) : bool :=
  forallb settled (gs_tasks s) &&
  (bool_decide (gs_failure s <> None) || bool_decide (omap failed_error (gs_tasks s) = [])).

(** The scheduler of [execute]: react to a failure first, otherwise the
    first task that can step. *)
Fixpoint first_step (g : graph) (s : gstate) (ix : list nat) : option gstate :=
  match ix with
  | [] => None
  | i :: ix' => match task_step g s i with Some s' => Some s' | None => first_step g s ix' end
  end.

Definition next (g : graph) (s : gstate) : option gstate :=
  match gs_failure s, omap failed_error (gs_tasks s) with
  | None, e :: _ => Some (cancel_with s e)
  | _, _ => first_step g s (seq 0 (length (gs_tasks s)))
  end.

Inductive outcome : Type :=
| Completed (s : gstate)                  (** every task [Done] *)
| GraphFailed (e : GraphError) (s : gstate)
| Deadlock (s : gstate)                   (** no task can step, some task not settled *)
| OutOfFuel.

Fixpoint run_sched (fuel : nat) (g : graph) (s : gstate) : outcome :=
  match fuel with
  | O => OutOfFuel
  | S f =>
      match next g s with
      | Some s' => run_sched f g s'
      | None =>
          match gs_failure s with
          | Some e => GraphFailed e s
          | None => if forallb settled (gs_tasks s) then Completed s else Deadlock s
          end
      end
  end.

(** [execute()] with at most [fuel] steps. *)
Definition execute (fuel : nat) (g : graph) : outcome := run_sched fuel g (init g).


(** ** Lemmas on ports *)

Lemma indices_where_spec {A} (P : A -> Prop) `{forall x, Decision (P x)} xs j :
  j ∈ indices_where P xs <-> exists x, xs !! j = Some x /\ P x.
Proof.
  unfold indices_where. rewrite list_elem_of_omap. split.
  - intros (y & Hy & Hf). cbn in Hf. subst y.
    apply elem_of_lookup_imap in Hy as (j' & x & Hx & Hl).
    case_decide; [|discriminate]. injection Hx as ->. eauto.
  - intros (x & Hl & Hp). exists (Some j). split; [|done].
    apply elem_of_lookup_imap. exists j, x. split; [now rewrite decide_True | exact Hl].
Qed.

Lemma ports_out_spec g id p l :
  l ∈ io_out (ports_of g id) p <->
  exists lk, g_links g !! l = Some lk /\ l_src lk = id /\ l_src_port lk = p.
Proof. cbn. rewrite indices_where_spec. naive_solver. Qed.

Lemma ports_in_spec g id p l :
  io_in (ports_of g id) p = Some l ->
  exists lk, g_links g !! l = Some lk /\ l_dst lk = id /\ l_dst_port lk = p.
Proof.
  cbn. destruct (list_find _ _) as [[j lk]|] eqn:F; cbn; [|discriminate].
  intros [= <-]. apply list_find_Some in F as (Hl & [Hd Hp] & _). eauto.
Qed.

Lemma outputs_spec g id kd l :
  l ∈ outputs (ports_of g id) kd <->
  exists lk, g_links g !! l = Some lk /\ l_src lk = id /\ l_src_port lk ∈ output_ports kd.
Proof.
  unfold outputs. rewrite list_elem_of_bind. split.
  - intros (p & Hl & Hp). apply ports_out_spec in Hl as (lk & ? & ? & <-). eauto.
  - intros (lk & Hlk & Hs & Hp). exists (l_src_port lk). split; [apply ports_out_spec; eauto | exact Hp].
Qed.

Lemma outputs_lt g id kd l : l ∈ outputs (ports_of g id) kd -> l < length (g_links g).
Proof. intros (lk & Hl & _)%outputs_spec. eapply lookup_lt_Some, Hl. Qed.

(** ** The invariant of execution *)

Record inv (g : graph) (s : gstate) : Prop := {
  inv_tasks : length (gs_tasks s) = length (g_kernels g);
  inv_settings : c_settings <$> gs_caches s = l_settings <$> g_links g;
  inv_wf : Forall CacheMachine.wf (gs_caches s);
  inv_settled : forall i k kn, gs_tasks s !! i = Some k -> g_kernels g !! i = Some kn ->
    settled k = true -> forall l, l ∈ outputs (ports_of g (kid kn)) (kkind kn) ->
    finished_at (gs_caches s) l = true;
  inv_failure : gs_failure s <> None -> forall l, l < length (gs_caches s) ->
    finished_at (gs_caches s) l = true;
  inv_captured : forall e, gs_failure s = Some e ->
    exists i k, gs_tasks s !! i = Some k /\ failed_error k = Some e
}.

Lemma inv_caches_length g s : inv g s -> length (gs_caches s) = length (g_links g).
Proof. intros I. rewrite <- (length_fmap c_settings), <- (length_fmap l_settings (g_links g)). f_equal. apply I. Qed.

Lemma finished_at_finish_fmap cs l : l < length cs -> finished_at (finish <$> cs) l = true.
Proof.
  intros Hl. unfold finished_at. rewrite list_lookup_fmap.
  destruct (lookup_lt_is_Some_2 cs l Hl) as [c ->]. reflexivity.
Qed.

Lemma init_inv g : inv g (init g).
Proof.
  split; cbn.
  - apply length_fmap.
  - rewrite <- list_fmap_compose. reflexivity.
  - apply Forall_fmap, Forall_forall. intros l _. apply create_wf.
  - intros i k kn Hk _. apply list_lookup_fmap_Some in Hk as (? & -> & _). discriminate.
  - congruence.
  - discriminate.
Qed.

Lemma task_step_inv g s i s' : inv g s -> task_step g s i = Some s' -> inv g s'.
Proof.
  intros I. unfold task_step.
  destruct (gs_tasks s !! i) as [k|] eqn:Hk; cbn; [|discriminate].
  destruct (g_kernels g !! i) as [kn|] eqn:Hkn; cbn; [|discriminate].
  destruct (kstep _ _ _ _) as [[k' cs']|] eqn:E; cbn; [|discriminate]. intros [= <-].
  pose proof (kstep_mono _ _ _ _ _ _ E) as [Hlen Hmono].
  pose proof (inv_caches_length g s I) as Hcl.
  split; cbn.
  - rewrite length_insert. apply I.
  - rewrite (kstep_settings _ _ _ _ _ _ E). apply I.
  - eapply kstep_wf; [exact E | apply I].
  - intros j kj knj Hj Hknj Hs l Hl. destruct (decide (i = j)) as [<-|Hne].
    + rewrite list_lookup_insert_eq in Hj by (eapply lookup_lt_Some, Hk). injection Hj as <-.
      rewrite Hkn in Hknj. injection Hknj as <-.
      eapply kstep_settles; [exact E | exact Hs | exact Hl |]. rewrite Hcl. eapply outputs_lt, Hl.
    + rewrite list_lookup_insert_ne in Hj by done. apply Hmono. eapply (inv_settled g s I); eauto.
  - intros Hf l Hl. apply Hmono. apply (inv_failure g s I Hf). lia.
  - intros e He. destruct (inv_captured g s I e He) as (j & kj & Hj & Hkj).
    assert (i <> j) as Hne.
    { intros <-. rewrite Hk in Hj. injection Hj as <-.
      rewrite kstep_settled in E; [discriminate|]. unfold settled, failed_error in *.
      now destruct (k_status k). }
    exists j, kj. now rewrite list_lookup_insert_ne.
Qed.

Lemma cancel_inv g s i k e :
  inv g s -> gs_tasks s !! i = Some k -> failed_error k = Some e -> inv g (cancel_with s e).
Proof.
  intros I Hi He. split; cbn.
  - apply I.
  - rewrite <- list_fmap_compose. apply I.
  - apply Forall_fmap. eapply Forall_impl; [apply I|]. intros c. apply finish_wf.
  - intros j kj kn _ Hkn _ l Hl. apply finished_at_finish_fmap.
    rewrite (inv_caches_length g s I). eapply outputs_lt, Hl.
  - intros _ l Hl. apply finished_at_finish_fmap. now rewrite length_fmap in Hl.
  - intros e' [= <-]. eauto.
Qed.

Lemma gstep_inv g s s' : inv g s -> gstep g s s' -> inv g s'.
Proof.
  intros I Hs. destruct Hs as [s0 i s1 E|s0 i k e _ Hi He].
  - exact (task_step_inv g s0 i s1 I E).
  - eapply cancel_inv; eauto.
Qed.

(** A property of the initial state that every step keeps holds in every
    reachable state. *)
Lemma reachable_invariant (Q : gstate -> Prop) g s :
  Q (init g) -> (forall s s', Q s -> gstep g s s' -> Q s') -> reachable g s -> Q s.
Proof.
  intros Q0 Hstep. unfold reachable. revert s.
  apply rtc_ind_r; [exact Q0|]. intros s0 s1 _ Hs Q1. exact (Hstep s0 s1 Q1 Hs).
Qed.

Lemma reachable_inv g s : reachable g s -> inv g s.
Proof. apply reachable_invariant; [apply init_inv | apply gstep_inv]. Qed.

(** ** Row typing of the dataflow

    A typing [P] gives each link [l] the predicate [P l] of the rows it
    may carry.  The graph respects it when every kernel produces, from
    inputs of the types of its input links, only rows of the types of its
    output links.  Then every reachable state respects it: each cached
    batch, each pending result and each accumulated row of a task. *)

Definition links_typed (P : nat -> row -> Prop) (g : graph) : Prop :=
  forall i kn, g_kernels g !! i = Some kn -> emits_ok P (ports_of g (kid kn)) (kkind kn).

Definition rows_inv (P : nat -> row -> Prop) (g : graph) (s : gstate) : Prop :=
  caches_rows_ok P (gs_caches s) /\
  forall i k kn, gs_tasks s !! i = Some k -> g_kernels g !! i = Some kn ->
    task_rows_ok P (ports_of g (kid kn)) (kkind kn) k.

(** The typing is checked link by link: what the source kernel produces
    fits the link. *)
Lemma links_typed_intro P g :
  (forall i kn j lk r, g_kernels g !! i = Some kn -> g_links g !! j = Some lk -> l_src lk = kid kn ->
     produces (kkind kn) (pin P (ports_of g (kid kn))) r -> P j r) ->
  links_typed P g.
Proof. intros HP i kn Hkn p j r (lk & Hj & Hs & _)%ports_out_spec. eauto. Qed.

Lemma caches_rows_ok_fmap P (f : cache -> cache) {A} (g : A -> cache) (xs : list A) :
  (forall l x, xs !! l = Some x -> cache_rows_ok (P l) (f (g x))) -> caches_rows_ok P ((fun x => f (g x)) <$> xs).
Proof.
  intros Hx l c. rewrite list_lookup_fmap.
  destruct (xs !! l) as [x|] eqn:E; cbn; [intros [= <-]; exact (Hx l x E) | discriminate].
Qed.

Lemma init_rows_inv P g : rows_inv P g (init g).
Proof.
  split.
  - apply (caches_rows_ok_fmap P id). intros l lk _. apply create_rows_ok.
  - intros i k kn Hk _. cbn in Hk. apply list_lookup_fmap_Some in Hk as (? & -> & _).
    split; [exact I|]. split; [constructor|]. destruct (kkind kn); constructor.
Qed.

Lemma task_step_rows P g s i s' :
  links_typed P g -> rows_inv P g s -> task_step g s i = Some s' -> rows_inv P g s'.
Proof.
  intros Ht [Hc Hk]. unfold task_step.
  destruct (gs_tasks s !! i) as [k|] eqn:Hi; cbn; [|discriminate].
  destruct (g_kernels g !! i) as [kn|] eqn:Hkn; cbn; [|discriminate].
  destruct (kstep _ _ _ _) as [[k' cs']|] eqn:E; cbn; [|discriminate]. intros [= <-].
  destruct (kstep_rows _ _ _ _ _ _ _ (Ht i kn Hkn) Hc (Hk i k kn Hi Hkn) E) as [Hc' Hk'].
  split; [exact Hc'|]. cbn. intros j kj knj Hj Hknj.
  destruct (decide (i = j)) as [<-|Hne].
  - rewrite list_lookup_insert_eq in Hj by (eapply lookup_lt_Some, Hi). injection Hj as <-.
    rewrite Hkn in Hknj. injection Hknj as <-. exact Hk'.
  - rewrite list_lookup_insert_ne in Hj by done. eauto.
Qed.

Lemma cancel_rows P g s e : rows_inv P g s -> rows_inv P g (cancel_with s e).
Proof.
  intros [Hc Hk]. split; [|exact Hk].
  apply (caches_rows_ok_fmap P finish id). intros l c E. apply finish_rows_ok, (Hc l c E).
Qed.

Lemma reachable_rows P g s : links_typed P g -> reachable g s -> rows_inv P g s.
Proof.
  intros Ht. apply reachable_invariant; [apply init_rows_inv|].
  intros s0 s1 I Hs. destruct Hs as [s0' i s1' E|s0' i k e _ _ _]; [eapply task_step_rows; eauto | exact (cancel_rows _ _ _ _ I)].
Qed.

(** ** A join with mismatched key types stays on its build side *)

Definition joins_blocked (g : graph) (s : gstate) : Prop :=
  forall i kn e k, g_kernels g !! i = Some kn -> kkind kn = JoinKernel e -> ev_join_ok e = false ->
    gs_tasks s !! i = Some k -> join_blocked k.

(** A step of one task leaves the others' states as they were. *)
Lemma task_step_lookup g s i s' j k :
  task_step g s i = Some s' -> gs_tasks s' !! j = Some k ->
  gs_tasks s !! j = Some k \/
  exists k0 kn cs', i = j /\ gs_tasks s !! i = Some k0 /\ g_kernels g !! i = Some kn /\
    kstep (ports_of g (kid kn)) (kkind kn) k0 (gs_caches s) = Some (k, cs').
Proof.
  unfold task_step. destruct (gs_tasks s !! i) as [k0|] eqn:Hi; cbn; [|discriminate].
  destruct (g_kernels g !! i) as [kn|] eqn:Hkn; cbn; [|discriminate].
  destruct (kstep _ _ _ _) as [[k' cs']|] eqn:E; cbn; [|discriminate]. intros [= <-]. cbn.
  destruct (decide (i = j)) as [<-|Hne].
  - rewrite list_lookup_insert_eq by (eapply lookup_lt_Some, Hi). intros [= <-]. right. eauto 10.
  - rewrite list_lookup_insert_ne by done. now left.
Qed.

Lemma reachable_joins_blocked g s : reachable g s -> joins_blocked g s.
Proof.
  apply reachable_invariant.
  - intros i kn e k _ _ _ Hk. cbn in Hk. apply list_lookup_fmap_Some in Hk as (? & -> & _). now left.
  - intros s0 s1 Hb Hs j kn e k Hkn Hj Hok Hk. destruct Hs as [s0' i s1' E|s0' i k0 e0 _ _ _]; [|exact (Hb j kn e k Hkn Hj Hok Hk)].
    destruct (task_step_lookup _ _ _ _ _ _ E Hk) as [Hk0 | (k0 & kn' & cs' & <- & Hk0 & Hkn' & Ek)].
    + exact (Hb j kn e k Hkn Hj Hok Hk0).
    + rewrite Hkn in Hkn'. injection Hkn' as <-. rewrite Hj in Ek.
      exact (kstep_join_blocked _ _ _ _ _ _ Hok (Hb i kn e k0 Hkn Hj Hok Hk0) Ek).
Qed.

(** ** The scheduler runs an interleaving of the step relation *)

Lemma failed_task s e :
  e ∈ omap failed_error (gs_tasks s) <-> exists i k, gs_tasks s !! i = Some k /\ failed_error k = Some e.
Proof.
  rewrite list_elem_of_omap. split.
  - intros (k & Hk & He). apply list_elem_of_lookup in Hk as [i Hi]. eauto.
  - intros (i & k & Hi & He). exists k. split; [eapply list_elem_of_lookup_2, Hi | exact He].
Qed.

Lemma first_step_sound g s ix s' : first_step g s ix = Some s' -> gstep g s s'.
Proof.
  induction ix as [|i ix IH]; cbn; [discriminate|].
  destruct (task_step g s i) eqn:E; [intros [= <-]; eapply gstep_task, E | exact IH].
Qed.

Lemma first_step_none g s ix i : first_step g s ix = None -> i ∈ ix -> task_step g s i = None.
Proof.
  induction ix as [|j ix IH]; cbn; intros F Hi; [now apply not_elem_of_nil in Hi|].
  destruct (task_step g s j) eqn:E; [discriminate|].
  apply elem_of_cons in Hi as [->|Hi]; [exact E | now apply IH].
Qed.

Lemma next_sound g s s' : next g s = Some s' -> gstep g s s'.
Proof.
  unfold next. destruct (gs_failure s) eqn:F; [apply first_step_sound|].
  destruct (omap failed_error (gs_tasks s)) as [|e es] eqn:O; [apply first_step_sound|].
  intros [= <-]. assert (Hin : e ∈ omap failed_error (gs_tasks s)) by (rewrite O; apply list_elem_of_here).
  apply failed_task in Hin as (i & k & Hi & He). eapply gstep_cancel; eauto.
Qed.

Lemma task_step_lt g s i s' : task_step g s i = Some s' -> i < length (gs_tasks s).
Proof.
  unfold task_step. destruct (gs_tasks s !! i) eqn:E; [|discriminate]. intros _. eapply lookup_lt_Some, E.
Qed.

(** When the scheduler finds nothing to run, no interleaving can go on. *)
Lemma next_complete g s s' : next g s = None -> ~ gstep g s s'.
Proof.
  unfold next. intros N Hs. destruct Hs as [s0 i s1 E|s0 i k e F Hi He].
  - assert (Hn : first_step g s0 (seq 0 (length (gs_tasks s0))) = None)
      by (destruct (gs_failure s0), (omap failed_error (gs_tasks s0)); congruence).
    rewrite (first_step_none _ _ _ i Hn) in E; [discriminate|].
    apply elem_of_seq. pose proof (task_step_lt _ _ _ _ E). lia.
  - rewrite F in N. assert (Hin : e ∈ omap failed_error (gs_tasks s0)) by (apply failed_task; eauto).
    destruct (omap failed_error (gs_tasks s0)); [now apply not_elem_of_nil in Hin | discriminate].
Qed.

(** What [run_sched] reports about the state where it stopped. *)
Definition classify (s : gstate) : outcome :=
  match gs_failure s with
  | Some e => GraphFailed e s
  | None => if forallb settled (gs_tasks s) then Completed s else Deadlock s
  end.

Lemma run_sched_spec fuel g s :
  run_sched fuel g s = OutOfFuel \/
  exists s', rtc (gstep g) s s' /\ next g s' = None /\ run_sched fuel g s = classify s'.
Proof.
  revert s. induction fuel as [|f IH]; intros s; cbn; [now left|].
  destruct (next g s) as [s1|] eqn:N.
  - destruct (IH s1) as [H1|(s' & R & N' & E)]; [now left|]. right. exists s'.
    split; [eapply rtc_l; [eapply next_sound, N | exact R] | split; [exact N' | exact E]].
  - right. exists s. split; [reflexivity | split; [exact N|]]. unfold classify. reflexivity.
Qed.

(** ** Outcomes of [execute] *)

Lemma stuck_no_task_step g s i : next g s = None -> task_step g s i = None.
Proof.
  intros N. destruct (task_step g s i) as [s'|] eqn:E; [|done].
  exfalso. eapply next_complete; [exact N | eapply gstep_task, E].
Qed.

Lemma task_step_some g s i k kn :
  gs_tasks s !! i = Some k -> g_kernels g !! i = Some kn ->
  is_Some (kstep (ports_of g (kid kn)) (kkind kn) k (gs_caches s)) -> is_Some (task_step g s i).
Proof.
  intros Hk Hkn [[k' cs'] E]. unfold task_step. rewrite Hk, Hkn. cbn. rewrite E. now eexists.
Qed.

Lemma kernel_of_task g s i k : inv g s -> gs_tasks s !! i = Some k -> exists kn, g_kernels g !! i = Some kn.
Proof.
  intros I Hk. destruct (lookup_lt_is_Some_2 (g_kernels g) i) as [kn Hkn]; [|eauto].
  rewrite <- (inv_tasks g s I). eapply lookup_lt_Some, Hk.
Qed.

(** After a captured failure every cache is finished, so a stuck run
    has every task settled. *)
Lemma stuck_after_failure g s :
  inv g s -> gs_failure s <> None -> next g s = None ->
  forall i k, gs_tasks s !! i = Some k -> settled k = true.
Proof.
  intros I F N i k Hk. destruct (settled k) eqn:S; [done|]. exfalso.
  destruct (kernel_of_task g s i k I Hk) as [kn Hkn].
  assert (Hall : forall l c, gs_caches s !! l = Some c -> c_finished c = true).
  { intros l c Hl. pose proof (inv_failure g s I F l ltac:(eapply lookup_lt_Some, Hl)) as Hf.
    unfold finished_at in Hf. now rewrite Hl in Hf. }
  destruct (task_step_some g s i k kn Hk Hkn (kstep_all_finished _ _ _ _ S Hall)) as [s' E].
  now rewrite (stuck_no_task_step g s i N) in E.
Qed.

(** A stuck run without a captured failure has no failed task. *)
Lemma stuck_no_failed g s :
  gs_failure s = None -> next g s = None -> omap failed_error (gs_tasks s) = [].
Proof.
  unfold next. intros F N. rewrite F in N. destruct (omap failed_error (gs_tasks s)); [done | discriminate].
Qed.

Lemma execute_stops fuel g o :
  execute fuel g = o -> o <> OutOfFuel ->
  exists s, reachable g s /\ inv g s /\ next g s = None /\ o = classify s.
Proof.
  intros E Ho. destruct (run_sched_spec fuel g (init g)) as [H0|(s & R & N & C)].
  - unfold execute in E. congruence.
  - exists s. split; [exact R|]. split; [apply reachable_inv, R|]. split; [exact N|].
    unfold execute in E. congruence.
Qed.

(** The failure contract of [execute] (section 7): a failed run reports
    the error of a failed task, every task has settled, and every cache
    is finished, so no consumer is left blocked. *)
Theorem execute_failed fuel g e s :
  execute fuel g = GraphFailed e s ->
  reachable g s /\
  (exists i k, gs_tasks s !! i = Some k /\ failed_error k = Some e) /\
  (forall i k, gs_tasks s !! i = Some k -> settled k = true) /\
  (forall l, l < length (g_links g) -> finished_at (gs_caches s) l = true).
Proof.
  intros E. destruct (execute_stops fuel g _ E ltac:(discriminate)) as (s' & R & I & N & C).
  unfold classify in C. destruct (gs_failure s') as [e'|] eqn:F.
  2: destruct (forallb _ _); discriminate.
  injection C as <- <-. split; [exact R|]. split; [now apply (inv_captured g s I)|].
  split; [eapply (stuck_after_failure g s I); [congruence | exact N]|].
  intros l Hl. apply (inv_failure g s I); [congruence|]. now rewrite (inv_caches_length g s I).
Qed.

(** A completed run has every task [Done]. *)
Theorem execute_completed fuel g s :
  execute fuel g = Completed s ->
  reachable g s /\ gs_failure s = None /\ forall i k, gs_tasks s !! i = Some k -> k_status k = Done.
Proof.
  intros E. destruct (execute_stops fuel g _ E ltac:(discriminate)) as (s' & R & I & N & C).
  unfold classify in C. destruct (gs_failure s') as [e'|] eqn:F; [discriminate|].
  destruct (forallb settled (gs_tasks s')) eqn:A; [|discriminate]. injection C as <-.
  split; [exact R|]. split; [exact F|]. intros i k Hk.
  pose proof (stuck_no_failed g s F N) as NF.
  assert (Hs : settled k = true) by (eapply forallb_forall; [exact A | eapply list_elem_of_In, list_elem_of_lookup_2, Hk]).
  unfold settled in Hs. destruct (k_status k) as [| | |e] eqn:St; try discriminate; [done|].
  assert (Hin : e ∈ omap failed_error (gs_tasks s)) by (apply failed_task; exists i, k; unfold failed_error; now rewrite St).
  rewrite NF in Hin. now apply not_elem_of_nil in Hin.
Qed.

(** ** No deadlock without bounded caches *)

(** Every cache of the graph is unbounded: no push ever blocks. *)
Definition unbounded (g : graph) : Prop :=
  Forall (fun l => capacity_of (l_settings l) = None) (g_links g).

Lemma validate_facts g ord :
  validate g = Ok ord ->
  NoDup (kernel_ids g) /\ Forall (fun l => link_ok g l = true) (g_links g) /\ topo_order g = Some ord.
Proof.
  unfold validate. case_bool_decide as Hn; [|discriminate]. cbn.
  destruct (inputs_bound g); [|discriminate]. cbn.
  destruct (forallb (link_ok g) (g_links g)) eqn:L; [|discriminate]. cbn.
  destruct (topo_order g) as [o|]; [intros [= ->] | discriminate].
  split; [exact Hn|]. split; [|done]. apply Forall_forall. intros l Hl.
  apply forallb_forall with (x := l) in L; [exact L | now apply list_elem_of_In].
Qed.

Lemma kind_of_Some g id kd :
  kind_of g id = Some kd -> exists j kn, g_kernels g !! j = Some kn /\ kid kn = id /\ kkind kn = kd.
Proof.
  unfold kind_of. destruct (list_find _ _) as [[j kn]|] eqn:F; [|discriminate]. cbn. intros [= <-].
  apply list_find_Some in F as (Hj & Hid & _). eauto.
Qed.

Lemma kid_inj g j j' kn kn' :
  NoDup (kernel_ids g) -> g_kernels g !! j = Some kn -> g_kernels g !! j' = Some kn' ->
  kid kn = kid kn' -> j = j'.
Proof.
  intros Hnd Hj Hj' Heq. eapply NoDup_lookup; [exact Hnd | |].
  - unfold kernel_ids. rewrite list_lookup_fmap, Hj. reflexivity.
  - unfold kernel_ids. rewrite list_lookup_fmap, Hj', Heq. reflexivity.
Qed.

(** The producer of a link of a valid graph is one of its kernels, and
    the link is among that kernel's outputs. *)
Lemma producer_of g lk l :
  NoDup (kernel_ids g) -> Forall (fun l => link_ok g l = true) (g_links g) -> g_links g !! l = Some lk ->
  exists j kn, g_kernels g !! j = Some kn /\ kid kn = l_src lk /\ l ∈ outputs (ports_of g (kid kn)) (kkind kn).
Proof.
  intros Hnd Hok Hl. pose proof (Forall_lookup_1 _ _ _ _ Hok Hl) as Lk. unfold link_ok in Lk.
  destruct (kind_of g (l_src lk)) as [ks|] eqn:Ks; [|discriminate].
  destruct (kind_of g (l_dst lk)) as [kd|]; [|discriminate].
  apply bool_decide_eq_true in Lk as [Hsp _].
  destruct (kind_of_Some _ _ _ Ks) as (j & kn & Hj & Hid & Hk). exists j, kn.
  split; [exact Hj|]. split; [exact Hid|]. apply outputs_spec. exists lk. rewrite Hid, Hk. auto.
Qed.

Lemma link_dst_known g lk :
  Forall (fun l => link_ok g l = true) (g_links g) -> lk ∈ g_links g -> l_dst lk ∈ kernel_ids g.
Proof.
  intros Hok Hlk. pose proof (proj1 (Forall_forall _ _) Hok lk Hlk) as Lk. unfold link_ok in Lk.
  destruct (kind_of g (l_src lk)); [|discriminate].
  destruct (kind_of g (l_dst lk)) as [kd|] eqn:Kd; [|discriminate].
  destruct (kind_of_Some _ _ _ Kd) as (j & kn & Hj & Hid & _).
  apply list_elem_of_fmap. exists kn. split; [done | eapply list_elem_of_lookup_2, Hj].
Qed.

(** The topological order of a valid graph: every kernel once, every
    link forward. *)
Lemma topo_order_spec g ord :
  validate g = Ok ord ->
  NoDup ord /\ (forall id, id ∈ kernel_ids g -> id ∈ ord) /\
  forall lk, lk ∈ g_links g -> exists i j, i < j /\ ord !! i = Some (l_src lk) /\ ord !! j = Some (l_dst lk).
Proof.
  intros V. destruct (validate_facts g ord V) as (Hnd & Hok & T).
  pose proof (kahn_perm _ _ _ _ _ T) as P. cbn in P.
  split; [now rewrite P|]. split; [intros id Hid; now rewrite P|].
  intros lk Hlk. eapply kahn_forward; [exact T | exact Hlk | | apply not_elem_of_nil].
  now apply link_dst_known.
Qed.

Lemma unbounded_caches g s :
  inv g s -> unbounded g -> forall l c, gs_caches s !! l = Some c -> capacity_of (c_settings c) = None.
Proof.
  intros I U l c Hl. pose proof (inv_settings g s I) as S.
  assert (Hs : (l_settings <$> g_links g) !! l = Some (c_settings c)) by (rewrite <- S, list_lookup_fmap, Hl; reflexivity).
  rewrite list_lookup_fmap in Hs. destruct (g_links g !! l) as [lk|] eqn:Hlk; [|discriminate].
  injection Hs as <-. exact (Forall_lookup_1 _ _ _ _ U Hlk).
Qed.

(** A stuck task of a valid graph with unbounded caches waits on a link
    whose producer comes earlier in the topological order and has not
    settled. *)
Lemma blocked_on_producer g ord s i k kn :
  validate g = Ok ord -> unbounded g -> inv g s -> next g s = None ->
  gs_tasks s !! i = Some k -> g_kernels g !! i = Some kn -> settled k = false ->
  exists a b j kj knj, a < b /\ ord !! a = Some (kid knj) /\ ord !! b = Some (kid kn) /\
    gs_tasks s !! j = Some kj /\ g_kernels g !! j = Some knj /\ settled kj = false.
Proof.
  intros V U I N Hk Hkn Hs. destruct (validate_facts g ord V) as (Hnd & Hok & _).
  destruct (topo_order_spec g ord V) as (_ & _ & Fwd).
  assert (E : kstep (ports_of g (kid kn)) (kkind kn) k (gs_caches s) = None).
  { pose proof (stuck_no_task_step g s i N) as T. unfold task_step in T. rewrite Hk, Hkn in T. cbn in T.
    destruct (kstep _ _ _ _) as [[]|]; [discriminate | reflexivity]. }
  destruct (kstep_blocked _ _ _ _ Hs E (unbounded_caches g s I U)) as (p & i' & l & c & _ & Hio & Hl & Hc).
  destruct (ports_in_spec _ _ _ _ Hio) as (lk & Hlk & Hd & _).
  destruct (producer_of g lk l Hnd Hok Hlk) as (j & knj & Hj & Hsrc & Hout).
  destruct (Fwd lk (list_elem_of_lookup_2 _ _ _ Hlk)) as (a & b & Hab & Ha & Hb).
  destruct (lookup_lt_is_Some_2 (gs_tasks s) j) as [kj Hkj].
  { rewrite (inv_tasks g s I). eapply lookup_lt_Some, Hj. }
  exists a, b, j, kj, knj. rewrite Hsrc, <- Hd. repeat split; auto.
  destruct (settled kj) eqn:Sj; [|done]. exfalso.
  pose proof (inv_settled g s I j kj knj Hkj Hj Sj l Hout) as F.
  unfold finished_at in F. rewrite Hl in F. congruence.
Qed.

(** The no-deadlock property of section 8, for unbounded caches: in a
    valid graph every reachable state either has finished (every task
    settled, a failure captured if a task failed) or can step. *)
Theorem no_deadlock g ord s :
  validate g = Ok ord -> unbounded g -> reachable g s -> final s = false -> exists s', gstep g s s'.
Proof.
  intros V U R Fn. pose proof (reachable_inv g s R) as I.
  destruct (next g s) as [s'|] eqn:N; [eauto using next_sound | exfalso].
  enough (Hall : forall i k, gs_tasks s !! i = Some k -> settled k = true).
  { unfold final in Fn. apply andb_false_iff in Fn as [Fn|Fn].
    - apply not_true_iff_false in Fn. apply Fn, forallb_forall. intros k Hk.
      apply list_elem_of_In, list_elem_of_lookup in Hk as [i Hi]. eauto.
    - apply orb_false_iff in Fn as [F1 F2]. apply bool_decide_eq_false in F1, F2.
      apply F2, (stuck_no_failed g); [destruct (gs_failure s); [contradict F1; discriminate | done] | exact N]. }
  destruct (gs_failure s) eqn:F.
  { apply (stuck_after_failure g s I); [congruence | exact N]. }
  destruct (topo_order_spec g ord V) as (Hnd & Hin & _).
  assert (Hrank : forall n i k kn, gs_tasks s !! i = Some k -> g_kernels g !! i = Some kn ->
                    ord !! n = Some (kid kn) -> settled k = true).
  { intros n. induction n as [n IH] using (well_founded_induction lt_wf).
    intros i k kn Hk Hkn Hn. destruct (settled k) eqn:S; [done|]. exfalso.
    destruct (blocked_on_producer g ord s i k kn V U I N Hk Hkn S)
      as (a & b & j & kj & knj & Hab & Ha & Hb & Hkj & Hj & Sj).
    assert (b = n) as -> by (eapply NoDup_lookup; eauto).
    specialize (IH a Hab j kj knj Hkj Hj Ha). congruence. }
  intros i k Hk. destruct (kernel_of_task g s i k I Hk) as [kn Hkn].
  assert (Hid : kid kn ∈ ord) by (apply Hin, list_elem_of_fmap; eexists; split; [done | eapply list_elem_of_lookup_2, Hkn]).
  apply list_elem_of_lookup in Hid as [n Hn]. eauto.
Qed.

Lemma classify_deadlock s s' : classify s = Deadlock s' -> final s = false.
Proof.
  unfold classify, final. destruct (gs_failure s); [discriminate|].
  destruct (forallb settled (gs_tasks s)); [discriminate | reflexivity].
Qed.

(** [execute] on a valid graph with unbounded caches never ends in a
    deadlock. *)
Corollary execute_no_deadlock fuel g ord s :
  validate g = Ok ord -> unbounded g -> execute fuel g <> Deadlock s.
Proof.
  intros V U E. destruct (execute_stops fuel g _ E ltac:(discriminate)) as (s' & R & _ & N & C).
  destruct (no_deadlock g ord s' V U R (classify_deadlock s' s (eq_sym C))) as [s'' Hs].
  exact (next_complete g s' s'' N Hs).
Qed.

End Graphs.
End Graph.
