(* ===== verification/GraphTests.v ===== *)
(** * The graph processor tests ([src/engine/tests/cache_machine/graph_processor_test.cpp])

    Each test of [GraphProcessorTest] builds a query context, constructs
    its kernels, adds its edges to a [ral::cache::graph] with [+=] and
    executes the graph.  Here every kernel object is a [Graph.kernel]
    whose identity is its rank of construction in the test, every edge
    statement an [edge], the statements of a test the list its [build]
    folds, and the test's cache settings the [cache_settings] records it
    writes.  [test_evaluator] gives the meaning of the test's opaque plan
    strings (Calcite column indices [$n] over the concatenated row) and
    of its data: [GeneratorKernel(n)] yields the keys [0 .. n-1] (the
    test's random generator is not in the repository), a parquet file
    yields a few sample rows. *)

From stdpp Require Import base list strings sorting relations.
From Stdlib Require Import ZArith Lia.
From S2P Require Import Prelude CppStd CacheMachine Context Kernel Graph.

Module GraphTests.
Import CacheMachine Context Kernel Graph.

(** ** The query context every test builds (lines 29-33) *)

Definition address : Address := TCP "127.0.0.1" 8089 0.
Definition contextNodes : list Node := [mkNode address].
Definition ctxToken : Z := 123.
Definition queryContext : Context := mkContext ctxToken contextNodes (mkNode address) "".

(** ** JoinTest (lines 25-46) *)

Definition join_expression : string := "LogicalJoin(condition=[=($1, $0)], joinType=[inner])".

Definition JoinTest_a : kernel := mkKernel 0 (GeneratorKernel 10).
Definition JoinTest_b : kernel := mkKernel 1 (GeneratorKernel 10).
Definition JoinTest_s : kernel := mkKernel 2 (JoinKernel join_expression).
Definition JoinTest_print : kernel := mkKernel 3 PrinterKernel.

Definition JoinTest_edges (cap : option nat) : list edge :=
  [shift_to cap JoinTest_a JoinTest_s "input_a";
   shift_to cap JoinTest_b JoinTest_s "input_b";
   shift cap JoinTest_s JoinTest_print].

(** ** ComplexTest (lines 49-76) *)

Definition filter_lt5 : string := "BindableTableScan(table=[[main, nation]], filters=[[<($0, 5)]])".
Definition project_0 : string := "LogicalProject(INT64=[$0])".

Definition ComplexTest_a : kernel := mkKernel 0 (GeneratorKernel 10).
Definition ComplexTest_b : kernel := mkKernel 1 (GeneratorKernel 10).
Definition ComplexTest_filterA : kernel := mkKernel 2 (FilterKernel filter_lt5).
Definition ComplexTest_filterB : kernel := mkKernel 3 (FilterKernel filter_lt5).
Definition ComplexTest_join : kernel := mkKernel 4 (JoinKernel join_expression).
Definition ComplexTest_project : kernel := mkKernel 5 (ProjectKernel project_0).
Definition ComplexTest_print : kernel := mkKernel 6 PrinterKernel.

Definition ComplexTest_edges (cap : option nat) : list edge :=
  [shift cap ComplexTest_a ComplexTest_filterA;
   shift cap ComplexTest_b ComplexTest_filterB;
   shift_to cap ComplexTest_filterA ComplexTest_join "input_a";
   shift_to cap ComplexTest_filterB ComplexTest_join "input_b";
   shift cap ComplexTest_join ComplexTest_project;
   shift cap ComplexTest_project ComplexTest_print].

(** ** IOTest (lines 94-134) *)

Definition folder_path : string := "/home/aocsa/tpch/100MB2Part/tpch/".
Definition n_files : nat := 1.

(** The loop of lines 105-110: [folder_path + table + "_" +
    std::to_string(index) + "_0.parquet"] for each index. *)
Definition path_list (table : string) : list string :=
  map (fun index => String.append folder_path (String.append table
         (String.append (to_string (Z.of_nat index)) "_0.parquet"))) (seq 0 n_files).

Definition order_path_list : list string := path_list "orders_".
Definition customer_path_list : list string := path_list "customer_".

Definition filter_lt100 : string := "LogicalFilter(condition=[<($0, 100)])".
Definition join_1_9 : string := "LogicalJoin(condition=[=($1, $9)], joinType=[inner])".
Definition project_9_12_14 : string := "LogicalProject(c_custkey=[$9], c_nationkey=[$12], c_acctbal=[$14])".

Definition IOTest_order_generator : kernel := mkKernel 0 (FileReaderKernel order_path_list).
Definition IOTest_customer_generator : kernel := mkKernel 1 (FileReaderKernel customer_path_list).
Definition IOTest_filter : kernel := mkKernel 2 (FilterKernel filter_lt100).
Definition IOTest_join : kernel := mkKernel 3 (JoinKernel join_1_9).
Definition IOTest_project : kernel := mkKernel 4 (ProjectKernel project_9_12_14).
Definition IOTest_print : kernel := mkKernel 5 PrinterKernel.

(** [cache_settings concatenating_machine1{CacheType::CONCATENATING}]. *)
Definition concatenating_machine (cap : option nat) : cache_settings := mkSettings CONCATENATING 1 cap.

Definition IOTest_edges (cap : option nat) : list edge :=
  [link_to IOTest_order_generator IOTest_join "input_a" (concatenating_machine cap);
   link_to IOTest_customer_generator IOTest_join "input_b" (concatenating_machine cap);
   shift cap IOTest_join IOTest_filter;
   shift cap IOTest_filter IOTest_project;
   shift cap IOTest_project IOTest_print].

(** ** SortTest (lines 142-172) *)

Definition sort_expression : string := "LogicalSort(sort0=[$1], sort1=[$0], dir0=[ASC], dir1=[ASC])".
Definition project_0_3 : string := "LogicalProject(c_custkey=[$0], c_nationkey=[$3])".
Definition filter_lt10 : string := "LogicalFilter(condition=[<($0, 10)])".

Definition SortTest_customer_generator : kernel := mkKernel 0 (FileReaderKernel customer_path_list).
Definition SortTest_order_by : kernel := mkKernel 1 (SortKernel sort_expression).
Definition SortTest_project : kernel := mkKernel 2 (ProjectKernel project_0_3).
Definition SortTest_filter : kernel := mkKernel 3 (FilterKernel filter_lt10).
Definition SortTest_print : kernel := mkKernel 4 PrinterKernel.

Definition SortTest_edges (cap : option nat) : list edge :=
  [shift cap SortTest_customer_generator SortTest_filter;
   shift cap SortTest_filter SortTest_project;
   shift cap SortTest_project SortTest_order_by;
   shift cap SortTest_order_by SortTest_print].

(** ** SortSamplePartitionTest (lines 174-215) *)

Definition partition_expression : string := "LogicalPartition(sort0=[$1], sort1=[$0], dir0=[ASC], dir1=[ASC])".
Definition merge_expression : string := "LogicalMerge(sort0=[$1], sort1=[$0], dir0=[ASC], dir1=[ASC])".

Definition SSP_customer_generator : kernel := mkKernel 0 (FileReaderKernel customer_path_list).
Definition SSP_sort_and_sample : kernel := mkKernel 1 (SortAndSampleKernel sort_expression).
Definition SSP_partition : kernel := mkKernel 2 (PartitionKernel partition_expression queryContext).
Definition SSP_merge : kernel := mkKernel 3 (MergeStreamKernel merge_expression queryContext).
Definition SSP_project : kernel := mkKernel 4 (ProjectKernel project_0_3).
Definition SSP_filter : kernel := mkKernel 5 (FilterKernel filter_lt10).
Definition SSP_print : kernel := mkKernel 6 PrinterKernel.

(** [cache_settings{.type = CacheType::FOR_EACH, .num_partitions =
    queryContext.getTotalNodes()}] (lines 197-200). *)
Definition cache_machine_config (cap : option nat) : cache_settings :=
  mkSettings FOR_EACH (getTotalNodes queryContext) cap.

Definition SSP_edges (cap : option nat) : list edge :=
  [shift cap SSP_customer_generator SSP_filter;
   shift cap SSP_filter SSP_project;
   shift cap SSP_project SSP_sort_and_sample;
   shift_ports cap SSP_sort_and_sample "output_a" SSP_partition "input_a";
   shift_ports cap SSP_sort_and_sample "output_b" SSP_partition "input_b";
   link_with SSP_partition SSP_merge (cache_machine_config cap);
   link_with SSP_merge SSP_print (mkSettings CONCATENATING 1 cap)].

(** The graphs of the five tests. *)
Definition test_edges (cap : option nat) : list (list edge) :=
  [JoinTest_edges cap; ComplexTest_edges cap; IOTest_edges cap; SortTest_edges cap; SSP_edges cap].

(** ** The meaning of the tests' plan strings and data *)

(** Column [n] of a row, Calcite's [$n]. *)
Definition col (r : row) (n : nat) : Z := nth n r 0%Z.

Definition test_filter (e : string) (r : row) : bool :=
  if String.eqb e filter_lt5 then (col r 0 <? 5)%Z
  else if String.eqb e filter_lt100 then (col r 0 <? 100)%Z
  else if String.eqb e filter_lt10 then (col r 0 <? 10)%Z
  else true.

Definition test_project (e : string) (r : row) : row :=
  if String.eqb e project_0 then [col r 0]
  else if String.eqb e project_0_3 then [col r 0; col r 3]
  else if String.eqb e project_9_12_14 then [col r 9; col r 12; col r 14]
  else r.

(** The join condition is read on the concatenation of the two rows. *)
Definition test_join (e : string) (a b : row) : bool :=
  let r := a ++ b in
  if String.eqb e join_expression then (col r 1 =? col r 0)%Z
  else if String.eqb e join_1_9 then (col r 1 =? col r 9)%Z
  else false.

(** [sort0=[$1], sort1=[$0], dir0=[ASC], dir1=[ASC]]: by column 1, then
    column 0. *)
Definition key_le (a b : row) : bool :=
  (col a 1 <? col b 1)%Z || ((col a 1 =? col b 1)%Z && (col a 0 <=? col b 0)%Z).

(** TPC-H shaped sample rows: orders have 9 columns ([o_orderkey],
    [o_custkey], ...), customers 8 ([c_custkey], [c_name], [c_address],
    [c_nationkey], [c_phone], [c_acctbal], ...). *)
Definition order_rows : list row :=
  map (fun k => [Z.of_nat k; Z.of_nat (k mod 3); 0; 0; 0; 0; 0; 0; 0])%Z (seq 1 6).
Definition customer_rows : list row :=
  map (fun c => [Z.of_nat c; 0; 0; Z.of_nat (3 - c); 0; 100 * Z.of_nat c; 0; 0])%Z (seq 0 4).

Definition test_read (p : string) : list row :=
  if bool_decide (p ∈ order_path_list) then order_rows
  else if bool_decide (p ∈ customer_path_list) then customer_rows
  else [].

#[export] Instance test_evaluator : Evaluator := {|
  ev_generate n := map (fun i => [Z.of_nat i]) (seq 0 n);
  ev_read := test_read;
  ev_filter := test_filter;
  ev_project := test_project;
  ev_join_ok _ := true;
  ev_join := test_join;
  ev_le _ := key_le
|}.

(** The graph a test builds (the empty graph when an edge is refused). *)
Definition graph_of (es : list edge) : graph :=
  match build empty_graph es with Ok g => g | Err _ => empty_graph end.

(** The body of a test: the [+=] statements, then [execute()]; an edge
    refused by [+=] throws, and the test catches and prints it. *)
Definition run_test `{Evaluator} (fuel : nat) (es : list edge) : outcome :=
  match build empty_graph es with
  | Ok g => execute fuel g
  | Err e => GraphFailed e (init empty_graph)
  end.

(** The rows the last kernel of a test (its [PrinterKernel]) printed. *)
Definition printed (o : outcome) : option (list row) :=
  match o with
  | Completed s => k_acc <$> last (gs_tasks s)
  | _ => None
  end.

(** The query ComplexTest runs, written relationally:
    [select $0 from a inner join b on a.$0 = b.$0 where a.$0 < 5 and b.$0 < 5]. *)
Definition ComplexTest_query : list row :=
  let gen := ev_generate 10 in
  map (test_project project_0)
    (join_rows join_expression (filter (test_filter filter_lt5) gen) (filter (test_filter filter_lt5) gen)).

(** The fuel the tests run with: enough for every test graph. *)
Definition test_fuel : nat := 400.

(** The evaluator of a JoinTest whose key column types disagree. *)
Definition mismatch_evaluator : Evaluator := {|
  ev_generate n := map (fun i => [Z.of_nat i]) (seq 0 n);
  ev_read := test_read;
  ev_filter := test_filter;
  ev_project := test_project;
  ev_join_ok _ := false;
  ev_join := test_join;
  ev_le _ := key_le
|}.

(** ** Runs of the tests

    The model is executable: [run_test] runs a test's graph under
    [test_evaluator] with the scheduler of [Graph.execute]. *)

(** Every test's [+=] statements are accepted and its graph validates,
    for every default capacity, with these topological orders. *)
Example tests_validate cap :
  map (fun es => match build empty_graph es with Ok g => validate g | Err e => Err e end) (test_edges cap) =
  [Ok [0; 1; 2; 3]; Ok [0; 2; 1; 3; 4; 5; 6]; Ok [0; 1; 3; 2; 4; 5]; Ok [0; 3; 2; 1; 4];
   Ok [0; 5; 4; 1; 2; 3; 6]]%nat.
Proof. vm_compute. reflexivity. Qed.


(** ComplexTest, the scenario of section 8, completes with unbounded
    caches and with caches of one batch, and prints the five keys below 5. *)
Example ComplexTest_end_to_end :
  printed (run_test test_fuel (ComplexTest_edges None)) = Some ComplexTest_query /\
  printed (run_test test_fuel (ComplexTest_edges (Some 1))) = Some ComplexTest_query /\
  ComplexTest_query = [[0]; [1]; [2]; [3]; [4]]%Z.
Proof. vm_compute. repeat split. Qed.


(** JoinTest under [mismatch_evaluator] reports [SchemaMismatchError],
    every task settled and every cache finished. *)
Example JoinTest_mismatch_run :
  exists g, build empty_graph (JoinTest_edges None) = Ok g /\ exists s,
    @execute mismatch_evaluator test_fuel g = GraphFailed SchemaMismatchError s /\
    (forall i k, gs_tasks s !! i = Some k -> settled k = true) /\
    (forall l, l < length (g_links g) -> finished_at (gs_caches s) l = true).
Proof.
  eexists. split; [vm_compute; reflexivity|].
  match goal with |- exists s, ?lhs = _ /\ _ => remember lhs as o eqn:Ho end.
  pose proof Ho as Hc. vm_compute in Hc. rewrite Hc in Ho.
  destruct (execute_failed _ _ _ _ (eq_sym Ho)) as (_ & _ & Hs & Hf).
  eexists. split; [rewrite Hc; reflexivity | split; [exact Hs | exact Hf]].
Qed.


(** SortSamplePartitionTest partitions by [getTotalNodes()] of a one-node
    context, completes and prints the filtered, projected customers
    sorted by [($1, $0)]. *)
Example SSP_sorted_output :
  cs_num_partitions (cache_machine_config None) = 1 /\
  Forall (fun cap =>
    exists rows, printed (run_test test_fuel (SSP_edges cap)) = Some rows /\
      Sorted (fun a b => key_le a b = true) rows /\
      rows ≡ₚ map (test_project project_0_3) (filter (test_filter filter_lt10) customer_rows))
    [None; Some 1].
Proof.
  split; [reflexivity|]. repeat constructor.
  all: eexists; split; [vm_compute; reflexivity|].
  all: split; [apply (bool_decide_unpack _); vm_compute; reflexivity | apply (bool_decide_unpack _); vm_compute; reflexivity].
Qed.


(** Every test runs to completion within [test_fuel] steps. *)
Example tests_complete :
  Forall (fun cap => Forall (fun es => exists s, run_test test_fuel es = Completed s) (test_edges cap))
    [None; Some 1].
Proof.
  apply Forall_forall. intros cap Hcap.
  repeat (apply elem_of_cons in Hcap as [->|Hcap]); [..|now apply not_elem_of_nil in Hcap].
  all: apply Forall_forall; intros es Hes; cbn in Hes.
  all: repeat (apply elem_of_cons in Hes as [->|Hes]); [..|now apply not_elem_of_nil in Hes].
  all: eexists; vm_compute; reflexivity.
Qed.


(** ** Claims on the tests *)

(** Every test graph, with unbounded default caches, validates and has
    only unbounded caches. *)
Lemma test_graph_facts es g :
  es ∈ test_edges None -> build empty_graph es = Ok g ->
  (exists ord, validate g = Ok ord) /\ unbounded g.
Proof.
  intros Hes. repeat (apply elem_of_cons in Hes as [->|Hes]); [..|now apply not_elem_of_nil in Hes].
  all: intros B; vm_compute in B; injection B as <-.
  all: split; [eexists; vm_compute; reflexivity | unfold unbounded; repeat constructor].
Qed.

(** C7: no deadlock (section 8) for the graphs of the five tests with
    unbounded default caches: under any evaluator and any interleaving,
    every reachable state has finished or lets some task step. *)
Theorem tests_no_deadlock `{Evaluator} es g s :
  es ∈ test_edges None -> build empty_graph es = Ok g -> reachable g s -> final s = false ->
  exists s', gstep g s s'.
Proof.
  intros Hes B R F. destruct (test_graph_facts es g Hes B) as [[ord V] U].
  exact (no_deadlock g ord s V U R F).
Qed.


(** C12: the partitioned cache of SortSamplePartitionTest (lines
    197-206) delivers only to the consumer of partition 0, and only
    batches tagged 0, under any interleaving. *)
Theorem SSP_partition_routing cap ops c' d a i b :
  run (create (cache_machine_config cap)) ops = (c', d, a) -> (i, b) ∈ d ->
  i = 0 /\ b_partition b = Some 0.
Proof.
  intros R Hin.
  assert (Hi : i < num_queues (c_settings (create (cache_machine_config cap))))
    by (eapply run_delivered_index; [discriminate | apply create_wf | exact R | exact Hin]).
  cbn in Hi. assert (i = 0) as -> by lia. split; [reflexivity|].
  exact (for_each_no_leak (create (cache_machine_config cap)) ops c' d a 0 b eq_refl (create_wf _) R Hin).
Qed.

(** C10: every cache of ComplexTest (the [>>] links of lines 65-70) is a
    FIFO under any interleaving: the batches delivered, followed by those
    still queued, are exactly the batches accepted, in push order. *)
Theorem ComplexTest_caches_fifo cap g lk ops c' d a :
  build empty_graph (ComplexTest_edges cap) = Ok g -> lk ∈ g_links g ->
  run (create (l_settings lk)) ops = (c', d, a) -> map snd d ++ queue c' 0 = a.
Proof.
  intros B Hlk R. vm_compute in B. injection B as <-.
  assert (Hs : l_settings lk = cache_defaults cap).
  { cbn in Hlk. repeat (apply elem_of_cons in Hlk as [->|Hlk]); [..|now apply not_elem_of_nil in Hlk]; reflexivity. }
  rewrite Hs in R.
  assert (Hd : filter (fun p : nat * Batch => p.1 = 0) d = d).
  { apply filter_all. intros [i b] Hin. cbn.
    assert (i < num_queues (c_settings (create (cache_defaults cap))))
      by (eapply run_delivered_index; [discriminate | apply create_wf | exact R | exact Hin]).
    cbn in *. lia. }
  pose proof (run_fifo (create (cache_defaults cap)) ops c' d a 0 ltac:(discriminate) (create_wf _) R) as F.
  rewrite Hd in F. rewrite F. cbn. apply filter_all. intros b _. reflexivity.
Qed.

(** ** Where the printed rows come from

    A typing of a test's links by its query plan ([Graph.links_typed]):
    what each link may carry, whatever the evaluator.  For ComplexTest,
    the generators' links carry generated keys, the filters' links keys
    that pass the selection, the join's link concatenations of such keys
    that satisfy the join condition, and the projection's link their
    projections. *)

Definition ComplexTest_typing `{Evaluator} (l : nat) (r : row) : Prop :=
  match l with
  | 0 | 1 => r ∈ ev_generate 10
  | 2 | 3 => r ∈ ev_generate 10 /\ ev_filter filter_lt5 r = true
  | 4 => exists a b, (a ∈ ev_generate 10 /\ ev_filter filter_lt5 a = true) /\
          (b ∈ ev_generate 10 /\ ev_filter filter_lt5 b = true) /\
          ev_join join_expression a b = true /\ r = a ++ b
  | 5 => exists a b, (a ∈ ev_generate 10 /\ ev_filter filter_lt5 a = true) /\
          (b ∈ ev_generate 10 /\ ev_filter filter_lt5 b = true) /\
          ev_join join_expression a b = true /\ r = ev_project project_0 (a ++ b)
  | _ => False
  end.

(** For JoinTest, the join's link carries concatenations of generated
    rows meeting the join condition, and only once the key types agree. *)
Definition JoinTest_typing `{Evaluator} (l : nat) (r : row) : Prop :=
  match l with
  | 0 | 1 => r ∈ ev_generate 10
  | 2 => ev_join_ok join_expression = true /\
         exists a b, a ∈ ev_generate 10 /\ b ∈ ev_generate 10 /\
           ev_join join_expression a b = true /\ r = a ++ b
  | _ => False
  end.

(** [H : xs !! i = Some x] on a concrete list: one goal per element. *)
Ltac case_lookup i H :=
  repeat (destruct i as [|i];
          [vm_compute in H; lazymatch type of H with Some _ = Some _ => injection H as <- end |]);
  try (vm_compute in H; discriminate H).

(** Resolve the input links [pin] reads in [H] on a concrete graph, read
    the typing there, and split [H] into its witnesses and parts. *)
Ltac compute_pins H :=
  unfold pin in H;
  repeat match type of H with
  | context [io_in ?io ?p] => let v := eval vm_compute in (io_in io p) in change (io_in io p) with v in H
  end; cbn in H;
  repeat match goal with Hx : ex _ |- _ => destruct Hx | Hx : and _ _ |- _ => destruct Hx end.

(** A typing of a concrete graph, checked link by link. *)
Ltac solve_links_typed :=
  apply links_typed_intro; intros i kn j lk r Hkn Hj Hs Hr;
  case_lookup i Hkn; case_lookup j Hj; cbn in Hs; try discriminate Hs;
  cbn [produces kkind kid] in Hr; compute_pins Hr; cbn; subst; eauto 10.

Lemma ComplexTest_typed `{Evaluator} cap : links_typed ComplexTest_typing (graph_of (ComplexTest_edges cap)).
Proof. solve_links_typed. Qed.

Lemma JoinTest_typed `{Evaluator} cap : links_typed JoinTest_typing (graph_of (JoinTest_edges cap)).
Proof. solve_links_typed. Qed.

(** C8: the rows ComplexTest prints are those of its query plan, under
    every evaluator of the plan strings, every default capacity and every
    interleaving of the tasks: each row the printer (the seventh kernel)
    holds is the projection [$0] of the concatenation of two generated
    keys that both pass the filter [<($0, 5)] and satisfy the join
    condition [=($1, $0)]. *)
Theorem ComplexTest_printed_rows `{Evaluator} cap s k r :
  reachable (graph_of (ComplexTest_edges cap)) s -> gs_tasks s !! 6 = Some k -> r ∈ k_acc k ->
  exists a b, a ∈ ev_generate 10 /\ b ∈ ev_generate 10 /\
    ev_filter filter_lt5 a = true /\ ev_filter filter_lt5 b = true /\
    ev_join join_expression a b = true /\ r = ev_project project_0 (a ++ b).
Proof.
  intros R Hk Hr. destruct (reachable_rows _ _ _ (ComplexTest_typed cap) R) as [_ Ht].
  destruct (Ht 6 k ComplexTest_print Hk ltac:(vm_compute; reflexivity)) as (_ & _ & Hacc).
  cbn in Hacc. eapply Forall_forall in Hacc; [|exact Hr]. compute_pins Hacc. subst. eauto 10.
Qed.

(** C9: failure on mismatched join keys (sections 7 and 8): when the
    key column types of JoinTest's join disagree, under every evaluator,
    every default capacity and every interleaving, the printer (the
    fourth kernel) never receives a row, and [execute] never reports the
    run as completed, whatever its fuel. *)
Theorem JoinTest_schema_mismatch `{Evaluator} cap :
  ev_join_ok join_expression = false ->
  (forall s k, reachable (graph_of (JoinTest_edges cap)) s -> gs_tasks s !! 3 = Some k -> k_acc k = []) /\
  (forall fuel s, execute fuel (graph_of (JoinTest_edges cap)) <> Completed s).
Proof.
  intros Hok. split.
  - intros s k R Hk. destruct (reachable_rows _ _ _ (JoinTest_typed cap) R) as [_ Ht].
    destruct (Ht 3 k JoinTest_print Hk ltac:(vm_compute; reflexivity)) as (_ & _ & Hacc).
    cbn in Hacc. destruct (k_acc k) as [|r rs]; [reflexivity|].
    apply Forall_cons in Hacc as [Hr _]. compute_pins Hr. congruence.
  - intros fuel s E. destruct (execute_completed _ _ _ E) as (R & _ & Hd).
    destruct (lookup_lt_is_Some_2 (gs_tasks s) 1) as [k Hk].
    { rewrite (inv_tasks _ _ (reachable_inv _ _ R)). vm_compute. lia. }
    destruct (reachable_joins_blocked _ _ R 1 JoinTest_s join_expression k
                ltac:(vm_compute; reflexivity) eq_refl Hok Hk) as [Hs | [(Hs & _) | [e Hs]]];
      rewrite (Hd 1 k Hk) in Hs; discriminate.
Qed.

(** ** Witnesses *)

Lemma tests_no_deadlock_witness :
  exists s', gstep (graph_of (ComplexTest_edges None)) (init (graph_of (ComplexTest_edges None))) s'.
Proof.
  apply (tests_no_deadlock (ComplexTest_edges None)).
  - apply list_elem_of_further, list_elem_of_here.
  - vm_compute. reflexivity.
  - apply rtc_refl.
  - vm_compute. reflexivity.
Defined.

Definition io_b1 : Batch := rows_batch None [[1; 2]]%Z.
Definition io_b2 : Batch := rows_batch None [[3; 4]; [5; 6]]%Z.



Definition tagged0 : Batch := rows_batch (Some 0) [[1; 0]]%Z.
Definition tagged1 : Batch := rows_batch (Some 1) [[2; 5]]%Z.

Definition ssp_ops : list op := [OPush tagged0; OPush tagged1; OFinish; OPull 0; OPull 1].

Lemma SSP_partition_routing_witness :
  exists c', run (create (cache_machine_config None)) ssp_ops =
    (c', [(0, tagged0)], [tagged0]) /\ 0 = 0 /\ b_partition tagged0 = Some 0.
Proof.
  eexists. split; [vm_compute; reflexivity|].
  eapply (SSP_partition_routing None ssp_ops); [vm_compute; reflexivity | apply list_elem_of_here].
Defined.

Definition fifo_ops : list op := [OPush io_b1; OPull 0; OPush io_b2].

Lemma ComplexTest_caches_fifo_witness :
  exists c', run (create (cache_defaults None)) fifo_ops = (c', [(0, io_b1)], [io_b1; io_b2]) /\
    map snd [(0, io_b1)] ++ queue c' 0 = [io_b1; io_b2].
Proof.
  eexists. split; [vm_compute; reflexivity|].
  eapply (ComplexTest_caches_fifo None (graph_of (ComplexTest_edges None))
            (mkLink 0 default_port 2 default_port (cache_defaults None)) fifo_ops).
  - vm_compute. reflexivity.
  - vm_compute. apply list_elem_of_here.
  - vm_compute. reflexivity.
Defined.

Lemma ComplexTest_printed_rows_witness :
  exists a b, a ∈ ev_generate 10 /\ b ∈ ev_generate 10 /\
    ev_filter filter_lt5 a = true /\ ev_filter filter_lt5 b = true /\
    ev_join join_expression a b = true /\ [0%Z] = ev_project project_0 (a ++ b).
Proof.
  pose (s := match execute test_fuel (graph_of (ComplexTest_edges None)) with
             | Completed s => s | _ => init empty_graph end).
  apply (ComplexTest_printed_rows None s (default init_state (gs_tasks s !! 6)) [0%Z]).
  - apply (execute_completed test_fuel). vm_compute. reflexivity.
  - vm_compute. reflexivity.
  - apply (bool_decide_unpack _). vm_compute. reflexivity.
Defined.

Lemma JoinTest_schema_mismatch_witness :
  exists s k, @execute mismatch_evaluator test_fuel (graph_of (JoinTest_edges None)) =
    GraphFailed SchemaMismatchError s /\ gs_tasks s !! 3 = Some k /\ k_acc k = [].
Proof.
  pose (s := match @execute mismatch_evaluator test_fuel (graph_of (JoinTest_edges None)) with
             | GraphFailed _ s => s | _ => init empty_graph end).
  assert (E : @execute mismatch_evaluator test_fuel (graph_of (JoinTest_edges None)) =
              GraphFailed SchemaMismatchError s) by (vm_compute; reflexivity).
  exists s, (default init_state (gs_tasks s !! 3)). split; [exact E|]. split; [vm_compute; reflexivity|].
  apply (proj1 (@JoinTest_schema_mismatch mismatch_evaluator None eq_refl) s).
  - exact (proj1 (execute_failed _ _ _ _ E)).
  - vm_compute. reflexivity.
Defined.

End GraphTests.
